(** * Taskflow vector service: cache manager and vector search

    A shallow embedding of [src/vector-service/cache_manager.py] and
    [src/vector-service/vector_search.py].

    - Python [str] values are sequences of Unicode code points, [bytes]
      values are sequences of octets; both are lists of [Z].
    - A Python call either returns a value or raises: [outcome].
    - Methods that talk to Redis or PostgreSQL thread the state of that
      server explicitly: [M S A := S -> outcome A * S].
    - Of the [print] calls, the two that sit between a cache hit and
      its [return] are modelled, the standard output being a parameter;
      the others are diagnostics that change no result and are left
      out.  [close_connection] and [main] are not modelled. *)

From Stdlib Require Import ZArith QArith Qabs List Ascii String Lia Bool.
From Stdlib Require Import Sorting.Sorted Sorting.Permutation.
From stdpp Require Import base decidable option list sorting gmap.

Local Open Scope Z_scope.

(** ** Exceptions and outcomes *)

(** The exception classes the two modules can meet.  All of them derive
    from [Exception]; only [ConnectionError] is ever caught by class. *)
Inductive exn : Type :=
  | ConnectionError      (* redis.ConnectionError *)
  | ResponseError        (* redis.ResponseError *)
  | UnicodeEncodeError
  | UnicodeDecodeError
  | PickleError
  | JSONError
  | ModelError           (* raised while loading or running the model *)
  | DatabaseError.       (* psycopg2.Error and subclasses *)

Inductive outcome (A : Type) : Type :=
  | Return (a : A)
  | Raise (e : exn).
Arguments Return {A} a.
Arguments Raise {A} e.

Definition obind {A B} (o : outcome A) (k : A -> outcome B) : outcome B :=
  match o with
  | Return a => k a
  | Raise e => Raise e
  end.

(** State-and-exception monad: the state is the external server. *)
Definition M (S A : Type) : Type := S -> outcome A * S.

Definition ret {S A} (a : A) : M S A := fun s => (Return a, s).
Definition raise {S A} (e : exn) : M S A := fun s => (Raise e, s).
Definition bind {S A B} (m : M S A) (k : A -> M S B) : M S B :=
  fun s => match m s with
           | (Return a, s') => k a s'
           | (Raise e, s') => (Raise e, s')
           end.
(** [try: m  except Exception as e: h e] *)
Definition try_except {S A} (m : M S A) (h : exn -> M S A) : M S A :=
  fun s => match m s with
           | (Return a, s') => (Return a, s')
           | (Raise e, s') => h e s'
           end.
(** A pure computation that may raise, run inside a method. *)
Definition lift {S A} (o : outcome A) : M S A := fun s => (o, s).

Declare Scope py_scope.
Delimit Scope py_scope with py.
Notation "x <~ m ; k" := (bind m (fun x => k))
  (at level 20, m at level 100, k at level 200, only parsing) : py_scope.
Notation "m ;; k" := (bind m (fun _ => k))
  (at level 100, k at level 200, right associativity, only parsing) : py_scope.

(** ** Python strings and bytes *)

Abbreviation pystr := (list Z).   (* code points, 0 .. 0x10FFFF *)
Abbreviation bytes := (list Z).   (* octets, 0 .. 255 *)

(** A string literal of the source: every character of it is ASCII. *)
Fixpoint lit (s : string) : pystr :=
  match s with
  | EmptyString => []
  | String c s' => Z.of_N (N_of_ascii c) :: lit s'
  end.

(** Every Python [str] is a sequence of code points below 0x110000. *)
Definition is_codepoint (c : Z) : Prop := 0 <= c < 0x110000.
Definition wf_str (s : pystr) : Prop := Forall is_codepoint s.

(** Code points UTF-8 can encode: all but the surrogates D800..DFFF. *)
Definition is_scalar (c : Z) : bool :=
  ((0 <=? c) && (c <? 0xD800)) || ((0xE000 <=? c) && (c <? 0x110000)).
Definition encodable (s : pystr) : bool := forallb is_scalar s.

Definition is_byte (b : Z) : Prop := 0 <= b < 256.
(** ['0'..'9'] or ['a'..'f'] *)
Definition is_hex_char (c : Z) : Prop := 48 <= c <= 57 \/ 97 <= c <= 102.

Definition is_ascii (c : Z) : bool := (0 <=? c) && (c <? 0x80).
Definition ascii_str (s : pystr) : bool := forallb is_ascii s.

(** [str.encode()] with the default codec: UTF-8, errors='strict'. *)
Definition utf8_char (c : Z) : outcome bytes :=
  if negb (is_scalar c) then Raise UnicodeEncodeError
  else if c <? 0x80 then Return [c]
  else if c <? 0x800 then
    Return [Z.lor 0xC0 (Z.shiftr c 6); Z.lor 0x80 (Z.land c 0x3F)]
  else if c <? 0x10000 then
    Return [Z.lor 0xE0 (Z.shiftr c 12);
            Z.lor 0x80 (Z.land (Z.shiftr c 6) 0x3F);
            Z.lor 0x80 (Z.land c 0x3F)]
  else
    Return [Z.lor 0xF0 (Z.shiftr c 18);
            Z.lor 0x80 (Z.land (Z.shiftr c 12) 0x3F);
            Z.lor 0x80 (Z.land (Z.shiftr c 6) 0x3F);
            Z.lor 0x80 (Z.land c 0x3F)].

Fixpoint str_encode (s : pystr) : outcome bytes :=
  match s with
  | [] => Return []
  | c :: s' =>
      obind (utf8_char c) (fun b =>
      obind (str_encode s') (fun bs => Return (b ++ bs)))
  end.

(** ** hashlib.md5 (RFC 1321) on 32-bit words kept in [Z] *)

Module MD5.

Definition mask32 : Z := 0xFFFFFFFF.
Definition w32 (x : Z) : Z := Z.land x mask32.
Definition add32 (x y : Z) : Z := w32 (x + y).
Definition not32 (x : Z) : Z := Z.lxor x mask32.
Definition rotl32 (x : Z) (s : Z) : Z :=
  w32 (Z.lor (Z.shiftl x s) (Z.shiftr x (32 - s))).

Definition S_table : list Z :=
  [7; 12; 17; 22; 7; 12; 17; 22; 7; 12; 17; 22; 7; 12; 17; 22;
   5;  9; 14; 20; 5;  9; 14; 20; 5;  9; 14; 20; 5;  9; 14; 20;
   4; 11; 16; 23; 4; 11; 16; 23; 4; 11; 16; 23; 4; 11; 16; 23;
   6; 10; 15; 21; 6; 10; 15; 21; 6; 10; 15; 21; 6; 10; 15; 21].

Definition K_table : list Z :=
  [0xd76aa478; 0xe8c7b756; 0x242070db; 0xc1bdceee;
   0xf57c0faf; 0x4787c62a; 0xa8304613; 0xfd469501;
   0x698098d8; 0x8b44f7af; 0xffff5bb1; 0x895cd7be;
   0x6b901122; 0xfd987193; 0xa679438e; 0x49b40821;
   0xf61e2562; 0xc040b340; 0x265e5a51; 0xe9b6c7aa;
   0xd62f105d; 0x02441453; 0xd8a1e681; 0xe7d3fbc8;
   0x21e1cde6; 0xc33707d6; 0xf4d50d87; 0x455a14ed;
   0xa9e3e905; 0xfcefa3f8; 0x676f02d9; 0x8d2a4c8a;
   0xfffa3942; 0x8771f681; 0x6d9d6122; 0xfde5380c;
   0xa4beea44; 0x4bdecfa9; 0xf6bb4b60; 0xbebfbc70;
   0x289b7ec6; 0xeaa127fa; 0xd4ef3085; 0x04881d05;
   0xd9d4d039; 0xe6db99e5; 0x1fa27cf8; 0xc4ac5665;
   0xf4292244; 0x432aff97; 0xab9423a7; 0xfc93a039;
   0x655b59c3; 0x8f0ccc92; 0xffeff47d; 0x85845dd1;
   0x6fa87e4f; 0xfe2ce6e0; 0xa3014314; 0x4e0811a1;
   0xf7537e82; 0xbd3af235; 0x2ad7d2bb; 0xeb86d391].

Record state := mk_state { sa : Z; sb : Z; sc : Z; sd : Z }.

Definition init_state : state :=
  mk_state 0x67452301 0xefcdab89 0x98badcfe 0x10325476.

(** Little-endian word of four octets, and back. *)
Definition word_of_bytes (bs : list Z) : Z :=
  Z.lor (nth 0 bs 0)
    (Z.lor (Z.shiftl (nth 1 bs 0) 8)
       (Z.lor (Z.shiftl (nth 2 bs 0) 16) (Z.shiftl (nth 3 bs 0) 24))).

Definition bytes_of_word (x : Z) : list Z :=
  [Z.land x 0xFF; Z.land (Z.shiftr x 8) 0xFF;
   Z.land (Z.shiftr x 16) 0xFF; Z.land (Z.shiftr x 24) 0xFF].

Fixpoint words_of_block (n : nat) (bs : list Z) : list Z :=
  match n with
  | O => []
  | S n' => word_of_bytes (firstn 4 bs) :: words_of_block n' (skipn 4 bs)
  end.

(** One of the 64 operations of a block. *)
Definition step (m : list Z) (st : state) (i : Z) : state :=
  let '(mk_state a b c d) := st in
  let '(f, g) :=
    if i <? 16 then (Z.lor (Z.land b c) (Z.land (not32 b) d), i)
    else if i <? 32 then
      (Z.lor (Z.land d b) (Z.land (not32 d) c), (5 * i + 1) mod 16)
    else if i <? 48 then (Z.lxor b (Z.lxor c d), (3 * i + 5) mod 16)
    else (Z.lxor c (Z.lor b (not32 d)), (7 * i) mod 16) in
  let f' :=
    add32 (add32 (add32 f a) (nth (Z.to_nat i) K_table 0))
          (nth (Z.to_nat g) m 0) in
  mk_state d (add32 b (rotl32 f' (nth (Z.to_nat i) S_table 0))) b c.

Definition rounds : list Z := map Z.of_nat (seq 0 64).

Definition compress (st : state) (block : list Z) : state :=
  let m := words_of_block 16 block in
  let st' := fold_left (step m) rounds st in
  mk_state (add32 (sa st) (sa st')) (add32 (sb st) (sb st'))
           (add32 (sc st) (sc st')) (add32 (sd st) (sd st')).

(** The message, a 1 bit, zeros up to 56 mod 64, the bit length on 64 bits. *)
Definition padding (len : Z) : list Z :=
  let zeros := (55 - len) mod 64 in
  let bits := (8 * len) mod 2 ^ 64 in
  0x80 :: repeat 0 (Z.to_nat zeros)
    ++ bytes_of_word (w32 bits) ++ bytes_of_word (Z.shiftr bits 32).

Fixpoint blocks (n : nat) (st : state) (bs : list Z) : state :=
  match n with
  | O => st
  | S n' => blocks n' (compress st (firstn 64 bs)) (skipn 64 bs)
  end.

Definition digest (msg : bytes) : bytes :=
  let padded := msg ++ padding (Z.of_nat (length msg)) in
  let st := blocks (length padded / 64)%nat init_state padded in
  bytes_of_word (sa st) ++ bytes_of_word (sb st)
    ++ bytes_of_word (sc st) ++ bytes_of_word (sd st).

Definition hex_digit (n : Z) : Z :=
  if n <? 10 then 48 + n else 87 + n.      (* '0'..'9', 'a'..'f' *)

Definition hex_byte (b : Z) : pystr :=
  [hex_digit (Z.shiftr b 4); hex_digit (Z.land b 0xF)].

(** [hashlib.md5(data).hexdigest()] *)
Definition hexdigest (msg : bytes) : pystr :=
  concat (map hex_byte (digest msg)).

End MD5.

(** ** json.dumps *)

(** The JSON-serialisable values a filter can hold ([None], [bool],
    [int], [str], [list], [dict] with [str] keys).  A [dict] keeps its
    items in insertion order; its keys are pairwise distinct. *)
#[warnings="-register-all"]
Inductive json : Type :=
  | JNull
  | JBool (b : bool)
  | JInt (n : Z)
  | JStr (s : pystr)
  | JList (l : list json)
  | JDict (d : list (pystr * json)).

Abbreviation pydict := (list (pystr * json)).

Definition dict_keys (d : pydict) : list pystr := map fst d.

(** [str] comparison: lexicographic on code points. *)
Fixpoint pystr_leb (a b : pystr) : bool :=
  match a, b with
  | [], _ => true
  | _ :: _, [] => false
  | x :: a', y :: b' =>
      if x <? y then true else if y <? x then false else pystr_leb a' b'
  end.

Definition pystr_le (a b : pystr) : Prop := pystr_leb a b = true.

#[global] Instance pystr_le_dec : RelDecision pystr_le :=
  fun a b => decide (pystr_leb a b = true).

(** [str(n)] for an [int]: decimal digits, a leading minus sign. *)
Fixpoint digits (u : Decimal.uint) : pystr :=
  match u with
  | Decimal.Nil => []
  | Decimal.D0 u' => 48 :: digits u'
  | Decimal.D1 u' => 49 :: digits u'
  | Decimal.D2 u' => 50 :: digits u'
  | Decimal.D3 u' => 51 :: digits u'
  | Decimal.D4 u' => 52 :: digits u'
  | Decimal.D5 u' => 53 :: digits u'
  | Decimal.D6 u' => 54 :: digits u'
  | Decimal.D7 u' => 55 :: digits u'
  | Decimal.D8 u' => 56 :: digits u'
  | Decimal.D9 u' => 57 :: digits u'
  end.

Definition str_of_int (n : Z) : pystr :=
  match Z.to_int n with
  | Decimal.Pos u => digits u
  | Decimal.Neg u => 45 :: digits u
  end.

(** ['{0:04x}'.format(n)] for [0 <= n < 0x10000]. *)
Definition hex4 (n : Z) : pystr :=
  [MD5.hex_digit (Z.land (Z.shiftr n 12) 0xF);
   MD5.hex_digit (Z.land (Z.shiftr n 8) 0xF);
   MD5.hex_digit (Z.land (Z.shiftr n 4) 0xF);
   MD5.hex_digit (Z.land n 0xF)].

(** One character of [json.encoder.encode_basestring_ascii]
    ([ensure_ascii=True] is the default of [json.dumps]).  The literals
    below hold a backslash followed by a letter: two characters each. *)
Definition quote : pystr := [34].

Definition escape_char (c : Z) : pystr :=
  if c =? 34 then 92 :: quote
  else if c =? 92 then lit "\\"
  else if c =? 10 then lit "\n"
  else if c =? 13 then lit "\r"
  else if c =? 9 then lit "\t"
  else if c =? 12 then lit "\f"
  else if c =? 8 then lit "\b"
  else if (32 <=? c) && (c <=? 126) then [c]
  else if c <? 0x10000 then lit "\u" ++ hex4 c
  else
    let n := c - 0x10000 in
    lit "\u" ++ hex4 (Z.lor 0xd800 (Z.land (Z.shiftr n 10) 0x3ff))
      ++ lit "\u" ++ hex4 (Z.lor 0xdc00 (Z.land n 0x3ff)).

Definition encode_basestring_ascii (s : pystr) : pystr :=
  quote ++ concat (map escape_char s) ++ quote.

(** [sep.join(parts)] *)
Fixpoint join (sep : pystr) (parts : list pystr) : pystr :=
  match parts with
  | [] => []
  | [p] => p
  | p :: ps => p ++ sep ++ join sep ps
  end.

(** Items of a [dict] are ordered by key when [sort_keys=True].  Keys of
    one [dict] are distinct, so comparing the [(key, value)] tuples, as
    [sorted] does, never looks at a value. *)
Definition item_le {V} (a b : pystr * V) : Prop := pystr_le a.1 b.1.

#[global] Instance item_le_dec {V} : RelDecision (@item_le V) :=
  fun a b => decide (pystr_leb a.1 b.1 = true).

(** [json.dumps(obj, sort_keys=sort_keys)] with the default separators
    [', '] and [': '].  Each value of a [dict] is rendered before the
    items are put in order: the order depends on the keys only. *)
Fixpoint json_dumps (sort_keys : bool) (j : json) : pystr :=
  match j with
  | JNull => lit "null"
  | JBool true => lit "true"
  | JBool false => lit "false"
  | JInt n => str_of_int n
  | JStr s => encode_basestring_ascii s
  | JList l =>
      lit "[" ++ join (lit ", ") (map (json_dumps sort_keys) l) ++ lit "]"
  | JDict d =>
      let rendered := map (fun kv => (fst kv, json_dumps sort_keys (snd kv))) d in
      let items := if sort_keys then merge_sort item_le rendered else rendered in
      lit "{"
        ++ join (lit ", ")
             (map (fun kv => encode_basestring_ascii (fst kv) ++ lit ": " ++ snd kv)
                  items)
        ++ lit "}"
  end.

(** A well-formed value: the keys of every [dict] in it are distinct. *)
Inductive wf_json : json -> Prop :=
  | wf_null : wf_json JNull
  | wf_bool b : wf_json (JBool b)
  | wf_int n : wf_json (JInt n)
  | wf_str_ s : wf_json (JStr s)
  | wf_list l : Forall wf_json l -> wf_json (JList l)
  | wf_dict d :
      NoDup (dict_keys d) -> Forall (fun kv => wf_json (snd kv)) d ->
      wf_json (JDict d).

(** Two values are the same mapping when they differ at most in the
    order in which their [dict]s, at any depth, enumerate their items. *)
Inductive same_mapping : json -> json -> Prop :=
  | same_null : same_mapping JNull JNull
  | same_bool b : same_mapping (JBool b) (JBool b)
  | same_int n : same_mapping (JInt n) (JInt n)
  | same_str s : same_mapping (JStr s) (JStr s)
  | same_list l1 l2 :
      Forall2 same_mapping l1 l2 -> same_mapping (JList l1) (JList l2)
  | same_dict d1 d d2 :
      Permutation d1 d ->
      Forall2 (fun a b => fst a = fst b /\ same_mapping (snd a) (snd b)) d d2 ->
      same_mapping (JDict d1) (JDict d2).

(** [json.dumps(_, sort_keys=True)] renders [j1] as it renders any value
    that is the same mapping. *)
Definition dumps_respects (j1 : json) : Prop :=
  forall j2, wf_json j1 -> same_mapping j1 j2 ->
             json_dumps true j1 = json_dumps true j2.

(** ** Redis, as the client sees it *)

(** The server holds binary keys, each with a binary value and the
    instant at which it expires.  [redis_up] tells whether the server
    answers; [redis_now] is the server clock.  Between two calls of the
    client the environment may change all three. *)
Record redis_server : Type := mk_redis {
  redis_up : bool;
  redis_now : Z;
  redis_db : gmap (list Z) (list Z * Z)
}.

Definition live (now : Z) (e : list Z * Z) : bool := now <? e.2.

(** Glob patterns of [KEYS]: [*] matches any run of octets, [?] one
    octet, any other octet itself (character classes and escapes do not
    occur in this program). *)
Fixpoint glob_match (p : bytes) (s : bytes) {struct p} : bool :=
  match p with
  | [] => match s with [] => true | _ :: _ => false end
  | c :: p' =>
      if c =? 42 then
        (fix star (s : bytes) : bool :=
           glob_match p' s
           || match s with [] => false | _ :: s' => star s' end) s
      else
        match s with
        | [] => false
        | x :: s' => ((c =? 63) || (c =? x)) && glob_match p' s'
        end
  end.

(** What [GET k] answers: the value under [k] unless it has expired. *)
Definition lookup_live (srv : redis_server) (k : bytes) : option bytes :=
  match redis_db srv !! k with
  | Some e => if live (redis_now srv) e then Some e.1 else None
  | None => None
  end.

(** [s] starts with [pre]. *)
Fixpoint has_prefix (pre s : list Z) : bool :=
  match pre, s with
  | [], _ => true
  | _ :: _, [] => false
  | c :: pre', x :: s' => (c =? x) && has_prefix pre' s'
  end.

Module Redis.

(** Every command first needs the connection. *)
Definition connected : M redis_server unit :=
  fun srv => if redis_up srv then (Return tt, srv)
             else (Raise ConnectionError, srv).

Definition ping : M redis_server bool :=
  (connected ;; ret true)%py.

(** [GET key]; a [str] argument is sent as its UTF-8 encoding. *)
Definition get (key : pystr) : M redis_server (option bytes) :=
  (connected ;;
   k <~ lift (str_encode key);
   fun srv =>
     match redis_db srv !! k with
     | Some e => if live (redis_now srv) e then (Return (Some e.1), srv)
                 else (Return None, srv)
     | None => (Return None, srv)
     end)%py.

(** [SETEX key seconds value]; a non-positive [seconds] is refused with
    "invalid expire time". *)
Definition setex (key : pystr) (ttl : Z) (value : bytes)
  : M redis_server bool :=
  (connected ;;
   k <~ lift (str_encode key);
   if ttl <=? 0 then raise ResponseError
   else fun srv =>
     (Return true,
      mk_redis (redis_up srv) (redis_now srv)
               (<[k := (value, redis_now srv + ttl)]> (redis_db srv))))%py.

(** [KEYS pattern]: the keys that have not expired and match. *)
Definition keys (pattern : pystr) : M redis_server (list bytes) :=
  (connected ;;
   p <~ lift (str_encode pattern);
   fun srv =>
     (Return
        (map fst
           (filter (fun kv => live (redis_now srv) kv.2 = true
                              /\ glob_match p kv.1 = true)
                   (map_to_list (redis_db srv)))),
      srv))%py.

(** [DEL key ...] with keys already binary; answers how many existed. *)
Definition delete (ks : list bytes) : M redis_server Z :=
  (connected ;;
   fun srv =>
     (Return
        (Z.of_nat
           (length (filter (fun k => is_Some (redis_db srv !! k)) ks))),
      mk_redis (redis_up srv) (redis_now srv)
               (foldr (fun k m => base.delete k m) (redis_db srv) ks)))%py.

End Redis.

(** ** cache_manager.py *)

(** [_generate_cache_key(text, prefix)]:
    [hashlib.md5(text.encode()).hexdigest()], then [f"{prefix}:{text_hash}"]. *)
Definition _generate_cache_key (text : pystr) (prefix : pystr)
  : outcome pystr :=
  obind (str_encode text) (fun data =>
  let text_hash := MD5.hexdigest data in
  Return (prefix ++ lit ":" ++ text_hash)).

(** [filters or {}]: [None] and the empty [dict] are both falsy. *)
Definition filters_or_empty (filters : option pydict) : pydict :=
  match filters with
  | Some (kv :: d) => kv :: d
  | Some [] => []
  | None => []
  end.

(** The three statements that [get_search_results] (lines 70-72) and
    [set_search_results] (lines 92-94) both start with:
    [cache_data = {"query": query, "filters": filters or {}}],
    [cache_str = json.dumps(cache_data, sort_keys=True)],
    [key = self._generate_cache_key(cache_str, "search")]. *)
Definition search_cache_str (query : pystr) (filters : option pydict)
  : pystr :=
  let cache_data :=
    JDict [(lit "query", JStr query);
           (lit "filters", JDict (filters_or_empty filters))] in
  json_dumps true cache_data.

Definition search_cache_key (query : pystr) (filters : option pydict)
  : outcome pystr :=
  let cache_str := search_cache_str query filters in
  _generate_cache_key cache_str (lit "search").

(** The client object; [None] once the constructor has given up. *)
Inductive redis_handle : Type := RedisClient.

Record VectorCacheManager : Type := mk_manager {
  redis_client : option redis_handle
}.

(** [__init__]: ping, and on [redis.ConnectionError] (only) drop the
    client. *)
Definition VectorCacheManager_init : M redis_server VectorCacheManager :=
  fun srv =>
    match Redis.ping srv with
    | (Return _, srv') => (Return (mk_manager (Some RedisClient)), srv')
    | (Raise ConnectionError, srv') => (Return (mk_manager None), srv')
    | (Raise e, srv') => (Raise e, srv')
    end.

(** Truth value of a [bytes] object: non-empty. *)
Definition truthy {A} (b : list A) : bool :=
  match b with [] => false | _ :: _ => true end.

Definition default_embedding_ttl : Z := 3600.
Definition default_search_ttl : Z := 600.

Section CacheManager.

(** The payload codecs are library code: [pickle] for embeddings,
    [json.dumps]/[json.loads] and [bytes.decode] for result lists. *)
Context {ndarray : Type}.
Variable pickle_dumps : ndarray -> outcome bytes.
Variable pickle_loads : bytes -> outcome ndarray.
Context {results : Type}.
Variable results_dumps : results -> outcome pystr.
Variable results_loads : pystr -> outcome results.
Variable bytes_decode : bytes -> outcome pystr.

(** [print] writes a line to the standard output of the process, and
    raises when that stream does not take the text: [UnicodeEncodeError]
    when its encoding has no octets for one of the characters (a lone
    surrogate on a UTF-8 stream, anything above U+007F on an ASCII one).
    Two prints sit between a cache hit and its [return], inside the
    [try] (lines 41 and 77): they decide what the lookup returns and are
    part of the methods below.  The prints of lines 58, 98 and 112 end
    their [try] body after the store has been written: raising or not,
    they change neither the store nor the [None] that is returned, and
    are left out, as are the diagnostics of the handlers. *)
Variable py_print : pystr -> outcome unit.

(** [f"Cache hit for embedding: {text[:50]}..."] *)
Definition embedding_hit_message (text : pystr) : pystr :=
  lit "Cache hit for embedding: " ++ take 50 text ++ lit "...".

(** [f"Cache hit for search: {query[:50]}..."] *)
Definition search_hit_message (query : pystr) : pystr :=
  lit "Cache hit for search: " ++ take 50 query ++ lit "...".

Definition get_embedding (self : VectorCacheManager) (text : pystr)
  : M redis_server (option ndarray) :=
  match redis_client self with
  | None => ret None
  | Some _ =>
      try_except
        (key <~ lift (_generate_cache_key text (lit "embedding"));
         cached <~ Redis.get key;
         match cached with
         | Some c =>
             if truthy c then
               (embedding <~ lift (pickle_loads c);
                (lift (py_print (embedding_hit_message text)) ;;
                 ret (Some embedding)))
             else ret None
         | None => ret None
         end)%py
        (fun _ => ret None)
  end.

Definition set_embedding (self : VectorCacheManager) (text : pystr)
    (embedding : ndarray) (ttl : Z) : M redis_server unit :=
  match redis_client self with
  | None => ret tt
  | Some _ =>
      try_except
        (key <~ lift (_generate_cache_key text (lit "embedding"));
         serialized <~ lift (pickle_dumps embedding);
         Redis.setex key ttl serialized ;;
         ret tt)%py
        (fun _ => ret tt)
  end.

Definition get_search_results (self : VectorCacheManager) (query : pystr)
    (filters : option pydict) : M redis_server (option results) :=
  match redis_client self with
  | None => ret None
  | Some _ =>
      try_except
        (key <~ lift (search_cache_key query filters);
         cached <~ Redis.get key;
         match cached with
         | Some c =>
             if truthy c then
               (text <~ lift (bytes_decode c);
                res <~ lift (results_loads text);
                (lift (py_print (search_hit_message query)) ;;
                 ret (Some res)))
             else ret None
         | None => ret None
         end)%py
        (fun _ => ret None)
  end.

Definition set_search_results (self : VectorCacheManager) (query : pystr)
    (res : results) (filters : option pydict) (ttl : Z)
  : M redis_server unit :=
  match redis_client self with
  | None => ret tt
  | Some _ =>
      try_except
        (key <~ lift (search_cache_key query filters);
         text <~ lift (results_dumps res);
         serialized <~ lift (str_encode text);
         Redis.setex key ttl serialized ;;
         ret tt)%py
        (fun _ => ret tt)
  end.

Definition invalidate_search_cache (self : VectorCacheManager)
  : M redis_server unit :=
  match redis_client self with
  | None => ret tt
  | Some _ =>
      try_except
        (keys <~ Redis.keys (lit "search:*");
         if truthy keys then (Redis.delete keys ;; ret tt)
         else ret tt)%py
        (fun _ => ret tt)
  end.

(** The five cache operations, as requests a caller can make during the
    life of a manager, and what each hands back. *)
Inductive cache_call : Type :=
  | CallGetEmbedding (text : pystr)
  | CallSetEmbedding (text : pystr) (embedding : ndarray) (ttl : Z)
  | CallGetSearchResults (query : pystr) (filters : option pydict)
  | CallSetSearchResults (query : pystr) (res : results)
                         (filters : option pydict) (ttl : Z)
  | CallInvalidateSearchCache.

Inductive cache_reply : Type :=
  | GotEmbedding (e : option ndarray)
  | GotResults (r : option results)
  | Done.

Definition run_call (self : VectorCacheManager) (c : cache_call)
  : M redis_server cache_reply :=
  match c with
  | CallGetEmbedding text =>
      (r <~ get_embedding self text; ret (GotEmbedding r))%py
  | CallSetEmbedding text e ttl =>
      (set_embedding self text e ttl ;; ret Done)%py
  | CallGetSearchResults q f =>
      (r <~ get_search_results self q f; ret (GotResults r))%py
  | CallSetSearchResults q r f ttl =>
      (set_search_results self q r f ttl ;; ret Done)%py
  | CallInvalidateSearchCache =>
      (invalidate_search_cache self ;; ret Done)%py
  end.

(** The reply of a call that found nothing or did nothing. *)
Definition absent (c : cache_call) : cache_reply :=
  match c with
  | CallGetEmbedding _ => GotEmbedding None
  | CallGetSearchResults _ _ => GotResults None
  | _ => Done
  end.

(** A life of the manager: calls, and between them whatever the
    environment does to the server (outage, restart, clock, other
    clients), given as the state it leaves the server in. *)
Inductive event : Type :=
  | Call (c : cache_call)
  | Environment (srv : redis_server).

Fixpoint run_life (self : VectorCacheManager) (life : list event)
    (srv : redis_server) : list (outcome cache_reply) * redis_server :=
  match life with
  | [] => ([], srv)
  | Environment srv' :: rest => run_life self rest srv'
  | Call c :: rest =>
      let '(r, srv') := run_call self c srv in
      let '(rs, final) := run_life self rest srv' in
      (r :: rs, final)
  end.

(** The same life with every call left out. *)
Fixpoint environment_only (life : list event) (srv : redis_server)
  : redis_server :=
  match life with
  | [] => srv
  | Environment srv' :: rest => environment_only rest srv'
  | Call _ :: rest => environment_only rest srv
  end.

Fixpoint calls_of (life : list event) : list cache_call :=
  match life with
  | [] => []
  | Environment _ :: rest => calls_of rest
  | Call c :: rest => c :: calls_of rest
  end.

End CacheManager.

(** ** PostgreSQL, as the connection sees it *)

Section VectorSearch.

(** Numbers of the store ([float8]) and of Python ([float]): their
    arithmetic is not modelled, only the order used by [ORDER BY] (total
    on [float8], NaN last), the subtraction [1 - d] and the distance
    operator [<->]. *)
Context {num : Type}.
Variable num_le : relation num.
Context `{!RelDecision num_le}.
Variable one_minus : num -> num.
Variable distance : list num -> list num -> num.

(** [SentenceTransformer.encode(text).tolist()], which may raise. *)
Variable model_encode : pystr -> outcome (list num).

(** A row of table [tasks]; SQL [NULL] is [None]. *)
Record task : Type := mk_task {
  task_id : Z;
  task_title : option pystr;
  task_description : option pystr;
  task_status : option pystr;
  task_embedding : option (list num)
}.

(** The transaction of the connection: none open, open with the table as
    the transaction sees it, or failed (every statement is refused until
    the transaction is rolled back). *)
Inductive txn : Type :=
  | Idle
  | InTxn (view : list task)
  | Aborted.

(** [db_tasks] is the committed table.  [db_script] foretells the calls
    to come: [false] means the call raises (statement refused,
    connection lost, ...); past the end of the script calls succeed. *)
Record database : Type := mk_db {
  db_tasks : list task;
  db_txn : txn;
  db_script : list bool
}.

(** The table as the connection sees it. *)
Definition txn_view (db : database) : list task :=
  match db_txn db with
  | InTxn view => view
  | _ => db_tasks db
  end.

(** Consume one entry of the script. *)
Definition connection_call : M database unit :=
  fun db =>
    match db_script db with
    | false :: rest =>
        (Raise DatabaseError, mk_db (db_tasks db) (db_txn db) rest)
    | true :: rest => (Return tt, mk_db (db_tasks db) (db_txn db) rest)
    | [] => (Return tt, db)
    end.

(** [connection.cursor()] *)
Definition connection_cursor : M database unit := connection_call.

(** A statement runs in the open transaction, opening one if needed.
    A statement that raises leaves the transaction failed. *)
Definition statement {A} (run : list task -> outcome (A * list task))
  : M database A :=
  fun db =>
    match connection_call db with
    | (Raise e, db') =>
        (Raise e, mk_db (db_tasks db') Aborted (db_script db'))
    | (Return _, db') =>
        match db_txn db' with
        | Aborted => (Raise DatabaseError, db')
        | _ =>
            match run (txn_view db') with
            | Return (a, view') =>
                (Return a, mk_db (db_tasks db') (InTxn view') (db_script db'))
            | Raise e =>
                (Raise e, mk_db (db_tasks db') Aborted (db_script db'))
            end
        end
    end.

(** [SELECT id, title, description FROM tasks WHERE embedding IS NULL],
    then [fetchall()]. *)
Definition execute_select_missing
  : M database (list (Z * option pystr * option pystr)) :=
  statement (fun view =>
    Return
      (map (fun t => (task_id t, task_title t, task_description t))
           (filter (fun t => task_embedding t = None) view),
       view)).

Definition set_embedding_of (e : list num) (t : task) : task :=
  mk_task (task_id t) (task_title t) (task_description t) (task_status t)
          (Some e).

(** [UPDATE tasks SET embedding = %s WHERE id = %s] *)
Definition execute_update_embedding (e : list num) (id : Z) : M database unit :=
  statement (fun view =>
    Return
      (tt, map (fun t => if task_id t =? id then set_embedding_of e t else t)
               view)).

(** A row of the nearest-neighbour query with its distance. *)
Definition with_distance (q : list num) (t : task) : option (task * num) :=
  match task_embedding t with
  | Some e => Some (t, distance e q)
  | None => None
  end.

Definition by_distance (a b : task * num) : Prop := num_le a.2 b.2.

#[global] Instance by_distance_dec : RelDecision by_distance :=
  fun a b => decide_rel num_le a.2 b.2.

(** [SELECT id, title, description, status, embedding <-> %s as distance
     FROM tasks WHERE embedding IS NOT NULL ORDER BY distance LIMIT %s],
    then [fetchall()].  A negative [LIMIT] is refused by the server.
    The server is free in the order of rows at the same distance; the
    order taken here is that of the sort, and no fact below depends on
    it. *)
Definition execute_select_nearest (q : list num) (limit : Z)
  : M database (list (task * num)) :=
  statement (fun view =>
    if limit <? 0 then Raise DatabaseError
    else
      Return
        (firstn (Z.to_nat limit)
           (merge_sort by_distance (omap (with_distance q) view)),
         view)).

(** [connection.commit()]: a failed transaction is rolled back. *)
Definition connection_commit : M database unit :=
  (connection_call ;;
   fun db =>
     match db_txn db with
     | InTxn view => (Return tt, mk_db view Idle (db_script db))
     | _ => (Return tt, mk_db (db_tasks db) Idle (db_script db))
     end)%py.

(** [connection.rollback()] *)
Definition connection_rollback : M database unit :=
  (connection_call ;;
   fun db => (Return tt, mk_db (db_tasks db) Idle (db_script db)))%py.

(** ** vector_search.py *)

(** [generate_embedding]: [None] for a falsy text or when the model
    raises. *)
Definition generate_embedding (text : option pystr) : option (list num) :=
  match text with
  | None => None
  | Some [] => None
  | Some (c :: s) =>
      match model_encode (c :: s) with
      | Return embedding => Some embedding
      | Raise _ => None
      end
  end.

(** Truth value of what [generate_embedding] returned: neither [None]
    nor an empty list. *)
Definition usable (embedding : option (list num)) : option (list num) :=
  match embedding with
  | Some (x :: e) => Some (x :: e)
  | Some [] => None
  | None => None
  end.

(** [str(x)] inside an f-string; [None] prints as its name. *)
Definition format_opt (x : option pystr) : pystr :=
  match x with
  | Some s => s
  | None => lit "None"
  end.

(** [f"{title}. {description}" if description else title] *)
Definition text_of (title description : option pystr) : option pystr :=
  match description with
  | Some (c :: d) => Some (format_opt title ++ lit ". " ++ (c :: d))
  | Some [] => title
  | None => title
  end.

Definition update_task_embedding (id : Z) (description : option pystr)
  : M database bool :=
  match description with
  | None => ret false
  | Some [] => ret false
  | Some (c :: d) =>
      match usable (generate_embedding description) with
      | None => ret false
      | Some embedding =>
          try_except
            (connection_cursor ;;
             execute_update_embedding embedding id ;;
             connection_commit ;;
             ret true)%py
            (fun _ => connection_rollback ;; ret false)%py
      end
  end.

(** The [for] loop of [update_all_embeddings]. *)
Fixpoint backfill (tasks : list (Z * option pystr * option pystr))
    (updated_count : Z) : M database Z :=
  match tasks with
  | [] => ret updated_count
  | (id, title, description) :: rest =>
      let text := text_of title description in
      match usable (generate_embedding text) with
      | Some embedding =>
          (execute_update_embedding embedding id ;;
           backfill rest (updated_count + 1))%py
      | None => backfill rest updated_count
      end
  end.

(** The [try] block of [update_all_embeddings]. *)
Definition update_all_embeddings_try : M database Z :=
  (connection_cursor ;;
   tasks <~ execute_select_missing;
   updated_count <~ backfill tasks 0;
   connection_commit ;;
   ret updated_count)%py.

Definition update_all_embeddings : M database Z :=
  try_except update_all_embeddings_try
    (fun _ => connection_rollback ;; ret 0)%py.

(** What handling the selected row [r] does to a row [t] of the table,
    and whether it counts. *)
Definition row_embedding (r : Z * option pystr * option pystr)
  : option (list num) :=
  usable (generate_embedding (text_of r.1.2 r.2)).

Definition apply_row (t : task) (r : Z * option pystr * option pystr)
  : task :=
  match row_embedding r with
  | Some e => if task_id t =? r.1.1 then set_embedding_of e t else t
  | None => t
  end.

Definition counted (rows : list (Z * option pystr * option pystr)) : Z :=
  Z.of_nat (length (filter (fun r => is_Some (row_embedding r)) rows)).

(** The rows [SELECT ... WHERE embedding IS NULL] answers on a table. *)
Definition missing_rows (view : list task)
  : list (Z * option pystr * option pystr) :=
  map (fun t => (task_id t, task_title t, task_description t))
      (filter (fun t => task_embedding t = None) view).

(** A row of the table after a backfill that went through: a row
    without embedding gets the one generated from its title and
    description, if one is; any other row is as it was. *)
Definition backfilled (t : task) : task :=
  match task_embedding t with
  | Some _ => t
  | None =>
      match usable (generate_embedding
                      (text_of (task_title t) (task_description t))) with
      | Some e => set_embedding_of e t
      | None => t
      end
  end.

(** No call to come is foretold to raise, and the transaction has not
    failed. *)
Definition reliable (db : database) : Prop :=
  Forall (fun ok => ok = true) (db_script db) /\ db_txn db <> Aborted.

(** One hit of a search, the [dict] built from a row. *)
Record search_result : Type := mk_result {
  result_id : Z;
  result_title : option pystr;
  result_description : option pystr;
  result_status : option pystr;
  result_similarity : num
}.

Definition result_of_row (row : task * num) : search_result :=
  mk_result (task_id row.1) (task_title row.1) (task_description row.1)
            (task_status row.1) (one_minus row.2).

Definition default_limit : Z := 5.

Definition vector_search (query : option pystr) (limit : Z)
  : M database (list search_result) :=
  match usable (generate_embedding query) with
  | None => ret []
  | Some query_embedding =>
      try_except
        (connection_cursor ;;
         rows <~ execute_select_nearest query_embedding limit;
         ret (map result_of_row rows))%py
        (fun _ => ret [])
  end.

(** [connect_to_db]: what [psycopg2.connect] raised is raised again. *)
Definition connect_to_db (attempt : outcome database) : outcome database :=
  match attempt with
  | Return connection => Return connection
  | Raise e => Raise e
  end.

Record VectorSearchService : Type := mk_service {
  connection : database
}.

(** [__init__]: load the model, then connect. *)
Definition VectorSearchService_init (model_load : outcome unit)
    (attempt : outcome database) : outcome VectorSearchService :=
  obind model_load (fun _ =>
  obind (connect_to_db attempt) (fun c =>
  Return (mk_service c))).

End VectorSearch.

(** ** cache_manager.py: statistics *)

(** What [INFO] tells that [get_cache_stats] reads: the [keys] field of
    [db0] (absent when the database holds nothing) and
    [used_memory_human]. *)
Record redis_info : Type := mk_info {
  info_db0_keys : option Z;
  info_used_memory_human : option pystr
}.

(** The [dict] that [get_cache_stats] returns, by its [status]. *)
Inductive cache_stats : Type :=
  | StatsDisconnected
  | StatsConnected (total_keys embedding_cache_entries
                    search_cache_entries : Z) (memory_usage : pystr)
  | StatsError (e : exn).

Section CacheStats.

(** The memory the server reports using, a string of its own making. *)
Variable used_memory_human : redis_server -> option pystr.

(** [INFO]: [db0] counts every key the database holds, the ones that
    have expired but are still there included. *)
Definition redis_info_command : M redis_server redis_info :=
  (Redis.connected ;;
   fun srv =>
     (Return
        (mk_info
           (if decide (size (redis_db srv) = 0%nat) then None
            else Some (Z.of_nat (size (redis_db srv))))
           (used_memory_human srv)),
      srv))%py.

(** [d.get(key, default)] *)
Definition get_default {A} (o : option A) (default : A) : A :=
  match o with
  | Some a => a
  | None => default
  end.

Definition len {A} (l : list A) : Z := Z.of_nat (length l).

Definition get_cache_stats (self : VectorCacheManager)
  : M redis_server cache_stats :=
  match redis_client self with
  | None => ret StatsDisconnected
  | Some _ =>
      try_except
        (info <~ redis_info_command;
         embedding_keys <~ Redis.keys (lit "embedding:*");
         search_keys <~ Redis.keys (lit "search:*");
         ret (StatsConnected
                (get_default (info_db0_keys info) 0)
                (len embedding_keys)
                (len search_keys)
                (get_default (info_used_memory_human info) (lit "N/A"))))%py
        (fun e => ret (StatsError e))
  end.

End CacheStats.

(** How many keys under a prefix the server would list. *)
Definition live_under (pre : bytes) (srv : redis_server) : Z :=
  Z.of_nat
    (length
       (filter (fun kv : list Z * (list Z * Z) =>
                  live (redis_now srv) kv.2 = true
                  /\ has_prefix pre kv.1 = true)
               (map_to_list (redis_db srv)))).

(** ** vector_search.py: what the methods leave alone *)

(** The columns of a task that no method writes. *)
Definition columns {num : Type} (t : @task num)
  : Z * option pystr * option pystr * option pystr :=
  (task_id t, task_title t, task_description t, task_status t).

(** Two tables hold the same tasks, embeddings apart. *)
Definition same_rows {num : Type} (a b : list (@task num)) : Prop :=
  map columns a = map columns b.

(** The open transaction, if any, holds the committed tasks, embeddings
    apart. *)
Definition consistent {num : Type} (db : @database num) : Prop :=
  same_rows (txn_view db) (db_tasks db).

(** The rows an [UPDATE ... WHERE id = %s] writes. *)
Definition with_embedding {num : Type} (e : list num) (id : Z)
    (view : list (@task num)) : list (@task num) :=
  map (fun t => if task_id t =? id then set_embedding_of e t else t) view.

(** A method keeps the rows: run on a consistent connection it leaves a
    consistent connection whose committed table holds the same tasks,
    embeddings apart, whatever it returns or raises. *)
Definition keeps_rows {num A : Type} (m : M (@database num) A) : Prop :=
  forall db r db',
    consistent db -> m db = (r, db') ->
    consistent db' /\ same_rows (db_tasks db') (db_tasks db).

(** Whether a task has an embedding. *)
Definition has_embedding {num : Type} (t : @task num) : bool :=
  match task_embedding t with
  | Some _ => true
  | None => false
  end.

(** ** Fixtures

    Stand-ins for the library code and the model, and a small table, on
    which the operations above can be run. *)

Module Fixture.

(** A pickle of a list of octets: a protocol octet, then the list. *)
Definition pickle_dumps (v : list Z) : outcome bytes := Return (128 :: v).
Definition pickle_loads (b : bytes) : outcome (list Z) :=
  match b with
  | 128 :: v => Return v
  | _ => Raise PickleError
  end.

(** Result lists that are ASCII strings already. *)
Definition results_dumps (r : pystr) : outcome pystr := Return r.
Definition results_loads (s : pystr) : outcome pystr := Return s.
Definition bytes_decode (b : bytes) : outcome pystr :=
  if ascii_str b then Return b else Raise UnicodeDecodeError.

(** A standard output in UTF-8: it takes every text but those holding
    a surrogate. *)
Definition py_print (s : pystr) : outcome unit :=
  if encodable s then Return tt else Raise UnicodeEncodeError.

(** A standard output in ASCII. *)
Definition ascii_print (s : pystr) : outcome unit :=
  if ascii_str s then Return tt else Raise UnicodeEncodeError.

Definition manager : VectorCacheManager := mk_manager (Some RedisClient).

Definition empty_server : redis_server := mk_redis true 0 ∅.

(** A server holding one search entry and one embedding entry. *)
Definition server : redis_server :=
  mk_redis true 100
    (<[lit "search:0123" := ([91; 93], 700)]>
       (<[lit "embedding:4567" := ([128; 7], 3700)]> ∅)).

(** The server after [set_search_results("x", [1, 2])] at time 0 on an
    empty store, the result list held as its JSON text. *)
Definition cached_server : redis_server :=
  mk_redis true 0
    (<[lit "search:ae1afad21366e0d611b06fe713e081a2"
       := (lit "[1, 2]", 600)]> ∅).

(** The same store while it cannot be reached, and once it is back. *)
Definition cached_server_down : redis_server :=
  mk_redis false 1 (redis_db cached_server).
Definition cached_server_back : redis_server :=
  mk_redis true 2 (redis_db cached_server).


(** [{"a": 1, "b": 2}] and [{"b": 2, "a": 1}] *)
Definition filters_ab : pydict := [(lit "a", JInt 1); (lit "b", JInt 2)].
Definition filters_ba : pydict := [(lit "b", JInt 2); (lit "a", JInt 1)].

(** Rational numbers as the numbers of the store. *)
#[global] Instance Qle_dec : RelDecision Qle :=
  fun x y => decide (Qnum x * QDen y <= Qnum y * QDen x)%Z.

Definition one_minus (d : Q) : Q := Qminus 1 d.

Fixpoint distance (e q : list Q) : Q :=
  match e, q with
  | x :: e', y :: q' => Qplus (Qabs (Qminus x y)) (distance e' q')
  | _, _ => 0%Q
  end.

(** A model with one dimension: the length of the text. *)
Definition model_encode (text : pystr) : outcome (list Q) :=
  if encodable text then Return [inject_Z (Z.of_nat (length text))]
  else Raise ModelError.

Definition row (id : Z) (title : string) (embedding : option (list Q))
  : task :=
  mk_task id (Some (lit title)) None (Some (lit "pending")) embedding.

(** Five tasks at distances 0.9, 0.1, 0.6, 0.2, 0.4 of the query
    "shopping" (whose embedding is [8]), and one without embedding. *)
Definition tasks : list task :=
  [row 1 "Pay rent" (Some [(89 # 10)%Q]);
   row 2 "Buy groceries" (Some [(81 # 10)%Q]);
   row 3 "Call the bank" (Some [(86 # 10)%Q]);
   row 4 "Order shoes" (Some [(82 # 10)%Q]);
   row 5 "Book a flight" (Some [(84 # 10)%Q]);
   row 6 "Write report" None].

Definition db (script : list bool) : database := mk_db tasks Idle script.

(** A task without embedding whose title the model cannot read (a lone
    surrogate), and the table with it. *)
Definition unreadable : @task Q :=
  mk_task 7 (Some [0xD800]) None (Some (lit "pending")) None.

Definition db_with_unreadable : @database Q :=
  mk_db (tasks ++ [unreadable]) Idle [].

End Fixture.

(** * Facts *)

(** ** Sanity checks of the library models *)

(** RFC 1321 test suite. *)
Example md5_empty :
  MD5.hexdigest [] = lit "d41d8cd98f00b204e9800998ecf8427e".
Proof. vm_compute. reflexivity. Qed.

Example md5_a :
  obind (str_encode (lit "a")) (fun b => Return (MD5.hexdigest b))
  = Return (lit "0cc175b9c0f1b6a831c399e269772661").
Proof. vm_compute. reflexivity. Qed.

Example md5_abc :
  obind (str_encode (lit "abc")) (fun b => Return (MD5.hexdigest b))
  = Return (lit "900150983cd24fb0d6963f7d28e17f72").
Proof. vm_compute. reflexivity. Qed.

Example md5_message_digest :
  obind (str_encode (lit "message digest"))
        (fun b => Return (MD5.hexdigest b))
  = Return (lit "f96b697d7cb7938d525a2f31aaf161d0").
Proof. vm_compute. reflexivity. Qed.

Example md5_two_blocks :
  obind (str_encode (lit
    "12345678901234567890123456789012345678901234567890123456789012345678901234567890"))
        (fun b => Return (MD5.hexdigest b))
  = Return (lit "57edf4a22be3c955ac49da2e2107b67a").
Proof. vm_compute. reflexivity. Qed.

(** UTF-8 on one, two, three and four octets. *)
Example str_encode_utf8 :
  str_encode [0x41; 0xE9; 0x20AC; 0x1F600]
  = Return [0x41; 0xC3; 0xA9; 0xE2; 0x82; 0xAC; 0xF0; 0x9F; 0x98; 0x80].
Proof. reflexivity. Qed.

Example glob_search_pattern :
  glob_match (lit "search:*") (lit "search:0123") = true
  /\ glob_match (lit "search:*") (lit "search:") = true
  /\ glob_match (lit "search:*") (lit "embedding:0123") = false
  /\ glob_match (lit "search:*") (lit "searc") = false.
Proof. repeat split. Qed.

Example json_dumps_sorted :
  json_dumps true
    (JDict [(lit "query", JStr (lit "x"));
            (lit "filters", JDict [(lit "b", JInt 2); (lit "a", JInt 1)])])
  = [123] ++ quote ++ lit "filters" ++ quote ++ lit ": {"
      ++ quote ++ lit "a" ++ quote ++ lit ": 1, "
      ++ quote ++ lit "b" ++ quote ++ lit ": 2}, "
      ++ quote ++ lit "query" ++ quote ++ lit ": "
      ++ quote ++ lit "x" ++ quote ++ lit "}".
Proof. vm_compute. reflexivity. Qed.

Example json_dumps_escapes :
  json_dumps false (JList [JStr [0xe9; 10; 0x1F600; 0xD800]; JInt (-120); JNull])
  = lit "[" ++ quote
      ++ [92] ++ lit "u00e9" ++ [92] ++ lit "n"
      ++ [92] ++ lit "ud83d" ++ [92] ++ lit "ude00" ++ [92] ++ lit "ud800"
      ++ quote ++ lit ", -120, null]".
Proof. vm_compute. reflexivity. Qed.

(** ** Strings and their encoding *)

Lemma utf8_char_scalar c :
  is_scalar c = true -> exists b, utf8_char c = Return b /\ b <> [].
Proof.
  intros Hc. unfold utf8_char. rewrite Hc. simpl.
  repeat match goal with
         | |- context [if ?t then _ else _] => destruct t
         end; eexists; (split; [reflexivity | discriminate]).
Qed.

Lemma utf8_char_surrogate c :
  is_scalar c = false -> utf8_char c = Raise UnicodeEncodeError.
Proof. intros Hc. unfold utf8_char. now rewrite Hc. Qed.

Lemma utf8_char_ascii c : is_ascii c = true -> utf8_char c = Return [c].
Proof.
  unfold is_ascii, utf8_char, is_scalar. intros H.
  apply andb_prop in H as [H0 H1].
  apply Z.leb_le in H0. apply Z.ltb_lt in H1.
  replace (0 <=? c) with true by (symmetry; apply Z.leb_le; lia).
  replace (c <? 55296) with true by (symmetry; apply Z.ltb_lt; lia).
  replace (c <? 128) with true by (symmetry; apply Z.ltb_lt; lia).
  reflexivity.
Qed.

(** Encoding succeeds exactly on the strings without surrogates. *)
Lemma str_encode_encodable s :
  encodable s = true -> exists b, str_encode s = Return b.
Proof.
  induction s as [|c s IH]; simpl; intros H.
  - now exists [].
  - apply andb_prop in H as [Hc Hs].
    destruct (utf8_char_scalar c Hc) as (b & -> & _).
    destruct (IH Hs) as (bs & ->). simpl. now eexists.
Qed.

Lemma str_encode_not_encodable s :
  encodable s = false -> str_encode s = Raise UnicodeEncodeError.
Proof.
  induction s as [|c s IH]; simpl; intros H; [discriminate|].
  destruct (is_scalar c) eqn:Hc; simpl in H.
  - destruct (utf8_char_scalar c Hc) as (b & -> & _). simpl.
    now rewrite (IH H).
  - now rewrite (utf8_char_surrogate c Hc).
Qed.

(** An ASCII string is its own encoding. *)
Lemma str_encode_ascii s : ascii_str s = true -> str_encode s = Return s.
Proof.
  induction s as [|c s IH]; simpl; intros H; [reflexivity|].
  apply andb_prop in H as [Hc Hs].
  rewrite (utf8_char_ascii c Hc). simpl. now rewrite (IH Hs).
Qed.

Lemma ascii_str_app a b :
  ascii_str (a ++ b) = ascii_str a && ascii_str b.
Proof. apply forallb_app. Qed.

Lemma ascii_str_concat l :
  Forall (fun s => ascii_str s = true) l -> ascii_str (concat l) = true.
Proof.
  induction 1 as [|s l Hs _ IH]; simpl; [reflexivity|].
  rewrite ascii_str_app, Hs, IH. reflexivity.
Qed.

(** ** The digest *)

Lemma land_255_byte x : is_byte (Z.land x 0xFF).
Proof.
  unfold is_byte. change 0xFF with (Z.ones 8).
  rewrite Z.land_ones by lia. apply Z.mod_pos_bound. reflexivity.
Qed.

Lemma bytes_of_word_bytes x : Forall is_byte (MD5.bytes_of_word x).
Proof.
  unfold MD5.bytes_of_word.
  repeat (apply List.Forall_cons; [apply land_255_byte|]). apply List.Forall_nil.
Qed.

Lemma digest_length msg : length (MD5.digest msg) = 16%nat.
Proof. unfold MD5.digest. rewrite !length_app. reflexivity. Qed.

Lemma digest_bytes msg : Forall is_byte (MD5.digest msg).
Proof.
  unfold MD5.digest. rewrite !Forall_app.
  repeat split; apply bytes_of_word_bytes.
Qed.

Lemma hex_digit_hex n : 0 <= n < 16 -> is_hex_char (MD5.hex_digit n).
Proof.
  intros Hn. unfold MD5.hex_digit, is_hex_char.
  destruct (n <? 10) eqn:E; [apply Z.ltb_lt in E | apply Z.ltb_ge in E]; lia.
Qed.

Lemma hex_byte_hex b : is_byte b -> Forall is_hex_char (MD5.hex_byte b).
Proof.
  intros Hb. unfold MD5.hex_byte, is_byte in *.
  apply List.Forall_cons; [|apply List.Forall_cons; [|apply List.Forall_nil]];
    apply hex_digit_hex.
  - rewrite Z.shiftr_div_pow2 by lia. change (2 ^ 4) with 16.
    split; [apply Z.div_pos; lia | apply Z.div_lt_upper_bound; lia].
  - change 0xF with (Z.ones 4). rewrite Z.land_ones by lia.
    apply Z.mod_pos_bound. reflexivity.
Qed.

Lemma hexdigest_length msg : length (MD5.hexdigest msg) = 32%nat.
Proof.
  unfold MD5.hexdigest.
  assert (H : forall l : list Z,
             length (concat (map MD5.hex_byte l)) = (2 * length l)%nat).
  { induction l as [|b l IH]; simpl; [reflexivity|]. rewrite IH. lia. }
  rewrite H, digest_length. reflexivity.
Qed.

Lemma hexdigest_hex msg : Forall is_hex_char (MD5.hexdigest msg).
Proof.
  unfold MD5.hexdigest.
  induction (digest_bytes msg) as [|b l Hb _ IH]; [apply List.Forall_nil|].
  change (Forall is_hex_char
            (MD5.hex_byte b ++ concat (map MD5.hex_byte l))).
  apply Forall_app. split; [now apply hex_byte_hex | exact IH].
Qed.

Lemma hex_chars_ascii s : Forall is_hex_char s -> ascii_str s = true.
Proof.
  induction 1 as [|c s Hc _ IH]; simpl; [reflexivity|].
  rewrite IH, andb_true_r. unfold is_ascii, is_hex_char in *.
  apply andb_true_intro. split; [apply Z.leb_le | apply Z.ltb_lt]; lia.
Qed.

(** ** C4: the key deriver *)

(** What [_generate_cache_key] returns when it returns. *)
Lemma cache_key_shape text prefix key :
  _generate_cache_key text prefix = Return key ->
  exists data, str_encode text = Return data
               /\ key = prefix ++ lit ":" ++ MD5.hexdigest data.
Proof.
  unfold _generate_cache_key. destruct (str_encode text) as [data|e]; simpl.
  - intros [= <-]. now exists data.
  - discriminate.
Qed.

Lemma cache_key_returns_on_encodable text prefix :
  encodable text = true ->
  exists key, _generate_cache_key text prefix = Return key.
Proof.
  intros Henc. destruct (str_encode_encodable text Henc) as [data Hdata].
  unfold _generate_cache_key. rewrite Hdata. now eexists.
Qed.

(** C4, as stated, fails: the text made of the single code point U+D800
    (a lone surrogate, a [str] Python accepts) makes [text.encode()]
    raise, and [_generate_cache_key] with it. *)
Lemma cache_key_raises_on_lone_surrogate :
  wf_str [0xD800]
  /\ _generate_cache_key [0xD800] (lit "embedding") = Raise UnicodeEncodeError.
Proof.
  split; [| reflexivity].
  apply List.Forall_cons; [unfold is_codepoint; lia | apply List.Forall_nil].
Qed.

(** C4, amended: on every text UTF-8 can encode (no surrogate code
    point) and every kind, the key deriver returns, the same key each
    time, and that key is the kind, a colon and the 32 lowercase hex
    digits of the 16-octet (128-bit) MD5 digest of the encoded text. *)
Theorem cache_key_on_encodable_text (text kind : pystr) :
  encodable text = true ->
  exists data,
    str_encode text = Return data
    /\ _generate_cache_key text kind
       = Return (kind ++ lit ":" ++ MD5.hexdigest data)
    /\ (forall key key',
          _generate_cache_key text kind = Return key ->
          _generate_cache_key text kind = Return key' -> key = key')
    /\ length (MD5.digest data) = 16%nat
    /\ Forall is_byte (MD5.digest data)
    /\ length (MD5.hexdigest data) = 32%nat
    /\ Forall is_hex_char (MD5.hexdigest data).
Proof.
  intros Henc. destruct (str_encode_encodable text Henc) as [data Hdata].
  exists data. unfold _generate_cache_key. rewrite Hdata. cbn [obind].
  split; [reflexivity|]. split; [reflexivity|].
  split; [intros key key' [= <-] [= <-]; reflexivity|].
  split; [apply digest_length|]. split; [apply digest_bytes|].
  split; [apply hexdigest_length | apply hexdigest_hex].
Qed.

Lemma cache_key_on_encodable_text_witness :
  encodable (lit "shopping") = true
  /\ exists data,
       str_encode (lit "shopping") = Return data
       /\ _generate_cache_key (lit "shopping") (lit "embedding")
          = Return (lit "embedding" ++ lit ":" ++ MD5.hexdigest data)
       /\ (forall key key',
             _generate_cache_key (lit "shopping") (lit "embedding") = Return key ->
             _generate_cache_key (lit "shopping") (lit "embedding") = Return key' ->
             key = key')
       /\ length (MD5.digest data) = 16%nat
       /\ Forall is_byte (MD5.digest data)
       /\ length (MD5.hexdigest data) = 32%nat
       /\ Forall is_hex_char (MD5.hexdigest data).
Proof.
  split; [reflexivity |].
  apply (cache_key_on_encodable_text (lit "shopping") (lit "embedding")).
  reflexivity.
Defined.

(** ** The order on strings and on items *)

Lemma pystr_leb_total a b : pystr_leb a b = true \/ pystr_leb b a = true.
Proof.
  revert b. induction a as [|x a IH]; intros [|y b]; simpl; auto.
  destruct (x <? y) eqn:Hxy; [now left|].
  destruct (y <? x) eqn:Hyx; [now right|]. apply IH.
Qed.

Lemma pystr_leb_trans a b c :
  pystr_leb a b = true -> pystr_leb b c = true -> pystr_leb a c = true.
Proof.
  revert b c. induction a as [|x a IH]; intros [|y b] [|z c]; simpl;
    try congruence.
  destruct (x <? y) eqn:Hxy, (y <? x) eqn:Hyx,
           (y <? z) eqn:Hyz, (z <? y) eqn:Hzy,
           (x <? z) eqn:Hxz, (z <? x) eqn:Hzx;
    try congruence; try (intros _ _; reflexivity);
    try (apply Z.ltb_lt in Hxy); try (apply Z.ltb_lt in Hyz);
    try (apply Z.ltb_lt in Hzx); try (apply Z.ltb_ge in Hxy);
    try (apply Z.ltb_ge in Hyx); try (apply Z.ltb_ge in Hyz);
    try (apply Z.ltb_ge in Hzy); try (apply Z.ltb_ge in Hxz);
    try (apply Z.ltb_ge in Hzx); try lia.
  apply IH.
Qed.

Lemma pystr_leb_antisym a b :
  pystr_leb a b = true -> pystr_leb b a = true -> a = b.
Proof.
  revert b. induction a as [|x a IH]; intros [|y b]; simpl;
    try congruence.
  destruct (x <? y) eqn:Hxy, (y <? x) eqn:Hyx; try congruence.
  - apply Z.ltb_lt in Hxy, Hyx. lia.
  - apply Z.ltb_ge in Hxy, Hyx. intros H1 H2.
    f_equal; [lia | now apply IH].
Qed.

#[global] Instance item_le_total {V} : Total (@item_le V).
Proof. intros a b. apply pystr_leb_total. Qed.

#[global] Instance item_le_trans {V} : Transitive (@item_le V).
Proof. intros a b c. apply pystr_leb_trans. Qed.

(** In a list with distinct keys an item is known by its key. *)
Lemma known_by_key {A K} (f : A -> K) (l : list A) x y :
  NoDup (map f l) -> x ∈ l -> y ∈ l -> f x = f y -> x = y.
Proof.
  induction l as [|a l IH]; simpl; intros Hnd Hx Hy Hk.
  - inversion Hx.
  - apply NoDup_cons in Hnd as [Ha Hnd].
    apply elem_of_cons in Hx as [->|Hx], Hy as [->|Hy]; auto.
    + exfalso. apply Ha. rewrite Hk. apply list_elem_of_fmap. now exists y.
    + exfalso. apply Ha. rewrite <- Hk. apply list_elem_of_fmap. now exists x.
Qed.

Lemma item_by_key {V} (l : list (pystr * V)) x y :
  NoDup (map fst l) -> x ∈ l -> y ∈ l -> fst x = fst y -> x = y.
Proof. apply known_by_key. Qed.

(** Sorting by key forgets the order of enumeration. *)
Lemma sort_items_permutation {V} (l1 l2 : list (pystr * V)) :
  NoDup (map fst l1) -> Permutation l1 l2 ->
  merge_sort item_le l1 = merge_sort item_le l2.
Proof.
  intros Hnd Hp.
  apply (StronglySorted_unique_strong item_le).
  - intros x1 x2 H1 H2 H12 H21.
    apply (item_by_key l1); auto.
    + now rewrite <- (merge_sort_Permutation item_le l1).
    + rewrite Hp. now rewrite <- (merge_sort_Permutation item_le l2).
    + now apply pystr_leb_antisym.
  - apply StronglySorted_merge_sort; apply _.
  - apply StronglySorted_merge_sort; apply _.
  - now rewrite !merge_sort_Permutation.
Qed.

(** ** json.dumps *)

(** Induction on a value, with the hypothesis for every element of a
    list and every value of a dict. *)
Lemma json_nested_ind (P : json -> Prop) :
  P JNull -> (forall b, P (JBool b)) -> (forall n, P (JInt n)) ->
  (forall s, P (JStr s)) ->
  (forall l, Forall P l -> P (JList l)) ->
  (forall d, Forall (fun kv => P (snd kv)) d -> P (JDict d)) ->
  forall j, P j.
Proof.
  intros HN HB HI HS HL HD. fix IH 1. intros [ | b | n | s | l | d].
  - exact HN.
  - apply HB.
  - apply HI.
  - apply HS.
  - apply HL. induction l as [|x l IHl];
      [apply List.Forall_nil | apply List.Forall_cons; [apply IH | exact IHl]].
  - apply HD. induction d as [|[k v] d IHd];
      [apply List.Forall_nil | apply List.Forall_cons; [apply IH | exact IHd]].
Qed.

Lemma same_mapping_refl j : same_mapping j j.
Proof.
  induction j as [ | b | n | s | l IH | d IH] using json_nested_ind;
    try constructor.
  - induction IH; constructor; auto.
  - apply (same_dict d d d); [reflexivity|].
    induction IH; constructor; auto.
Qed.

(** Enumerating the same items in another order gives the same mapping. *)
Lemma same_mapping_permutation (d1 d2 : pydict) :
  Permutation d1 d2 -> same_mapping (JDict d1) (JDict d2).
Proof.
  intros Hp. apply (same_dict d1 d2 d2); [exact Hp|]. clear Hp.
  induction d2 as [|kv d2 IH]; constructor; auto using same_mapping_refl.
Qed.

Lemma digits_ascii u : ascii_str (digits u) = true.
Proof. induction u; simpl; auto. Qed.

Lemma str_of_int_ascii n : ascii_str (str_of_int n) = true.
Proof.
  unfold str_of_int. destruct (Z.to_int n); simpl; apply digits_ascii.
Qed.

Lemma hex4_ascii n : ascii_str (hex4 n) = true.
Proof.
  apply hex_chars_ascii. unfold hex4.
  repeat (apply List.Forall_cons;
          [apply hex_digit_hex; change 0xF with (Z.ones 4);
           rewrite Z.land_ones by lia; apply Z.mod_pos_bound; reflexivity|]).
  apply List.Forall_nil.
Qed.

Lemma printable_ascii c :
  (32 <=? c) && (c <=? 126) = true -> ascii_str [c] = true.
Proof.
  intros H. apply andb_prop in H as [H1 H2]. apply Z.leb_le in H1, H2.
  cbn [ascii_str forallb]. rewrite andb_true_r. unfold is_ascii.
  apply andb_true_intro. split; [apply Z.leb_le | apply Z.ltb_lt]; lia.
Qed.

Lemma escape_char_ascii c : ascii_str (escape_char c) = true.
Proof.
  unfold escape_char.
  destruct (c =? 34); [reflexivity|]. destruct (c =? 92); [reflexivity|].
  destruct (c =? 10); [reflexivity|]. destruct (c =? 13); [reflexivity|].
  destruct (c =? 9); [reflexivity|]. destruct (c =? 12); [reflexivity|].
  destruct (c =? 8); [reflexivity|].
  destruct ((32 <=? c) && (c <=? 126)) eqn:Hp; [now apply printable_ascii|].
  destruct (c <? 0x10000).
  - rewrite ascii_str_app, hex4_ascii. reflexivity.
  - rewrite !ascii_str_app, !hex4_ascii. reflexivity.
Qed.

Lemma encode_basestring_ascii_ascii s :
  ascii_str (encode_basestring_ascii s) = true.
Proof.
  unfold encode_basestring_ascii. rewrite !ascii_str_app.
  rewrite ascii_str_concat; [reflexivity|].
  apply Forall_forall. intros x Hx.
  apply list_elem_of_In, in_map_iff in Hx as (c & <- & _).
  apply escape_char_ascii.
Qed.

Lemma join_ascii sep parts :
  ascii_str sep = true -> Forall (fun p => ascii_str p = true) parts ->
  ascii_str (join sep parts) = true.
Proof.
  intros Hsep. induction 1 as [|p ps Hp Hps IH]; [reflexivity|].
  destruct ps as [|q ps]; [exact Hp|].
  change (ascii_str (p ++ sep ++ join sep (q :: ps)) = true).
  now rewrite !ascii_str_app, Hp, Hsep, IH.
Qed.

(** With [ensure_ascii] the output of [json.dumps] is pure ASCII. *)
Lemma json_dumps_ascii sort_keys j : ascii_str (json_dumps sort_keys j) = true.
Proof.
  induction j as [ | [|] | n | s | l IH | d IH] using json_nested_ind;
    try reflexivity.
  - apply str_of_int_ascii.
  - apply encode_basestring_ascii_ascii.
  - cbn [json_dumps]. rewrite !ascii_str_app.
    rewrite join_ascii; [reflexivity | reflexivity |].
    apply Forall_forall. intros x Hx.
    apply list_elem_of_In, in_map_iff in Hx as (y & <- & Hy).
    rewrite Forall_forall in IH. apply IH. now apply list_elem_of_In.
  - cbn [json_dumps]. rewrite !ascii_str_app.
    rewrite join_ascii; [reflexivity | reflexivity |].
    assert (Hr : Forall (fun kv : pystr * pystr => ascii_str (snd kv) = true)
                   (map (fun kv => (fst kv, json_dumps sort_keys (snd kv))) d)).
    { apply Forall_forall. intros x Hx.
      apply list_elem_of_In, in_map_iff in Hx as (y & <- & Hy).
      rewrite Forall_forall in IH. apply IH. now apply list_elem_of_In. }
    assert (Hs : Forall (fun kv : pystr * pystr => ascii_str (snd kv) = true)
                   (if sort_keys
                    then merge_sort item_le
                           (map (fun kv => (fst kv, json_dumps sort_keys (snd kv))) d)
                    else map (fun kv => (fst kv, json_dumps sort_keys (snd kv))) d)).
    { destruct sort_keys; [|exact Hr].
      now rewrite merge_sort_Permutation. }
    apply Forall_forall. intros x Hx.
    apply list_elem_of_In, in_map_iff in Hx as (y & <- & Hy).
    rewrite !ascii_str_app, encode_basestring_ascii_ascii.
    rewrite Forall_forall in Hs. rewrite (Hs y) by now apply list_elem_of_In.
    reflexivity.
Qed.

Lemma render_keys sort_keys (d : pydict) :
  map fst (map (fun kv => (fst kv, json_dumps sort_keys (snd kv))) d)
  = dict_keys d.
Proof. unfold dict_keys. rewrite map_map. reflexivity. Qed.

Lemma map_dumps_same l1 l2 :
  Forall dumps_respects l1 -> Forall wf_json l1 ->
  Forall2 same_mapping l1 l2 ->
  map (json_dumps true) l1 = map (json_dumps true) l2.
Proof.
  intros HIH Hwf Hsame. revert HIH Hwf.
  induction Hsame as [|x y l1 l2 Hxy _ IH]; intros HIH Hwf; [reflexivity|].
  inversion HIH; subst. inversion Hwf; subst.
  cbn [map]. f_equal; auto.
Qed.

Lemma render_same (d d2 : pydict) :
  Forall (fun kv => dumps_respects (snd kv)) d ->
  Forall (fun kv => wf_json (snd kv)) d ->
  Forall2 (fun a b => fst a = fst b /\ same_mapping (snd a) (snd b)) d d2 ->
  map (fun kv => (fst kv, json_dumps true (snd kv))) d
  = map (fun kv => (fst kv, json_dumps true (snd kv))) d2.
Proof.
  intros HIH Hwf Hsame. revert HIH Hwf.
  induction Hsame as [|x y l1 l2 [Hk Hv] _ IH]; intros HIH Hwf;
    [reflexivity|].
  inversion HIH; subst. inversion Hwf; subst.
  cbn [map]. f_equal; [f_equal; auto | auto].
Qed.

(** With [sort_keys=True], [json.dumps] renders the same mapping the
    same way, whatever the order of enumeration at any depth. *)
Lemma json_dumps_same_mapping j1 : dumps_respects j1.
Proof.
  unfold dumps_respects.
  induction j1 as [ | b | n | s | l1 IH | d1 IH] using json_nested_ind;
    intros j2 Hwf Hsame; inversion Hsame; subst; try reflexivity.
  - (* lists *)
    inversion Hwf; subst.
    cbn [json_dumps]. now rewrite (map_dumps_same l1 l2).
  - (* dicts *)
    inversion Hwf as [ | | | | | d' Hnd Hwfd ]; subst.
    cbn [json_dumps].
    enough (Hitems :
      merge_sort item_le
        (map (fun kv => (fst kv, json_dumps true (snd kv))) d1)
      = merge_sort item_le
          (map (fun kv => (fst kv, json_dumps true (snd kv))) d2))
      by now rewrite Hitems.
    transitivity
      (merge_sort item_le
         (map (fun kv => (fst kv, json_dumps true (snd kv))) d)).
    + apply sort_items_permutation.
      * now rewrite render_keys.
      * now apply Permutation_map.
    + f_equal. apply render_same; auto.
      * rewrite Forall_forall in IH |- *. intros x Hx j2. apply (IH x).
        match goal with H : Permutation d1 d |- _ => now rewrite H end.
      * rewrite Forall_forall in Hwfd |- *. intros x Hx. apply (Hwfd x).
        match goal with H : Permutation d1 d |- _ => now rewrite H end.
Qed.

(** ** The search-cache key *)

Lemma filters_or_empty_some (f : pydict) : filters_or_empty (Some f) = f.
Proof. now destruct f. Qed.

(** The search-cache key is always derived: [json.dumps] escapes
    whatever UTF-8 could not encode. *)
Lemma search_cache_key_returns query filters :
  search_cache_key query filters
  = Return (lit "search" ++ lit ":"
            ++ MD5.hexdigest (search_cache_str query filters)).
Proof.
  unfold search_cache_key, _generate_cache_key, search_cache_str.
  rewrite str_encode_ascii by apply json_dumps_ascii. reflexivity.
Qed.

Lemma search_cache_str_same_mapping query (f1 f2 : pydict) :
  wf_json (JDict f1) -> same_mapping (JDict f1) (JDict f2) ->
  search_cache_str query (Some f1) = search_cache_str query (Some f2).
Proof.
  intros Hwf Hsame. unfold search_cache_str.
  rewrite !filters_or_empty_some.
  apply json_dumps_same_mapping.
  - apply wf_dict.
    + unfold dict_keys. simpl.
      apply NoDup_cons. split.
      * intros H. apply list_elem_of_singleton in H. discriminate.
      * apply NoDup_singleton.
    + repeat (apply List.Forall_cons); try apply List.Forall_nil;
        [apply wf_str_ | exact Hwf].
  - eapply same_dict; [reflexivity|].
    repeat (apply List.Forall2_cons); try apply List.Forall2_nil;
      (split; [reflexivity|]); [apply same_str | exact Hsame].
Qed.

(** ** Redis *)

Lemma glob_match_star s : glob_match [42] s = true.
Proof. induction s as [|x s IH]; [reflexivity | exact IH]. Qed.

(** A literal prefix followed by [*] matches the keys with that prefix. *)
Lemma glob_match_prefix pre s :
  Forall (fun c => c <> 42 /\ c <> 63) pre ->
  glob_match (pre ++ [42]) s = has_prefix pre s.
Proof.
  intros Hpre. revert s.
  induction Hpre as [|c pre [H42 H63] _ IH]; intros s.
  - apply glob_match_star.
  - cbn [app glob_match has_prefix].
    apply Z.eqb_neq in H42, H63. rewrite H42.
    destruct s as [|x s]; [reflexivity|].
    rewrite H63, IH. reflexivity.
Qed.

Lemma search_pattern k :
  glob_match (lit "search:*") k = has_prefix (lit "search:") k.
Proof.
  apply (glob_match_prefix (lit "search:")).
  repeat (apply List.Forall_cons; [split; discriminate|]).
  apply List.Forall_nil.
Qed.

Lemma has_prefix_app pre s : has_prefix pre (pre ++ s) = true.
Proof.
  induction pre as [|c pre IH]; [reflexivity|].
  cbn [app has_prefix]. now rewrite Z.eqb_refl, IH.
Qed.

Lemma redis_get_up key srv :
  redis_up srv = true -> ascii_str key = true ->
  Redis.get key srv = (Return (lookup_live srv key), srv).
Proof.
  intros Hup Hkey. unfold Redis.get, Redis.connected, bind, lift, lookup_live.
  rewrite Hup, (str_encode_ascii key Hkey).
  destruct (redis_db srv !! key) as [e|]; [|reflexivity].
  now destruct (live (redis_now srv) e).
Qed.

Lemma redis_setex_up key ttl value srv :
  redis_up srv = true -> ascii_str key = true -> 0 < ttl ->
  Redis.setex key ttl value srv
  = (Return true,
     mk_redis true (redis_now srv)
              (<[key := (value, redis_now srv + ttl)]> (redis_db srv))).
Proof.
  intros Hup Hkey Httl. unfold Redis.setex, Redis.connected, bind, lift.
  rewrite Hup, (str_encode_ascii key Hkey).
  replace (ttl <=? 0) with false by (symmetry; apply Z.leb_gt; lia).
  cbn. now rewrite Hup.
Qed.

(** The keys [KEYS "search:*"] answers on a given server. *)
Lemma redis_keys_search_up srv :
  redis_up srv = true ->
  exists ks,
    Redis.keys (lit "search:*") srv = (Return ks, srv)
    /\ forall k, k ∈ ks <->
                 is_Some (lookup_live srv k)
                 /\ has_prefix (lit "search:") k = true.
Proof.
  intros Hup. unfold Redis.keys, Redis.connected, bind, lift.
  rewrite Hup. rewrite (str_encode_ascii (lit "search:*")) by reflexivity.
  eexists. split; [reflexivity|].
  intros k. rewrite list_elem_of_fmap. split.
  - intros ([k' e] & -> & Hin). apply list_elem_of_filter in Hin as [[Hl Hg] Hin].
    apply elem_of_map_to_list in Hin. cbn [fst snd] in *.
    rewrite search_pattern in Hg. split; [|exact Hg].
    unfold lookup_live. rewrite Hin, Hl. now eexists.
  - intros [[v Hv] Hp]. unfold lookup_live in Hv.
    destruct (redis_db srv !! k) as [e|] eqn:He; [|discriminate].
    destruct (live (redis_now srv) e) eqn:Hl; [|discriminate].
    exists (k, e). split; [reflexivity|].
    apply list_elem_of_filter. split.
    + cbn [fst snd]. now rewrite search_pattern.
    + now apply elem_of_map_to_list.
Qed.

Lemma lookup_foldr_delete (ks : list (list Z)) (m : gmap (list Z) (list Z * Z)) k :
  foldr (fun k m => base.delete k m) m ks !! k
  = if decide (k ∈ ks) then None else m !! k.
Proof.
  induction ks as [|k' ks IH]; cbn [foldr].
  - rewrite decide_False by apply not_elem_of_nil. reflexivity.
  - destruct (decide (k = k')) as [->|Hne].
    + rewrite lookup_delete_eq.
      rewrite decide_True by apply list_elem_of_here. reflexivity.
    + rewrite lookup_delete_ne by congruence. rewrite IH.
      destruct (decide (k ∈ ks)) as [Hin|Hnin].
      * rewrite decide_True by now apply list_elem_of_further. reflexivity.
      * rewrite decide_False; [reflexivity|].
        intros Hin. apply elem_of_cons in Hin as [?|?]; congruence.
Qed.

Lemma embedding_prefix_not_search k :
  has_prefix (lit "embedding:") k = true ->
  has_prefix (lit "search:") k = false.
Proof.
  destruct k as [|x k]; [discriminate|]. cbn [lit has_prefix].
  intros H. apply andb_prop in H as [Hx _]. apply Z.eqb_eq in Hx. subst x.
  reflexivity.
Qed.

(** Keys are ASCII, so the client sends them as they are. *)
Lemma cache_key_ascii text prefix key :
  ascii_str prefix = true ->
  _generate_cache_key text prefix = Return key -> ascii_str key = true.
Proof.
  intros Hp Hkey. apply cache_key_shape in Hkey as (data & _ & ->).
  rewrite !ascii_str_app, Hp. cbn [andb].
  apply hex_chars_ascii, hexdigest_hex.
Qed.

Lemma embedding_key_prefix text key :
  _generate_cache_key text (lit "embedding") = Return key ->
  has_prefix (lit "embedding:") key = true
  /\ has_prefix (lit "search:") key = false.
Proof.
  intros Hkey. apply cache_key_shape in Hkey as (data & _ & ->).
  split; reflexivity.
Qed.

Lemma search_key_prefix text key :
  _generate_cache_key text (lit "search") = Return key ->
  has_prefix (lit "search:") key = true.
Proof.
  intros Hkey. apply cache_key_shape in Hkey as (data & _ & ->).
  reflexivity.
Qed.

(** ** cache_manager.py *)

Section CacheFacts.

Context {ndarray results : Type}.
Variable pickle_dumps : ndarray -> outcome bytes.
Variable pickle_loads : bytes -> outcome ndarray.
Variable results_dumps : results -> outcome pystr.
Variable results_loads : pystr -> outcome results.
Variable bytes_decode : bytes -> outcome pystr.
Variable py_print : pystr -> outcome unit.

Local Notation get_embedding' := (get_embedding pickle_loads py_print).
Local Notation set_embedding' := (set_embedding pickle_dumps).
Local Notation get_search_results' :=
  (get_search_results results_loads bytes_decode py_print).
Local Notation set_search_results' := (set_search_results results_dumps).
Local Notation run_call' :=
  (run_call pickle_dumps pickle_loads results_dumps results_loads bytes_decode
            py_print).
Local Notation run_life' :=
  (run_life pickle_dumps pickle_loads results_dumps results_loads bytes_decode
            py_print).

(** C5: the search-cache key does not depend on the order in which the
    filter mapping enumerates its items.  For every query and every two
    filter mappings that are the same mapping (distinct keys, same items,
    any order of enumeration, at any depth), [get_search_results] and
    [set_search_results] derive one and the same key, and so behave
    alike. *)
Theorem search_key_ignores_filter_order
    (self : VectorCacheManager) (query : pystr) (f1 f2 : pydict)
    (res : results) (ttl : Z) :
  wf_json (JDict f1) -> same_mapping (JDict f1) (JDict f2) ->
  (exists key, search_cache_key query (Some f1) = Return key
               /\ search_cache_key query (Some f2) = Return key)
  /\ get_search_results' self query (Some f1)
     = get_search_results' self query (Some f2)
  /\ set_search_results' self query res (Some f1) ttl
     = set_search_results' self query res (Some f2) ttl.
Proof.
  intros Hwf Hsame.
  assert (Hkey : search_cache_key query (Some f1)
                 = search_cache_key query (Some f2)).
  { rewrite !search_cache_key_returns.
    now rewrite (search_cache_str_same_mapping query f1 f2). }
  split; [|split].
  - eexists. split; [apply search_cache_key_returns|].
    rewrite <- Hkey. apply search_cache_key_returns.
  - unfold get_search_results. now rewrite Hkey.
  - unfold set_search_results. now rewrite Hkey.
Qed.

(** A manager without client answers "absent" and leaves the server
    alone, whatever the state of the server. *)
Lemma degraded_call (self : VectorCacheManager) c srv :
  redis_client self = None ->
  run_call' self c srv = (Return (absent c), srv).
Proof.
  intros Hnone.
  destruct c; unfold run_call, get_embedding,
    set_embedding, get_search_results,
    set_search_results, invalidate_search_cache;
    rewrite Hnone; reflexivity.
Qed.

Lemma degraded_life (self : VectorCacheManager) life :
  redis_client self = None ->
  forall srv,
    run_life' self life srv
    = (map (fun c => Return (absent c)) (calls_of life),
       environment_only life srv).
Proof.
  intros Hnone. induction life as [|[c|srv'] life IH]; intros srv.
  - reflexivity.
  - cbn [run_life calls_of environment_only map].
    rewrite (degraded_call self c srv Hnone), IH. reflexivity.
  - cbn [run_life calls_of environment_only]. apply IH.
Qed.

(** C2: a manager constructed while the cache store is unreachable has
    no client, and through its whole life (any calls, interleaved with
    anything the environment does to the server, including the store
    coming back) every call answers "absent" without raising and leaves
    the server as it was: the final state is the one the environment
    alone would have produced. *)
Theorem unreachable_at_construction_is_permanent_noop
    (srv0 : redis_server) :
  redis_up srv0 = false ->
  exists self,
    VectorCacheManager_init srv0 = (Return self, srv0)
    /\ redis_client self = None
    /\ (forall c srv, run_call' self c srv = (Return (absent c), srv))
    /\ (forall life srv,
          run_life' self life srv
          = (map (fun c => Return (absent c)) (calls_of life),
             environment_only life srv)).
Proof.
  intros Hdown. exists (mk_manager None).
  split; [|split; [reflexivity|split]].
  - unfold VectorCacheManager_init, Redis.ping, Redis.connected, bind.
    rewrite Hdown. reflexivity.
  - intros c srv. now apply degraded_call.
  - intros life srv. now apply degraded_life.
Qed.

(** What a lookup in the embedding cache answers on a reachable
    server: the unpickled value under the key, if there is one. *)
Lemma get_embedding_up (self : VectorCacheManager) text srv h :
  redis_client self = Some h -> redis_up srv = true ->
  get_embedding' self text srv
  = (Return
       match _generate_cache_key text (lit "embedding") with
       | Return key =>
           match lookup_live srv key with
           | Some c =>
               if truthy c then
                 match pickle_loads c with
                 | Return e =>
                     match py_print (embedding_hit_message text) with
                     | Return _ => Some e
                     | Raise _ => None
                     end
                 | Raise _ => None
                 end
               else None
           | None => None
           end
       | Raise _ => None
       end, srv).
Proof.
  intros Hc Hup. unfold get_embedding. rewrite Hc.
  unfold try_except, bind at 1, lift.
  destruct (_generate_cache_key text (lit "embedding")) as [key|e] eqn:Hkey;
    [|reflexivity].
  unfold bind. rewrite redis_get_up;
    [| exact Hup | now apply (cache_key_ascii text (lit "embedding"))].
  destruct (lookup_live srv key) as [c|]; [|reflexivity].
  destruct (truthy c); [|reflexivity].
  unfold lift. destruct (pickle_loads c); [|reflexivity].
  now destruct (py_print (embedding_hit_message text)).
Qed.

Lemma get_search_results_up (self : VectorCacheManager) query filters srv h :
  redis_client self = Some h -> redis_up srv = true ->
  get_search_results' self query filters srv
  = (Return
       match search_cache_key query filters with
       | Return key =>
           match lookup_live srv key with
           | Some c =>
               if truthy c then
                 match bytes_decode c with
                 | Return text =>
                     match results_loads text with
                     | Return r =>
                         match py_print (search_hit_message query) with
                         | Return _ => Some r
                         | Raise _ => None
                         end
                     | Raise _ => None
                     end
                 | Raise _ => None
                 end
               else None
           | None => None
           end
       | Raise _ => None
       end, srv).
Proof.
  intros Hc Hup. unfold get_search_results. rewrite Hc.
  unfold try_except, bind at 1, lift.
  destruct (search_cache_key query filters) as [key|e] eqn:Hkey;
    [|reflexivity].
  unfold bind. rewrite redis_get_up;
    [| exact Hup
     | now apply (cache_key_ascii (search_cache_str query filters)
                    (lit "search") key)].
  destruct (lookup_live srv key) as [c|]; [|reflexivity].
  destruct (truthy c); [|reflexivity].
  unfold lift. destruct (bytes_decode c) as [text|]; [|reflexivity].
  destruct (results_loads text); [|reflexivity].
  now destruct (py_print (search_hit_message query)).
Qed.

(** What [invalidate_search_cache] leaves on a reachable server. *)
Lemma invalidate_up (self : VectorCacheManager) srv h :
  redis_client self = Some h -> redis_up srv = true ->
  exists srv',
    invalidate_search_cache self srv = (Return tt, srv')
    /\ redis_up srv' = true
    /\ redis_now srv' = redis_now srv
    /\ forall k,
         redis_db srv' !! k
         = if decide (is_Some (lookup_live srv k)
                      /\ has_prefix (lit "search:") k = true)
           then None else redis_db srv !! k.
Proof.
  intros Hc Hup. unfold invalidate_search_cache. rewrite Hc.
  destruct (redis_keys_search_up srv Hup) as (ks & Hks & Hin).
  unfold try_except, bind at 1. rewrite Hks.
  destruct ks as [|k0 ks]; cbn [truthy].
  - exists srv. unfold ret. repeat split; auto.
    intros k. rewrite decide_False; [reflexivity|].
    intros Hk. apply Hin in Hk. inversion Hk.
  - unfold Redis.delete, Redis.connected, bind, ret. rewrite Hup.
    eexists. split; [reflexivity|]. cbn [redis_up redis_now redis_db].
    repeat split; auto.
    intros k. rewrite lookup_foldr_delete.
    destruct (decide (k ∈ k0 :: ks)) as [Hk|Hk].
    + rewrite decide_True by now apply Hin. reflexivity.
    + rewrite decide_False; [reflexivity|]. intros Hk'. now apply Hk, Hin.
Qed.

(** C6, amended: with a client and on a store that answers the call,
    [invalidate_search_cache] removes exactly
    the keys under ["search:"] and nothing else: afterwards a key under
    that prefix is absent and any other key answers as before; the
    entries under ["embedding:"] are untouched.  So every search lookup
    misses, and every embedding lookup answers what it answered before. *)
Theorem invalidate_clears_search_keeps_embeddings
    (self : VectorCacheManager) (srv : redis_server) :
  redis_client self = Some RedisClient -> redis_up srv = true ->
  exists srv',
    invalidate_search_cache self srv = (Return tt, srv')
    /\ (forall k, lookup_live srv' k
                  = if has_prefix (lit "search:") k then None
                    else lookup_live srv k)
    /\ (forall k, has_prefix (lit "embedding:") k = true ->
                  redis_db srv' !! k = redis_db srv !! k)
    /\ (forall query filters,
          get_search_results' self query filters srv' = (Return None, srv'))
    /\ (forall text,
          get_embedding' self text srv'
          = ((get_embedding' self text srv).1, srv')).
Proof.
  intros Hc Hup.
  destruct (invalidate_up self srv RedisClient Hc Hup)
    as (srv' & Hrun & Hup' & Hnow & Hdb).
  assert (Hview : forall k, lookup_live srv' k
                            = if has_prefix (lit "search:") k then None
                              else lookup_live srv k).
  { intros k. unfold lookup_live at 1. rewrite Hdb, Hnow.
    destruct (has_prefix (lit "search:") k) eqn:Hp.
    - destruct (decide _) as [_|Hn]; [reflexivity|].
      destruct (lookup_live srv k) eqn:Hl.
      + exfalso. apply Hn. split; [now eexists | reflexivity].
      + exact Hl.
    - rewrite decide_False by (intros [_ ?]; discriminate). reflexivity. }
  exists srv'. split; [exact Hrun|]. split; [exact Hview|].
  split; [|split].
  - intros k Hk. rewrite Hdb.
    rewrite decide_False; [reflexivity|].
    intros [_ Hs]. rewrite (embedding_prefix_not_search k Hk) in Hs.
    discriminate.
  - intros query filters.
    rewrite (get_search_results_up self query filters srv' RedisClient Hc Hup').
    destruct (search_cache_key query filters) as [key|] eqn:Hkey;
      [|reflexivity].
    rewrite Hview. unfold search_cache_key in Hkey.
    now rewrite (search_key_prefix _ key Hkey).
  - intros text.
    rewrite (get_embedding_up self text srv' RedisClient Hc Hup').
    rewrite (get_embedding_up self text srv RedisClient Hc Hup).
    cbn [fst].
    destruct (_generate_cache_key text (lit "embedding")) as [key|] eqn:Hkey;
      [|reflexivity].
    rewrite Hview.
    destruct (embedding_key_prefix text key Hkey) as [_ ->]. reflexivity.
Qed.

Lemma set_embedding_up (self : VectorCacheManager) text v ttl srv h key b :
  redis_client self = Some h -> redis_up srv = true -> 0 < ttl ->
  _generate_cache_key text (lit "embedding") = Return key ->
  pickle_dumps v = Return b ->
  set_embedding' self text v ttl srv
  = (Return tt,
     mk_redis true (redis_now srv)
              (<[key := (b, redis_now srv + ttl)]> (redis_db srv))).
Proof.
  intros Hc Hup Httl Hkey Hb. unfold set_embedding. rewrite Hc.
  unfold try_except, bind, lift. rewrite Hkey, Hb.
  rewrite redis_setex_up;
    [reflexivity | exact Hup
     | now apply (cache_key_ascii text (lit "embedding")) | exact Httl].
Qed.

(** C7, amended: for every text that UTF-8 can encode and whose hit
    message the standard output takes, and every vector, when the store
    answers, the TTL is positive and has not elapsed, and the pickled
    entry is still the one written, [get_embedding] after
    [set_embedding] returns the vector ([pickle.loads] undoing
    [pickle.dumps], whose output is never empty). *)
Theorem embedding_round_trip
    (self : VectorCacheManager) (text : pystr) (v : ndarray) (ttl : Z)
    (b : bytes) (srv later : redis_server) :
  redis_client self = Some RedisClient ->
  encodable text = true ->
  py_print (embedding_hit_message text) = Return tt ->
  pickle_dumps v = Return b -> b <> [] -> pickle_loads b = Return v ->
  redis_up srv = true -> 0 < ttl ->
  redis_up later = true ->
  redis_now later < redis_now srv + ttl ->
  redis_db later = redis_db (set_embedding' self text v ttl srv).2 ->
  (set_embedding' self text v ttl srv).1 = Return tt
  /\ get_embedding' self text later = (Return (Some v), later).
Proof.
  intros Hc Henc Hprint Hb Hne Hloads Hup Httl Hup' Hnow Hdb.
  destruct (cache_key_returns_on_encodable text (lit "embedding") Henc)
    as (key & Hkey).
  rewrite (set_embedding_up self text v ttl srv RedisClient key b
             Hc Hup Httl Hkey Hb) in Hdb |- *.
  split; [reflexivity|]. cbn [snd redis_db] in Hdb.
  rewrite (get_embedding_up self text later RedisClient Hc Hup'), Hkey.
  unfold lookup_live. rewrite Hdb, lookup_insert_eq.
  unfold live. cbn [fst snd].
  replace (redis_now later <? redis_now srv + ttl) with true
    by (symmetry; apply Z.ltb_lt; lia).
  destruct b as [|x b]; [congruence|]. cbn [truthy].
  now rewrite Hloads, Hprint.
Qed.

(** *** Fail-open: no cache operation raises *)

Lemma try_except_returns {A} (m : M redis_server A) (a : A) srv :
  exists r srv', try_except m (fun _ => ret a) srv = (Return r, srv').
Proof.
  unfold try_except, ret. destruct (m srv) as [[r|e] srv']; eauto.
Qed.

(** Whatever the manager and the state of the store, a cache operation
    returns: store errors, encoding errors and codec errors are all
    absorbed. *)
Lemma run_call_returns (self : VectorCacheManager) c srv :
  exists r srv', run_call' self c srv = (Return r, srv').
Proof.
  destruct c; unfold run_call, get_embedding, set_embedding,
    get_search_results, set_search_results, invalidate_search_cache;
    destruct (redis_client self);
    try (unfold bind at 1, ret; eauto; fail);
    unfold bind at 1;
    match goal with
    | |- context [try_except ?m (fun _ => ret ?a) srv] =>
        destruct (try_except_returns m a srv) as (? & ? & ->)
    end; unfold ret; eauto.
Qed.

(** [invalidate_search_cache] never touches a key outside ["search:"],
    reachable store or not. *)
Lemma invalidate_keeps_other_keys (self : VectorCacheManager) srv :
  exists srv',
    invalidate_search_cache self srv = (Return tt, srv')
    /\ forall k, has_prefix (lit "search:") k = false ->
                 redis_db srv' !! k = redis_db srv !! k.
Proof.
  destruct (redis_client self) as [h|] eqn:Hc.
  - destruct (redis_up srv) eqn:Hup.
    + destruct (invalidate_up self srv h Hc Hup) as (srv' & Hrun & _ & _ & Hdb).
      exists srv'. split; [exact Hrun|]. intros k Hk. rewrite Hdb.
      rewrite decide_False; [reflexivity|]. intros [_ ?]. congruence.
    + exists srv. split; [|reflexivity].
      unfold invalidate_search_cache. rewrite Hc.
      unfold try_except, bind, Redis.keys, bind, Redis.connected.
      now rewrite Hup.
  - exists srv. split; [|reflexivity].
    unfold invalidate_search_cache. now rewrite Hc.
Qed.

(** *** Round trip through the search-result cache *)

Lemma set_search_results_up (self : VectorCacheManager) query filters
    res ttl srv h key text b :
  redis_client self = Some h -> redis_up srv = true -> 0 < ttl ->
  search_cache_key query filters = Return key ->
  results_dumps res = Return text -> str_encode text = Return b ->
  set_search_results' self query res filters ttl srv
  = (Return tt,
     mk_redis true (redis_now srv)
              (<[key := (b, redis_now srv + ttl)]> (redis_db srv))).
Proof.
  intros Hc Hup Httl Hkey Ht Hb. unfold set_search_results. rewrite Hc.
  unfold try_except, bind, lift. rewrite Hkey, Ht, Hb.
  rewrite redis_setex_up;
    [reflexivity | exact Hup
     | now apply (cache_key_ascii (search_cache_str query filters)
                    (lit "search")) | exact Httl].
Qed.

Lemma search_round_trip_on (self : VectorCacheManager) query
    filters filters' res ttl text b (srv later : redis_server) :
  redis_client self = Some RedisClient ->
  search_cache_key query filters = search_cache_key query filters' ->
  py_print (search_hit_message query) = Return tt ->
  results_dumps res = Return text -> str_encode text = Return b ->
  b <> [] -> bytes_decode b = Return text ->
  results_loads text = Return res ->
  redis_up srv = true -> 0 < ttl ->
  redis_up later = true ->
  redis_now later < redis_now srv + ttl ->
  redis_db later
  = redis_db (set_search_results' self query res filters ttl srv).2 ->
  get_search_results' self query filters' later = (Return (Some res), later).
Proof.
  intros Hc Hsame Hprint Ht Hb Hne Hdec Hloads Hup Httl Hup' Hnow Hdb.
  rewrite (set_search_results_up self query filters res ttl srv RedisClient
             _ text b Hc Hup Httl (search_cache_key_returns query filters)
             Ht Hb) in Hdb.
  cbn [snd redis_db] in Hdb.
  rewrite (get_search_results_up self query filters' later RedisClient Hc Hup').
  rewrite <- Hsame, search_cache_key_returns.
  unfold lookup_live. rewrite Hdb, lookup_insert_eq.
  unfold live. cbn [fst snd].
  replace (redis_now later <? redis_now srv + ttl) with true
    by (symmetry; apply Z.ltb_lt; lia).
  destruct b as [|x b]; [congruence|]. cbn [truthy].
  now rewrite Hdec, Hloads, Hprint.
Qed.

(** What was cached under a query and filters is found, before it
    expires, under the same query and any filters that derive the same
    key (the same mapping in another order, or [None] for [{}]),
    provided the standard output takes the hit message of the query. *)
Theorem search_results_round_trip (self : VectorCacheManager)
    (query : pystr) (filters filters' : option pydict) (res : results)
    (ttl : Z) (text : pystr) (b : bytes) (srv later : redis_server) :
  redis_client self = Some RedisClient ->
  search_cache_key query filters = search_cache_key query filters' ->
  py_print (search_hit_message query) = Return tt ->
  results_dumps res = Return text -> str_encode text = Return b ->
  b <> [] -> bytes_decode b = Return text ->
  results_loads text = Return res ->
  redis_up srv = true -> 0 < ttl ->
  redis_up later = true ->
  redis_now later < redis_now srv + ttl ->
  redis_db later
  = redis_db (set_search_results' self query res filters ttl srv).2 ->
  get_search_results' self query filters' later = (Return (Some res), later).
Proof.
  intros Hc Hsame Hprint Ht Hb Hne Hdec Hloads Hup Httl Hup' Hnow Hdb.
  now apply (search_round_trip_on self query filters filters' res ttl text b
               srv later).
Qed.


End CacheFacts.

(** ** vector_search.py *)

Section SearchFacts.

Context {num : Type}.
Variable num_le : relation num.
Context `{!RelDecision num_le}.
Variable one_minus : num -> num.
Variable distance : list num -> list num -> num.
Variable model_encode : pystr -> outcome (list num).

Local Notation generate_embedding' := (generate_embedding model_encode).
Local Notation vector_search' :=
  (vector_search num_le one_minus distance model_encode).
Local Notation update_all_embeddings' := (update_all_embeddings model_encode).
Local Notation result_of_row' := (result_of_row one_minus).
Local Notation by_distance' := (by_distance num_le).
Local Notation with_distance' := (with_distance distance).
Local Notation database' := (@database num).

(** C8: when no embedding can be generated for the query ([None], the
    empty string, or a text on which the model raises),
    [vector_search] returns the empty list at once: nothing is raised
    and the connection has not been used (its state, the script of
    calls to come included, is as before). *)
Theorem vector_search_empty_when_generation_fails
    (query : option pystr) (limit : Z) (db : database') :
  generate_embedding' query = None ->
  vector_search' query limit db = (Return [], db).
Proof.
  intros Hgen. unfold vector_search. rewrite Hgen. reflexivity.
Qed.

(** The generator fails on the empty string and whenever the model
    raises. *)
Lemma generate_embedding_empty : generate_embedding' (Some []) = None.
Proof. reflexivity. Qed.

Lemma generate_embedding_model_raises text e :
  model_encode text = Raise e -> generate_embedding' (Some text) = None.
Proof.
  intros H. destruct text as [|c s]; [reflexivity|].
  cbn [generate_embedding]. now rewrite H.
Qed.

(** C9: the search service cannot be constructed without its database:
    what [psycopg2.connect] raises is raised by [connect_to_db] and by
    the constructor, whatever else happened, so no service object (in
    any mode) comes out.  The cache manager, constructed against an
    unreachable store, does come out, without client. *)
Theorem database_unavailable_at_startup_is_fatal (e : exn) :
  connect_to_db (Raise e) = @Raise database' e
  /\ VectorSearchService_init (Return tt) (Raise e)
     = @Raise (@VectorSearchService num) e
  /\ (forall model_load, exists e',
        VectorSearchService_init model_load (Raise e)
        = @Raise (@VectorSearchService num) e')
  /\ (forall now content,
        VectorCacheManager_init (mk_redis false now content)
        = (Return (mk_manager None), mk_redis false now content)).
Proof.
  split; [reflexivity|]. split; [reflexivity|]. split.
  - intros [[]|e']; eexists; reflexivity.
  - reflexivity.
Qed.

(** *** The connection *)

Lemma connection_call_frame (db db' : database') r :
  connection_call db = (r, db') ->
  db_tasks db' = db_tasks db /\ db_txn db' = db_txn db.
Proof.
  unfold connection_call. destruct (db_script db) as [|[|] rest];
    intros [= <- <-]; auto.
Qed.

Lemma statement_frame {A} (run : list task -> outcome (A * list task))
    (db db' : database') r :
  statement run db = (r, db') -> db_tasks db' = db_tasks db.
Proof.
  unfold statement.
  destruct (connection_call db) as [[[]|e] db1] eqn:Hcall;
    apply connection_call_frame in Hcall as [Ht Hx].
  - destruct (db_txn db1); try destruct (run _) as [[a v]|e];
      intros [= <- <-]; exact Ht.
  - intros [= <- <-]. exact Ht.
Qed.

(** The nearest-neighbour query either raises or answers the first
    [limit] rows of the candidates in order of distance, the candidates
    being the rows with an embedding that the connection sees. *)
Lemma execute_select_nearest_cases q limit (db db' : database') r :
  execute_select_nearest num_le distance q limit db = (r, db') ->
  (exists e, r = Raise e)
  \/ r = Return (take (Z.to_nat limit)
                   (merge_sort by_distance'
                      (omap (with_distance' q) (txn_view db)))).
Proof.
  unfold execute_select_nearest, statement.
  destruct (connection_call db) as [[[]|e] db1] eqn:Hcall;
    [|intros [= <- <-]; left; now eexists].
  apply connection_call_frame in Hcall as [Ht Hx].
  assert (Hview : txn_view db1 = txn_view db)
    by (unfold txn_view; now rewrite Ht, Hx).
  rewrite Hview.
  destruct (db_txn db1); destruct (limit <? 0);
    intros [= <- <-]; (left; now eexists) || (right; reflexivity).
Qed.

Lemma vector_search_cases query limit (db : database') qe :
  usable (generate_embedding' query) = Some qe ->
  exists db',
    vector_search' query limit db = (Return [], db')
    \/ vector_search' query limit db
       = (Return (map result_of_row'
                    (take (Z.to_nat limit)
                       (merge_sort by_distance'
                          (omap (with_distance' qe) (txn_view db))))), db').
Proof.
  intros Hgen. unfold vector_search. rewrite Hgen.
  unfold try_except, bind, ret.
  destruct (connection_cursor db) as [[[]|e] db1] eqn:Hcur;
    [|exists db1; left; reflexivity].
  apply connection_call_frame in Hcur as [Ht Hx].
  destruct (execute_select_nearest num_le distance qe limit db1)
    as [[rows|e] db2] eqn:Hsel; [|exists db2; left; reflexivity].
  exists db2. right.
  apply execute_select_nearest_cases in Hsel as [[e He]|Hrows];
    [discriminate|].
  injection Hrows as ->.
  unfold txn_view. now rewrite Ht, Hx.
Qed.

(** Every candidate of the query is a row the connection sees, with an
    embedding, paired with the distance of that embedding to the query. *)
Lemma candidate_row qe (view : list task) (r : task * num) :
  r ∈ omap (with_distance' qe) view ->
  r.1 ∈ view
  /\ exists e, task_embedding r.1 = Some e /\ r.2 = distance e qe.
Proof.
  intros Hr. apply list_elem_of_omap in Hr as (t & Ht & Hw).
  unfold with_distance in Hw.
  destruct (task_embedding t) as [e|] eqn:He; [|discriminate].
  injection Hw as <-. cbn [fst snd]. split; [exact Ht|]. now exists e.
Qed.

#[local] Instance by_distance_total `{!Total num_le} : Total by_distance'.
Proof. intros a b. apply (total num_le). Qed.

#[local] Instance by_distance_trans `{!Transitive num_le}
  : Transitive by_distance'.
Proof. intros a b c. apply (transitivity (R:=num_le)). Qed.

(** *** update_all_embeddings *)

Local Notation backfill' := (backfill model_encode).
Local Notation update_all_embeddings_try' :=
  (update_all_embeddings_try model_encode).
Local Notation row_embedding' := (row_embedding model_encode).
Local Notation apply_row' := (apply_row model_encode).
Local Notation counted' := (counted model_encode).

Lemma backfill_frame rows : forall n (db db' : database') r,
  backfill' rows n db = (r, db') -> db_tasks db' = db_tasks db.
Proof.
  induction rows as [|[[id title] description] rows IH]; intros n db db' r;
    cbn [backfill].
  - now intros [= <- <-].
  - destruct (usable _) as [e|]; [|apply IH].
    unfold bind.
    destruct (execute_update_embedding e id db) as [[[]|e'] db1] eqn:Hup;
      apply statement_frame in Hup.
    + intros H. apply IH in H. congruence.
    + intros [= <- <-]. exact Hup.
Qed.

Lemma commit_raise_frame (db db' : database') e :
  connection_commit db = (Raise e, db') -> db_tasks db' = db_tasks db.
Proof.
  unfold connection_commit, bind.
  destruct (connection_call db) as [[[]|e'] db1] eqn:Hcall;
    apply connection_call_frame in Hcall as [Ht _].
  - destruct (db_txn db1); discriminate.
  - intros [= <- <-]. exact Ht.
Qed.

(** Whatever makes the [try] block raise, the committed table is as it
    was before the call: nothing of the batch has been committed. *)
Lemma try_block_raise_frame (db db1 : database') e :
  update_all_embeddings_try' db = (Raise e, db1) ->
  db_tasks db1 = db_tasks db.
Proof.
  unfold update_all_embeddings_try, bind, ret.
  destruct (connection_cursor db) as [[[]|e0] d0] eqn:H0;
    apply connection_call_frame in H0 as [H0 _];
    [|intros [= <- <-]; exact H0].
  destruct (execute_select_missing d0) as [[rows|e1] d1] eqn:H1;
    apply statement_frame in H1; [|intros [= <- <-]; congruence].
  destruct (backfill' rows 0 d1) as [[n|e2] d2] eqn:H2;
    apply backfill_frame in H2; [|intros [= <- <-]; congruence].
  destruct (connection_commit d2) as [[[]|e3] d3] eqn:H3; [discriminate|].
  apply commit_raise_frame in H3. intros [= <- <-]. congruence.
Qed.

Lemma rollback_cases (db : database') :
  (exists db', connection_rollback db = (Return tt, db')
               /\ db_tasks db' = db_tasks db /\ db_txn db' = Idle)
  \/ (exists db', connection_rollback db = (Raise DatabaseError, db')
                  /\ db_tasks db' = db_tasks db
                  /\ exists rest, db_script db = false :: rest).
Proof.
  unfold connection_rollback, connection_call, bind.
  destruct (db_script db) as [|[|] rest].
  - left. eexists. split; [reflexivity|]. split; reflexivity.
  - left. eexists. split; [reflexivity|]. split; reflexivity.
  - right. eexists. split; [reflexivity|]. split; [reflexivity|].
    now exists rest.
Qed.

(** All or nothing: when the [try] block raises, nothing of the batch
    is committed; the method then returns 0 with the transaction closed
    if the rollback goes through, and raises if the rollback raises
    too. *)
Lemma update_all_embeddings_on_failure (db db1 : database') e :
  update_all_embeddings_try' db = (Raise e, db1) ->
  (exists db', update_all_embeddings' db = (Return 0, db')
               /\ db_tasks db' = db_tasks db /\ db_txn db' = Idle)
  \/ (exists db', update_all_embeddings' db = (Raise DatabaseError, db')
                  /\ db_tasks db' = db_tasks db
                  /\ exists rest, db_script db1 = false :: rest).
Proof.
  intros Htry. unfold update_all_embeddings, try_except. rewrite Htry.
  apply try_block_raise_frame in Htry.
  unfold bind, ret.
  destruct (rollback_cases db1) as [(db' & -> & Ht & Hx)|(db' & -> & Ht & Hs)].
  - left. exists db'. split; [reflexivity|]. split; congruence.
  - right. exists db'. split; [reflexivity|]. split; [congruence|exact Hs].
Qed.

(** On a connection whose calls all succeed. *)
Lemma reliable_call (db : database') :
  reliable db ->
  exists db1, connection_call db = (Return tt, db1)
              /\ db_tasks db1 = db_tasks db /\ db_txn db1 = db_txn db
              /\ reliable db1.
Proof.
  intros [Hs Hx]. unfold connection_call.
  destruct db as [tasks txn script]. cbn [db_script db_tasks db_txn] in *.
  destruct script as [|[|] rest].
  - eexists. split; [reflexivity|]. repeat split; auto.
  - eexists. split; [reflexivity|]. repeat split; auto.
    now inversion Hs.
  - inversion Hs. discriminate.
Qed.

Lemma reliable_statement {A} (run : list task -> outcome (A * list task))
    (db : database') a view' :
  reliable db -> run (txn_view db) = Return (a, view') ->
  exists db1, statement run db = (Return a, db1)
              /\ db_tasks db1 = db_tasks db /\ db_txn db1 = InTxn view'
              /\ reliable db1.
Proof.
  intros Hrel Hrun. unfold statement.
  destruct (reliable_call db Hrel) as (d & -> & Ht & Hx & [Hs Ha]).
  assert (Hview : txn_view d = txn_view db)
    by (unfold txn_view; now rewrite Ht, Hx).
  rewrite Hview, Hrun.
  destruct (db_txn d) eqn:Hd; try congruence;
    (eexists; split; [reflexivity|]; repeat split; auto; discriminate).
Qed.

Lemma counted_cons r rows :
  counted' (r :: rows)
  = (if row_embedding' r then 1 else 0) + counted' rows.
Proof.
  unfold counted. rewrite filter_cons.
  destruct (row_embedding' r) as [e|] eqn:He.
  - rewrite decide_True by now eexists. cbn [length]. lia.
  - rewrite decide_False by (intros [? ?]; discriminate). lia.
Qed.

Lemma reliable_backfill rows : forall n (db : database'),
  reliable db ->
  exists db1,
    backfill' rows n db = (Return (n + counted' rows), db1)
    /\ db_tasks db1 = db_tasks db
    /\ txn_view db1
       = map (fun t => fold_left apply_row' rows t) (txn_view db)
    /\ reliable db1.
Proof.
  induction rows as [|[[id title] description] rows IH]; intros n db Hrel;
    cbn [backfill].
  - exists db. unfold ret, counted. cbn. rewrite Z.add_0_r.
    split; [reflexivity|]. split; [reflexivity|]. split; [|exact Hrel].
    now rewrite map_id.
  - rewrite counted_cons. unfold row_embedding at 1. cbn [fst snd].
    assert (Hfold : forall t,
              fold_left apply_row' ((id, title, description) :: rows) t
              = fold_left apply_row' rows
                  (apply_row' t (id, title, description))) by reflexivity.
    unfold apply_row, row_embedding in Hfold. cbn [fst snd] in Hfold.
    destruct (usable (generate_embedding' (text_of title description)))
      as [e|] eqn:He.
    + unfold bind, execute_update_embedding.
      edestruct (reliable_statement
                   (fun view =>
                      Return (tt, map (fun t => if task_id t =? id
                                                then set_embedding_of e t
                                                else t) view))
                   db tt) as (d1 & -> & Ht & Hx & Hrel1);
        [exact Hrel | reflexivity |].
      destruct (IH (n + 1) d1 Hrel1) as (d2 & -> & Ht2 & Hv2 & Hrel2).
      exists d2. split; [f_equal; f_equal; lia|].
      split; [congruence|]. split; [|exact Hrel2].
      rewrite Hv2. unfold txn_view at 1. rewrite Hx, map_map.
      apply map_ext. intros t. now rewrite Hfold.
    + destruct (IH n db Hrel) as (d2 & -> & Ht2 & Hv2 & Hrel2).
      exists d2. split; [f_equal; f_equal; lia|].
      split; [exact Ht2|]. split; [|exact Hrel2].
      rewrite Hv2. apply map_ext. intros t. now rewrite Hfold.
Qed.

(** When every call succeeds, [update_all_embeddings] commits the table
    in which every selected row has been handled, and returns how many
    rows got an embedding. *)
Lemma update_all_embeddings_reliable (db : database') :
  reliable db ->
  exists db',
    update_all_embeddings' db
    = (Return (counted' (missing_rows (txn_view db))), db')
    /\ db_tasks db'
       = map (fun t => fold_left apply_row' (missing_rows (txn_view db)) t)
             (txn_view db)
    /\ db_txn db' = Idle.
Proof.
  intros Hrel.
  unfold update_all_embeddings, try_except, update_all_embeddings_try.
  unfold bind at 1. unfold connection_cursor.
  destruct (reliable_call db Hrel) as (d0 & -> & Ht0 & Hx0 & Hrel0).
  assert (Hview0 : txn_view d0 = txn_view db)
    by (unfold txn_view; now rewrite Ht0, Hx0).
  unfold bind at 1. unfold execute_select_missing.
  edestruct (reliable_statement
               (fun view =>
                  Return (map (fun t => (task_id t, task_title t,
                                         task_description t))
                              (filter (fun t => task_embedding t = None) view),
                          view))
               d0) as (d1 & -> & Ht1 & Hx1 & Hrel1);
    [exact Hrel0 | reflexivity |].
  fold (missing_rows (txn_view d0)). rewrite Hview0.
  assert (Hview1 : txn_view d1 = txn_view db)
    by (unfold txn_view at 1; now rewrite Hx1).
  unfold bind at 1.
  destruct (reliable_backfill (missing_rows (txn_view db)) 0 d1 Hrel1)
    as (d2 & -> & Ht2 & Hv2 & Hrel2).
  rewrite Hview1 in Hv2.
  unfold bind, connection_commit, bind, ret.
  destruct (reliable_call d2 Hrel2) as (d3 & -> & Ht3 & Hx3 & Hrel3).
  assert (Hview3 : txn_view d3 = txn_view d2)
    by (unfold txn_view; now rewrite Ht3, Hx3).
  rewrite Z.add_0_l.
  destruct (db_txn d3) as [|view|] eqn:Hd3.
  - eexists. split; [reflexivity|]. cbn [db_tasks db_txn]. split; [|reflexivity].
    rewrite <- Hv2, <- Hview3. unfold txn_view. now rewrite Hd3.
  - eexists. split; [reflexivity|]. cbn [db_tasks db_txn]. split; [|reflexivity].
    rewrite <- Hv2, <- Hview3. unfold txn_view. now rewrite Hd3.
  - destruct Hrel3 as [_ Hna]. congruence.
Qed.

(** With distinct ids, each selected row changes its own row of the
    table and no other. *)
Lemma apply_row_id t r : task_id (apply_row' t r) = task_id t.
Proof.
  unfold apply_row. destruct (row_embedding' r); [|reflexivity].
  now destruct (task_id t =? r.1.1).
Qed.

Lemma apply_row_other t r : r.1.1 <> task_id t -> apply_row' t r = t.
Proof.
  intros Hne. unfold apply_row. destruct (row_embedding' r); [|reflexivity].
  replace (task_id t =? r.1.1) with false; [reflexivity|].
  symmetry. apply Z.eqb_neq. congruence.
Qed.

Lemma fold_apply_other rows : forall t,
  (forall r, r ∈ rows -> r.1.1 <> task_id t) ->
  fold_left apply_row' rows t = t.
Proof.
  induction rows as [|r rows IH]; intros t Hne; [reflexivity|].
  cbn [fold_left]. rewrite apply_row_other by (apply Hne; left).
  apply IH. intros r' Hr'. apply Hne. now right.
Qed.

Lemma fold_apply_own rows : forall t r,
  NoDup (map (fun r => r.1.1) rows) -> r ∈ rows -> r.1.1 = task_id t ->
  fold_left apply_row' rows t = apply_row' t r.
Proof.
  induction rows as [|r0 rows IH]; intros t r Hnd Hr Hid.
  - inversion Hr.
  - cbn [map] in Hnd. apply NoDup_cons in Hnd as [Hr0 Hnd].
    cbn [fold_left]. apply elem_of_cons in Hr as [->|Hr].
    + apply fold_apply_other. intros r' Hr' Heq. apply Hr0.
      rewrite apply_row_id in Heq. rewrite Hid, <- Heq.
      apply list_elem_of_fmap. now exists r'.
    + rewrite apply_row_other.
      * now apply IH.
      * intros Heq. apply Hr0. rewrite Heq, <- Hid.
        apply list_elem_of_fmap. now exists r.
Qed.

Lemma missing_rows_ids (view : list (@task num)) :
  map (fun r : Z * option pystr * option pystr => r.1.1) (missing_rows view)
  = map task_id (filter (fun t => task_embedding t = None) view).
Proof. unfold missing_rows. rewrite map_map. reflexivity. Qed.

Lemma backfilled_row (view : list (@task num)) t :
  NoDup (map task_id view) -> t ∈ view ->
  fold_left apply_row' (missing_rows view) t = backfilled model_encode t.
Proof.
  intros Hnd Ht. unfold backfilled.
  assert (Hnd' : NoDup (map (fun r : Z * option pystr * option pystr => r.1.1)
                          (missing_rows view))).
  { rewrite missing_rows_ids.
    apply (sublist_NoDup _ (map task_id view));
      first [exact Hnd | apply (fmap_sublist task_id), sublist_filter]. }
  destruct (task_embedding t) as [e|] eqn:He.
  - apply fold_apply_other. intros r Hr Hid.
    unfold missing_rows in Hr.
    apply list_elem_of_fmap in Hr as (t' & -> & Ht').
    apply list_elem_of_filter in Ht' as [Hmiss Ht']. cbn [fst] in Hid.
    assert (t' = t) as -> by (apply (known_by_key task_id view); auto).
    congruence.
  - rewrite (fold_apply_own _ t (task_id t, task_title t, task_description t)
               Hnd'); [| |reflexivity].
    + unfold apply_row, row_embedding. cbn [fst snd].
      destruct (usable _); [|reflexivity]. now rewrite Z.eqb_refl.
    + unfold missing_rows. apply list_elem_of_fmap. exists t.
      split; [reflexivity|]. now apply list_elem_of_filter.
Qed.

(** A generation failure skips the row and nothing else: with every
    call succeeding and ids distinct, the committed table is the old one
    with [backfilled] applied to each row, so a row whose generation
    failed keeps its missing embedding while the others get theirs, and
    the count is that of the rows that got one. *)
Lemma update_all_embeddings_skips_failed_rows (db : database') :
  reliable db -> NoDup (map task_id (txn_view db)) ->
  exists db',
    update_all_embeddings' db
    = (Return (counted' (missing_rows (txn_view db))), db')
    /\ db_tasks db' = map (backfilled model_encode) (txn_view db)
    /\ db_txn db' = Idle.
Proof.
  intros Hrel Hnd.
  destruct (update_all_embeddings_reliable db Hrel) as (db' & Hrun & Ht & Hx).
  exists db'. split; [exact Hrun|]. split; [|exact Hx].
  rewrite Ht. apply map_ext_in. intros t Hin.
  apply backfilled_row; [exact Hnd | now apply list_elem_of_In].
Qed.

(** *** The nearest records *)

(** On a connection whose calls all succeed, a search with a limit that
    is not negative answers the first [limit] candidates in order of
    distance. *)
Lemma vector_search_answers query limit (db : database') qe :
  reliable db -> 0 <= limit ->
  usable (generate_embedding' query) = Some qe ->
  exists db',
    vector_search' query limit db
    = (Return (map result_of_row'
                 (take (Z.to_nat limit)
                    (merge_sort by_distance'
                       (omap (with_distance' qe) (txn_view db))))), db').
Proof.
  intros Hrel Hlimit Hgen. unfold vector_search. rewrite Hgen.
  unfold try_except, bind at 1. unfold connection_cursor.
  destruct (reliable_call db Hrel) as (d0 & -> & Ht0 & Hx0 & Hrel0).
  assert (Hview0 : txn_view d0 = txn_view db)
    by (unfold txn_view; now rewrite Ht0, Hx0).
  unfold bind, execute_select_nearest.
  edestruct (reliable_statement
               (fun view =>
                  if limit <? 0 then Raise DatabaseError
                  else Return
                         (take (Z.to_nat limit)
                            (merge_sort by_distance'
                               (omap (with_distance' qe) view)), view))
               d0) as (d1 & -> & _); [exact Hrel0 | |].
  { replace (limit <? 0) with false by (symmetry; apply Z.ltb_ge; lia).
    reflexivity. }
  unfold ret. exists d1. now rewrite Hview0.
Qed.

(** C1: when an embedding [qe] is generated for the query,
    [vector_search] returns (it never raises) the records built from
    rows such that: there are at most [limit] of them; each is a record
    the connection sees whose embedding is not null, with its distance
    to [qe]; they are in ascending order of distance; with the
    candidates left out they make up all the records with an embedding,
    none of the left-out ones being nearer than a returned one; each
    returned record carries the row's id, title, description and status
    and, as similarity, [1 - distance]; and when the store answers
    (every call on the connection succeeds, [limit] is not negative, the
    embedding is not empty) there are exactly [min(limit, n)] of them,
    [n] being the number of records with an embedding: the [limit]
    nearest, or all of them. *)
Theorem vector_search_nearest `{!Total num_le} `{!Transitive num_le}
    (query : option pystr) (limit : Z) (db : database') (qe : list num) :
  generate_embedding' query = Some qe ->
  exists (rows rest : list (task * num)) (db' : database'),
    vector_search' query limit db = (Return (map result_of_row' rows), db')
    /\ (length rows <= Z.to_nat limit)%nat
    /\ Forall (fun r => r.1 ∈ txn_view db
                        /\ exists e, task_embedding r.1 = Some e
                                     /\ r.2 = distance e qe) rows
    /\ StronglySorted by_distance' rows
    /\ rows ++ rest ≡ₚ omap (with_distance' qe) (txn_view db)
    /\ (forall r o, r ∈ rows -> o ∈ rest -> num_le r.2 o.2)
    /\ Forall2 (fun r res =>
                  result_id res = task_id r.1
                  /\ result_title res = task_title r.1
                  /\ result_description res = task_description r.1
                  /\ result_status res = task_status r.1
                  /\ result_similarity res = one_minus r.2)
               rows (map result_of_row' rows)
    /\ (reliable db -> 0 <= limit -> qe <> [] ->
        length rows
        = Nat.min (Z.to_nat limit)
            (length (omap (with_distance' qe) (txn_view db)))).
Proof.
  intros Hgen.
  set (candidates := omap (with_distance' qe) (txn_view db)).
  set (sorted := merge_sort by_distance' candidates).
  assert (Hsorted : StronglySorted by_distance' sorted)
    by (apply StronglySorted_merge_sort; apply _).
  assert (Hperm : sorted ≡ₚ candidates) by apply merge_sort_Permutation.
  assert (Hresults : forall rows : list (task * num),
            Forall2 (fun r res =>
                  result_id res = task_id r.1
                  /\ result_title res = task_title r.1
                  /\ result_description res = task_description r.1
                  /\ result_status res = task_status r.1
                  /\ result_similarity res = one_minus r.2)
               rows (map result_of_row' rows)).
  { induction rows as [|r rows IH]; constructor; auto. }
  assert (Htake : length (take (Z.to_nat limit) sorted)
                  = Nat.min (Z.to_nat limit) (length candidates)).
  { rewrite length_take. now rewrite (Permutation_length Hperm). }
  assert (Huse : qe <> [] -> usable (generate_embedding' query) = Some qe).
  { intros Hne. rewrite Hgen. destruct qe; [congruence | reflexivity]. }
  assert (Hnone : forall db' : database',
            vector_search' query limit db = (Return [], db') ->
            exists (rows rest : list (task * num)) (db' : database'),
              vector_search' query limit db
              = (Return (map result_of_row' rows), db')
              /\ (length rows <= Z.to_nat limit)%nat
              /\ Forall (fun r => r.1 ∈ txn_view db
                        /\ exists e, task_embedding r.1 = Some e
                                     /\ r.2 = distance e qe) rows
              /\ StronglySorted by_distance' rows
              /\ rows ++ rest ≡ₚ candidates
              /\ (forall r o, r ∈ rows -> o ∈ rest -> num_le r.2 o.2)
              /\ Forall2 (fun r res =>
                  result_id res = task_id r.1
                  /\ result_title res = task_title r.1
                  /\ result_description res = task_description r.1
                  /\ result_status res = task_status r.1
                  /\ result_similarity res = one_minus r.2)
               rows (map result_of_row' rows)
              /\ (reliable db -> 0 <= limit -> qe <> [] ->
                  length rows
                  = Nat.min (Z.to_nat limit) (length candidates))).
  { intros db' Hrun. exists [], sorted, db'.
    split; [exact Hrun|]. split; [cbn; lia|].
    split; [apply List.Forall_nil|]. split; [constructor|].
    split; [exact Hperm|].
    split; [intros r o Hr; inversion Hr|].
    split; [apply Hresults|].
    intros Hrel Hlimit Hne.
    destruct (vector_search_answers query limit db qe Hrel Hlimit (Huse Hne))
      as (db'' & Hans).
    rewrite Hans in Hrun. injection Hrun as Hmap _.
    rewrite <- Htake. fold candidates sorted in Hmap.
    apply (f_equal (@length _)) in Hmap. rewrite length_map in Hmap.
    symmetry. exact Hmap. }
  destruct (usable (generate_embedding' query)) as [qe'|] eqn:Husable.
  - assert (qe' = qe) as ->.
    { rewrite Hgen in Husable. destruct qe; [discriminate|].
      now injection Husable. }
    destruct (vector_search_cases query limit db qe Husable)
      as [db' [Hrun|Hrun]]; [now apply (Hnone db')|].
    exists (take (Z.to_nat limit) sorted), (drop (Z.to_nat limit) sorted), db'.
    split; [exact Hrun|].
    split; [rewrite length_take; lia|].
    split.
    { apply Forall_forall. intros r Hr. apply candidate_row.
      apply (subseteq_take (Z.to_nat limit)) in Hr.
      fold candidates. now rewrite <- Hperm. }
    rewrite <- (take_drop (Z.to_nat limit) sorted) in Hsorted.
    split; [now apply StronglySorted_app_1_l in Hsorted|].
    split; [now rewrite take_drop|].
    split.
    { intros r o Hr Ho.
      apply (StronglySorted_app_1_elem_of by_distance' _ _ r o Hsorted Hr Ho). }
    split; [apply Hresults|].
    intros _ _ _. exact Htake.
  - destruct (Hnone db) as (rows & rest & db' & H).
    { unfold vector_search. now rewrite Husable. }
    exists rows, rest, db'. exact H.
Qed.

End SearchFacts.

(** ** The operations on the fixtures *)

#[global] Instance Qle_total : Total Qle.
Proof. intros x y. unfold Qle. lia. Qed.

#[global] Instance Qle_transitive : Transitive Qle.
Proof. intros x y z. apply Qle_trans. Qed.

(** The scenario of the specification: five records at distances 0.1,
    0.2, 0.4, 0.6 and 0.9 of "shopping"; a search with limit 3 answers
    the three nearest, nearest first, with similarities 0.9, 0.8, 0.6. *)
Example search_shopping :
  (vector_search Qle Fixture.one_minus Fixture.distance Fixture.model_encode
     (Some (lit "shopping")) 3 (Fixture.db [])).1
  = Return
      [mk_result 2 (Some (lit "Buy groceries")) None (Some (lit "pending"))
                 (9 # 10)%Q;
       mk_result 4 (Some (lit "Order shoes")) None (Some (lit "pending"))
                 (8 # 10)%Q;
       mk_result 5 (Some (lit "Book a flight")) None (Some (lit "pending"))
                 (6 # 10)%Q].
Proof. vm_compute. reflexivity. Qed.

Lemma vector_search_nearest_witness :
  generate_embedding Fixture.model_encode (Some (lit "shopping"))
  = Some [inject_Z 8]
  /\ reliable (Fixture.db [])
  /\ exists rows rest,
       (vector_search Qle Fixture.one_minus Fixture.distance
          Fixture.model_encode (Some (lit "shopping")) 3 (Fixture.db [])).1
       = Return (map (result_of_row Fixture.one_minus) rows)
       /\ length rows = 3%nat
       /\ StronglySorted (by_distance Qle) rows
       /\ rows ++ rest
          ≡ₚ omap (with_distance Fixture.distance [inject_Z 8])
                  (txn_view (Fixture.db []))
       /\ (forall r o, r ∈ rows -> o ∈ rest -> Qle r.2 o.2).
Proof.
  assert (Hrel : reliable (Fixture.db []))
    by (split; [apply List.Forall_nil | discriminate]).
  split; [reflexivity|]. split; [exact Hrel|].
  destruct (vector_search_nearest Qle Fixture.one_minus Fixture.distance
              Fixture.model_encode (Some (lit "shopping")) 3 (Fixture.db [])
              [inject_Z 8] eq_refl)
    as (rows & rest & db' & Hrun & _ & _ & Hsorted & Hperm & Hnear & _
        & Hexact).
  exists rows, rest. rewrite Hrun. split; [reflexivity|].
  split; [|split; [exact Hsorted | split; [exact Hperm | exact Hnear]]].
  rewrite Hexact; [reflexivity | exact Hrel | lia | discriminate].
Defined.

Lemma vector_search_empty_when_generation_fails_witness :
  generate_embedding Fixture.model_encode (Some []) = None
  /\ vector_search Qle Fixture.one_minus Fixture.distance
       Fixture.model_encode (Some []) 3 (Fixture.db [false])
     = (Return [], Fixture.db [false]).
Proof.
  split; [reflexivity|].
  apply (vector_search_empty_when_generation_fails Qle Fixture.one_minus
           Fixture.distance Fixture.model_encode (Some []) 3
           (Fixture.db [false])).
  reflexivity.
Defined.

(** C3, where the code departs from it: the update of the one task
    without embedding is refused and the rollback that the handler
    attempts raises too (the connection is gone).  The method then
    raises instead of returning 0.  Nothing has been committed. *)
Theorem update_all_embeddings_raises_when_rollback_raises :
  (update_all_embeddings Fixture.model_encode
     (Fixture.db [true; true; false; false])).1
  = Raise DatabaseError
  /\ db_tasks (update_all_embeddings Fixture.model_encode
                 (Fixture.db [true; true; false; false])).2
     = Fixture.tasks.
Proof. split; vm_compute; reflexivity. Qed.

(** With a rollback that goes through, the same failure gives 0 and an
    unchanged table; with no failure the task gets its embedding. *)
Example update_all_embeddings_rolled_back :
  (update_all_embeddings Fixture.model_encode
     (Fixture.db [true; true; false; true])).1 = Return 0
  /\ db_tasks (update_all_embeddings Fixture.model_encode
                 (Fixture.db [true; true; false; true])).2
     = Fixture.tasks.
Proof. split; vm_compute; reflexivity. Qed.

Example update_all_embeddings_committed :
  (update_all_embeddings Fixture.model_encode (Fixture.db [])).1 = Return 1
  /\ map task_embedding
       (db_tasks (update_all_embeddings Fixture.model_encode
                    (Fixture.db [])).2)
     = [Some [(89 # 10)%Q]; Some [(81 # 10)%Q]; Some [(86 # 10)%Q];
        Some [(82 # 10)%Q]; Some [(84 # 10)%Q]; Some [inject_Z 12]].
Proof. split; vm_compute; reflexivity. Qed.

Lemma unreachable_at_construction_is_permanent_noop_witness :
  redis_up (mk_redis false 0 ∅) = false
  /\ exists self,
       VectorCacheManager_init (mk_redis false 0 ∅)
       = (Return self, mk_redis false 0 ∅)
       /\ run_life Fixture.pickle_dumps Fixture.pickle_loads
            Fixture.results_dumps Fixture.results_loads Fixture.bytes_decode
            Fixture.py_print self
            [Call (CallSetEmbedding (lit "shopping") [1; 2; 3] 3600);
             Environment Fixture.server;
             Call (CallGetEmbedding (lit "shopping"));
             Call CallInvalidateSearchCache]
            (mk_redis false 0 ∅)
          = ([Return Done; Return (GotEmbedding None); Return Done],
             Fixture.server).
Proof.
  split; [reflexivity|].
  destruct (unreachable_at_construction_is_permanent_noop
              Fixture.pickle_dumps Fixture.pickle_loads
              Fixture.results_dumps Fixture.results_loads Fixture.bytes_decode
              Fixture.py_print (mk_redis false 0 ∅) eq_refl)
    as (self & Hinit & _ & _ & Hlife).
  exists self. split; [exact Hinit|]. rewrite Hlife. reflexivity.
Defined.

Lemma search_key_ignores_filter_order_witness :
  wf_json (JDict Fixture.filters_ab)
  /\ same_mapping (JDict Fixture.filters_ab) (JDict Fixture.filters_ba)
  /\ exists key,
       search_cache_key (lit "x") (Some Fixture.filters_ab) = Return key
       /\ search_cache_key (lit "x") (Some Fixture.filters_ba) = Return key.
Proof.
  assert (Hwf : wf_json (JDict Fixture.filters_ab)).
  { apply wf_dict.
    - apply NoDup_cons. split; [|apply NoDup_singleton].
      intros H. apply list_elem_of_singleton in H. discriminate.
    - apply List.Forall_cons; [apply wf_int|].
      apply List.Forall_cons; [apply wf_int | apply List.Forall_nil]. }
  assert (Hsame : same_mapping (JDict Fixture.filters_ab)
                               (JDict Fixture.filters_ba)).
  { apply same_mapping_permutation. apply perm_swap. }
  split; [exact Hwf|]. split; [exact Hsame|].
  exact (proj1 (search_key_ignores_filter_order
                  Fixture.results_dumps Fixture.results_loads
                  Fixture.bytes_decode Fixture.py_print Fixture.manager
                  (lit "x")
                  Fixture.filters_ab Fixture.filters_ba [] 600 Hwf Hsame)).
Defined.

(** The key of the specification's example, in both orders. *)
Example search_key_ab_ba :
  search_cache_key (lit "x") (Some Fixture.filters_ab)
  = search_cache_key (lit "x") (Some Fixture.filters_ba).
Proof. vm_compute. reflexivity. Qed.

Lemma invalidate_clears_search_keeps_embeddings_witness :
  redis_client Fixture.manager = Some RedisClient
  /\ redis_up Fixture.server = true
  /\ exists srv',
       invalidate_search_cache Fixture.manager Fixture.server
       = (Return tt, srv')
       /\ lookup_live srv' (lit "search:0123") = None
       /\ redis_db srv' !! lit "embedding:4567"
          = redis_db Fixture.server !! lit "embedding:4567".
Proof.
  split; [reflexivity|]. split; [reflexivity|].
  destruct (invalidate_clears_search_keeps_embeddings
              Fixture.pickle_loads Fixture.results_loads Fixture.bytes_decode
              Fixture.py_print Fixture.manager Fixture.server eq_refl eq_refl)
    as (srv' & Hrun & Hview & Hkeep & _).
  exists srv'. split; [exact Hrun|]. split.
  - rewrite Hview. reflexivity.
  - apply Hkeep. reflexivity.
Defined.

Example invalidate_on_fixture :
  lookup_live Fixture.server (lit "search:0123") = Some [91; 93]
  /\ lookup_live
       (invalidate_search_cache Fixture.manager Fixture.server).2
       (lit "search:0123") = None
  /\ lookup_live
       (invalidate_search_cache Fixture.manager Fixture.server).2
       (lit "embedding:4567") = Some [128; 7].
Proof. repeat split; vm_compute; reflexivity. Qed.

(** C6, as stated, fails: a result list is cached; the store cannot be
    reached when [invalidate_search_cache] runs, which absorbs the error
    and returns; once the store is back the result list cached before is
    returned, not absent. *)
Lemma invalidate_during_outage_clears_nothing :
  set_search_results Fixture.results_dumps Fixture.manager (lit "x")
    (lit "[1, 2]") None default_search_ttl Fixture.empty_server
  = (Return tt, Fixture.cached_server)
  /\ invalidate_search_cache Fixture.manager Fixture.cached_server_down
     = (Return tt, Fixture.cached_server_down)
  /\ get_search_results Fixture.results_loads Fixture.bytes_decode
       Fixture.py_print Fixture.manager (lit "x") None
       Fixture.cached_server_back
     = (Return (Some (lit "[1, 2]")), Fixture.cached_server_back).
Proof. repeat split; vm_compute; reflexivity. Qed.

Lemma embedding_round_trip_witness :
  encodable (lit "shopping") = true
  /\ Fixture.py_print (embedding_hit_message (lit "shopping")) = Return tt
  /\ Fixture.pickle_loads [128; 1; 2; 3] = Return [1; 2; 3]
  /\ (set_embedding Fixture.pickle_dumps Fixture.manager (lit "shopping")
        [1; 2; 3] default_embedding_ttl Fixture.empty_server).1 = Return tt
  /\ (get_embedding Fixture.pickle_loads Fixture.py_print Fixture.manager
        (lit "shopping")
        (mk_redis true 3599
           (redis_db
              (set_embedding Fixture.pickle_dumps Fixture.manager
                 (lit "shopping") [1; 2; 3] default_embedding_ttl
                 Fixture.empty_server).2))).1
     = Return (Some [1; 2; 3]).
Proof.
  split; [reflexivity|]. split; [reflexivity|]. split; [reflexivity|].
  destruct (embedding_round_trip Fixture.pickle_dumps Fixture.pickle_loads
              Fixture.py_print Fixture.manager (lit "shopping") [1; 2; 3]
              default_embedding_ttl [128; 1; 2; 3] Fixture.empty_server
              (mk_redis true 3599
                 (redis_db
                    (set_embedding Fixture.pickle_dumps Fixture.manager
                       (lit "shopping") [1; 2; 3] default_embedding_ttl
                       Fixture.empty_server).2)))
    as [Hset Hget];
    [reflexivity | reflexivity | reflexivity | reflexivity | discriminate
     | reflexivity | reflexivity | reflexivity | reflexivity | reflexivity
     | reflexivity |].
  split; [exact Hset|]. now rewrite Hget.
Defined.

(** C7, as stated, fails: with the store reachable throughout and no
    time elapsed, caching a vector under the text made of the lone
    surrogate U+D800 stores nothing (the key cannot be derived, the
    error is absorbed), and the lookup that follows answers absent. *)
Lemma embedding_round_trip_fails_on_lone_surrogate :
  Fixture.pickle_loads [128; 1; 2; 3] = Return [1; 2; 3]
  /\ Fixture.pickle_dumps [1; 2; 3] = Return [128; 1; 2; 3]
  /\ set_embedding Fixture.pickle_dumps Fixture.manager [0xD800]
       [1; 2; 3] default_embedding_ttl Fixture.empty_server
     = (Return tt, Fixture.empty_server)
  /\ get_embedding Fixture.pickle_loads Fixture.py_print Fixture.manager
       [0xD800] Fixture.empty_server
     = (Return None, Fixture.empty_server).
Proof. repeat split. Qed.

(** The hit message matters: on a standard output in ASCII, the vector
    cached under a text with a character above U+007F is stored, and the
    lookup that follows finds it, fails to print and answers absent. *)
Example embedding_hit_lost_on_ascii_stdout :
  encodable (lit "buy " ++ [0x1F600]) = true
  /\ lookup_live
       (set_embedding Fixture.pickle_dumps Fixture.manager
          (lit "buy " ++ [0x1F600]) [1; 2; 3] default_embedding_ttl
          Fixture.empty_server).2
       (lit "embedding:" ++ MD5.hexdigest [98; 117; 121; 32; 240; 159; 152; 128])
     = Some [128; 1; 2; 3]
  /\ (get_embedding Fixture.pickle_loads Fixture.ascii_print Fixture.manager
        (lit "buy " ++ [0x1F600])
        (set_embedding Fixture.pickle_dumps Fixture.manager
           (lit "buy " ++ [0x1F600]) [1; 2; 3] default_embedding_ttl
           Fixture.empty_server).2).1
     = Return None
  /\ (get_embedding Fixture.pickle_loads Fixture.py_print Fixture.manager
        (lit "buy " ++ [0x1F600])
        (set_embedding Fixture.pickle_dumps Fixture.manager
           (lit "buy " ++ [0x1F600]) [1; 2; 3] default_embedding_ttl
           Fixture.empty_server).2).1
     = Return (Some [1; 2; 3]).
Proof. repeat split; vm_compute; reflexivity. Qed.



(** A result list cached without filters is found with an empty filter
    mapping, and the other way round. *)
Example cached_without_filters_found_with_empty_filters :
  (get_search_results Fixture.results_loads Fixture.bytes_decode
     Fixture.py_print Fixture.manager (lit "x") (Some [])
     (set_search_results Fixture.results_dumps Fixture.manager (lit "x")
        (lit "[]") None default_search_ttl Fixture.empty_server).2).1
  = Return (Some (lit "[]"))
  /\ (get_search_results Fixture.results_loads Fixture.bytes_decode
        Fixture.py_print Fixture.manager (lit "x") None
        (set_search_results Fixture.results_dumps Fixture.manager (lit "x")
           (lit "[]") (Some []) default_search_ttl Fixture.empty_server).2).1
     = Return (Some (lit "[]")).
Proof. split; vm_compute; reflexivity. Qed.

(** * Further properties *)

(** ** cache_manager.py *)

Lemma search_prefix_not_embedding k :
  has_prefix (lit "search:") k = true ->
  has_prefix (lit "embedding:") k = false.
Proof.
  destruct k as [|x k]; [discriminate|]. cbn [lit has_prefix].
  intros H. apply andb_prop in H as [Hx _]. apply Z.eqb_eq in Hx. subst x.
  reflexivity.
Qed.

Lemma redis_get_unchanged key srv : exists r, Redis.get key srv = (r, srv).
Proof.
  unfold Redis.get, Redis.connected, bind, lift.
  destruct (redis_up srv); [|eauto].
  destruct (str_encode key) as [k|e]; [|eauto].
  destruct (redis_db srv !! k) as [e|]; [|eauto].
  destruct (live (redis_now srv) e); eauto.
Qed.

Lemma redis_get_down key srv :
  redis_up srv = false -> Redis.get key srv = (Raise ConnectionError, srv).
Proof.
  intros Hdown. unfold Redis.get, Redis.connected, bind. now rewrite Hdown.
Qed.

(** [SETEX] either leaves the server as it is or binds the encoded key. *)
Lemma redis_setex_cases key ttl value srv :
  exists r srv',
    Redis.setex key ttl value srv = (r, srv')
    /\ (srv' = srv
        \/ (0 < ttl
            /\ exists k, str_encode key = Return k
                 /\ srv' = mk_redis (redis_up srv) (redis_now srv)
                             (<[k := (value, redis_now srv + ttl)]>
                                (redis_db srv)))).
Proof.
  unfold Redis.setex, Redis.connected, bind, lift, raise.
  destruct (redis_up srv) eqn:Hup; [|eauto].
  destruct (str_encode key) as [k|e]; [|eauto].
  destruct (ttl <=? 0) eqn:Httl; [eauto|].
  apply Z.leb_gt in Httl.
  eexists; eexists. split; [reflexivity|]. right. split; [exact Httl|].
  exists k. split; [reflexivity|]. now rewrite Hup.
Qed.

Section CacheExtras.

Context {ndarray results : Type}.
Variable pickle_dumps : ndarray -> outcome bytes.
Variable pickle_loads : bytes -> outcome ndarray.
Variable results_dumps : results -> outcome pystr.
Variable results_loads : pystr -> outcome results.
Variable bytes_decode : bytes -> outcome pystr.
Variable py_print : pystr -> outcome unit.

Local Notation get_embedding' := (get_embedding pickle_loads py_print).
Local Notation set_embedding' := (set_embedding pickle_dumps).
Local Notation get_search_results' :=
  (get_search_results results_loads bytes_decode py_print).
Local Notation set_search_results' := (set_search_results results_dumps).

(** A lookup never changes the store: hit, miss, corrupt entry, store
    down or manager without client, the server is left as it was. *)
Theorem lookups_leave_store_unchanged
    (self : VectorCacheManager) (text query : pystr)
    (filters : option pydict) (srv : redis_server) :
  (get_embedding' self text srv).2 = srv
  /\ (get_search_results' self query filters srv).2 = srv.
Proof.
  split.
  - unfold get_embedding. destruct (redis_client self); [|reflexivity].
    unfold try_except, bind at 1, lift.
    destruct (_generate_cache_key text (lit "embedding")) as [key|e];
      [|reflexivity].
    unfold bind. destruct (redis_get_unchanged key srv) as [got Hgot].
    rewrite Hgot. destruct got as [[c|]|e]; try reflexivity.
    destruct (truthy c); [|reflexivity].
    unfold lift. destruct (pickle_loads c); [|reflexivity].
    now destruct (py_print (embedding_hit_message text)).
  - unfold get_search_results. destruct (redis_client self); [|reflexivity].
    unfold try_except, bind at 1, lift.
    destruct (search_cache_key query filters) as [key|e]; [|reflexivity].
    unfold bind. destruct (redis_get_unchanged key srv) as [got Hgot].
    rewrite Hgot. destruct got as [[c|]|e]; try reflexivity.
    destruct (truthy c); [|reflexivity].
    unfold lift. destruct (bytes_decode c) as [t|]; [|reflexivity].
    destruct (results_loads t); [|reflexivity].
    now destruct (py_print (search_hit_message query)).
Qed.

(** A lookup while the store is down answers absent. *)
Lemma lookups_miss_when_down
    (self : VectorCacheManager) (text query : pystr)
    (filters : option pydict) (srv : redis_server) :
  redis_up srv = false ->
  get_embedding' self text srv = (Return None, srv)
  /\ get_search_results' self query filters srv = (Return None, srv).
Proof.
  intros Hdown. split.
  - unfold get_embedding. destruct (redis_client self); [|reflexivity].
    unfold try_except, bind at 1, lift.
    destruct (_generate_cache_key text (lit "embedding")) as [key|e];
      [|reflexivity].
    unfold bind. now rewrite redis_get_down.
  - unfold get_search_results. destruct (redis_client self); [|reflexivity].
    unfold try_except, bind at 1, lift.
    destruct (search_cache_key query filters) as [key|e]; [|reflexivity].
    unfold bind. now rewrite redis_get_down.
Qed.

(** Writing with a TTL that is not positive stores nothing: the store
    refuses the expiry, the error is absorbed, and whatever was cached
    under the key stays as it was. *)
Theorem nonpositive_ttl_stores_nothing
    (self : VectorCacheManager) (text query : pystr) (v : ndarray)
    (res : results) (filters : option pydict) (ttl : Z)
    (srv : redis_server) :
  ttl <= 0 ->
  set_embedding' self text v ttl srv = (Return tt, srv)
  /\ set_search_results' self query res filters ttl srv = (Return tt, srv).
Proof.
  intros Httl. split.
  - unfold set_embedding. destruct (redis_client self); [|reflexivity].
    unfold try_except, bind, lift.
    destruct (_generate_cache_key text (lit "embedding")) as [key|e];
      [|reflexivity].
    destruct (pickle_dumps v) as [b|e]; [|reflexivity].
    destruct (redis_setex_cases key ttl b srv)
      as (out & srv' & Hset & [Hsame|[Hpos _]]); [|lia].
    rewrite Hset, Hsame. now destruct out.
  - unfold set_search_results. destruct (redis_client self); [|reflexivity].
    unfold try_except, bind, lift.
    destruct (search_cache_key query filters) as [key|e]; [|reflexivity].
    destruct (results_dumps res) as [t|e]; [|reflexivity].
    destruct (str_encode t) as [b|e]; [|reflexivity].
    destruct (redis_setex_cases key ttl b srv)
      as (out & srv' & Hset & [Hsame|[Hpos _]]); [|lia].
    rewrite Hset, Hsame. now destruct out.
Qed.

(** Once the TTL has elapsed the cached embedding is gone: a lookup at
    or after the expiry instant answers absent. *)
Theorem embedding_expires
    (self : VectorCacheManager) (text : pystr) (v : ndarray) (ttl : Z)
    (b : bytes) (srv later : redis_server) :
  redis_client self = Some RedisClient ->
  encodable text = true -> pickle_dumps v = Return b ->
  redis_up srv = true -> 0 < ttl ->
  redis_now srv + ttl <= redis_now later ->
  redis_db later = redis_db (set_embedding' self text v ttl srv).2 ->
  get_embedding' self text later = (Return None, later).
Proof.
  intros Hc Henc Hb Hup Httl Hnow Hdb.
  destruct (cache_key_returns_on_encodable text (lit "embedding") Henc)
    as (key & Hkey).
  rewrite (set_embedding_up pickle_dumps self text v ttl srv RedisClient key b
             Hc Hup Httl Hkey Hb) in Hdb.
  cbn [snd redis_db] in Hdb.
  destruct (redis_up later) eqn:Hup'.
  - rewrite (get_embedding_up pickle_loads py_print self text later
               RedisClient Hc Hup'), Hkey.
    unfold lookup_live. rewrite Hdb, lookup_insert_eq.
    unfold live. cbn [fst snd].
    replace (redis_now later <? redis_now srv + ttl) with false
      by (symmetry; apply Z.ltb_ge; lia).
    reflexivity.
  - unfold get_embedding. rewrite Hc.
    unfold try_except, bind at 1, lift. rewrite Hkey.
    unfold bind. now rewrite redis_get_down.
Qed.

(** The two namespaces never meet: no text has an embedding key that is
    the search key of some query and filters. *)
Theorem embedding_and_search_keys_differ
    (text query : pystr) (filters : option pydict) (k1 k2 : pystr) :
  _generate_cache_key text (lit "embedding") = Return k1 ->
  search_cache_key query filters = Return k2 ->
  k1 <> k2.
Proof.
  intros H1 H2 Heq. subst k2.
  apply embedding_key_prefix in H1 as [_ H1].
  apply search_key_prefix in H2. congruence.
Qed.

(** The search key is always derived, lone surrogates in the query or
    not: [json.dumps] escapes them.  It is ["search:"] followed by 32
    hex digits. *)
Theorem search_key_always_derived (query : pystr) (filters : option pydict) :
  exists key,
    search_cache_key query filters = Return key
    /\ has_prefix (lit "search:") key = true
    /\ length key = 39%nat
    /\ ascii_str key = true.
Proof.
  eexists. split; [apply search_cache_key_returns|].
  split; [reflexivity|]. split.
  - rewrite !length_app, hexdigest_length. reflexivity.
  - rewrite !ascii_str_app. cbn [andb lit ascii_str forallb is_ascii].
    apply hex_chars_ascii, hexdigest_hex.
Qed.

(** *** The two caches do not disturb each other *)

Lemma set_embedding_effect (self : VectorCacheManager) text v ttl srv :
  exists srv',
    set_embedding' self text v ttl srv = (Return tt, srv')
    /\ redis_up srv' = redis_up srv /\ redis_now srv' = redis_now srv
    /\ forall k, has_prefix (lit "embedding:") k = false ->
                 redis_db srv' !! k = redis_db srv !! k.
Proof.
  unfold set_embedding. destruct (redis_client self); [|exists srv; auto].
  unfold try_except, bind, lift.
  destruct (_generate_cache_key text (lit "embedding")) as [key|e] eqn:Hkey;
    [|exists srv; auto].
  destruct (pickle_dumps v) as [b|e]; [|exists srv; auto].
  destruct (redis_setex_cases key ttl b srv)
    as (out & srv' & Hset & [Hsame|(_ & k & Hk & Hsrv')]); rewrite Hset.
  - subst srv'. exists srv. split; [now destruct out|]. auto.
  - exists srv'. split; [now destruct out|]. subst srv'.
    cbn [redis_up redis_now redis_db]. split; [reflexivity|].
    split; [reflexivity|]. intros k' Hk'.
    rewrite (str_encode_ascii key) in Hk
      by now apply (cache_key_ascii text (lit "embedding")).
    injection Hk as <-.
    apply lookup_insert_ne. intros <-.
    apply embedding_key_prefix in Hkey as [Hkey _]. congruence.
Qed.

Lemma set_search_results_effect (self : VectorCacheManager) query res
    filters ttl srv :
  exists srv',
    set_search_results' self query res filters ttl srv = (Return tt, srv')
    /\ redis_up srv' = redis_up srv /\ redis_now srv' = redis_now srv
    /\ forall k, has_prefix (lit "search:") k = false ->
                 redis_db srv' !! k = redis_db srv !! k.
Proof.
  unfold set_search_results. destruct (redis_client self); [|exists srv; auto].
  unfold try_except, bind, lift.
  destruct (search_cache_key query filters) as [key|e] eqn:Hkey;
    [|exists srv; auto].
  destruct (results_dumps res) as [t|e]; [|exists srv; auto].
  destruct (str_encode t) as [b|e]; [|exists srv; auto].
  destruct (redis_setex_cases key ttl b srv)
    as (out & srv' & Hset & [Hsame|(_ & k & Hk & Hsrv')]); rewrite Hset.
  - subst srv'. exists srv. split; [now destruct out|]. auto.
  - exists srv'. split; [now destruct out|]. subst srv'.
    cbn [redis_up redis_now redis_db]. split; [reflexivity|].
    split; [reflexivity|]. intros k' Hk'.
    unfold search_cache_key in Hkey.
    rewrite (str_encode_ascii key) in Hk
      by now apply (cache_key_ascii (search_cache_str query filters)
                      (lit "search")).
    injection Hk as <-.
    apply lookup_insert_ne. intros <-.
    apply search_key_prefix in Hkey. congruence.
Qed.

(** A lookup depends on the state of the store, the clock and the
    entries of its own namespace only. *)
Lemma get_search_results_agree (self : VectorCacheManager) query filters
    (srv1 srv2 : redis_server) :
  redis_up srv1 = redis_up srv2 -> redis_now srv1 = redis_now srv2 ->
  (forall k, has_prefix (lit "search:") k = true ->
             redis_db srv1 !! k = redis_db srv2 !! k) ->
  (get_search_results' self query filters srv1).1
  = (get_search_results' self query filters srv2).1.
Proof.
  intros Hup Hnow Hdb.
  destruct (redis_client self) as [h|] eqn:Hc;
    [|unfold get_search_results; now rewrite Hc].
  destruct (redis_up srv1) eqn:Hup1.
  - rewrite (get_search_results_up results_loads bytes_decode py_print
               self query
               filters srv1 h Hc Hup1).
    rewrite (get_search_results_up results_loads bytes_decode py_print
               self query
               filters srv2 h Hc (eq_sym Hup)).
    rewrite search_cache_key_returns. cbn [fst].
    unfold lookup_live. rewrite Hdb by reflexivity. now rewrite Hnow.
  - rewrite (proj2 (lookups_miss_when_down self query query filters srv1 Hup1)).
    now rewrite (proj2 (lookups_miss_when_down self query query filters srv2
                          (eq_sym Hup))).
Qed.

Lemma get_embedding_agree (self : VectorCacheManager) text
    (srv1 srv2 : redis_server) :
  redis_up srv1 = redis_up srv2 -> redis_now srv1 = redis_now srv2 ->
  (forall k, has_prefix (lit "embedding:") k = true ->
             redis_db srv1 !! k = redis_db srv2 !! k) ->
  (get_embedding' self text srv1).1 = (get_embedding' self text srv2).1.
Proof.
  intros Hup Hnow Hdb.
  destruct (redis_client self) as [h|] eqn:Hc;
    [|unfold get_embedding; now rewrite Hc].
  destruct (redis_up srv1) eqn:Hup1.
  - rewrite (get_embedding_up pickle_loads py_print self text srv1 h Hc Hup1).
    rewrite (get_embedding_up pickle_loads py_print self text srv2 h Hc (eq_sym Hup)).
    cbn [fst].
    destruct (_generate_cache_key text (lit "embedding")) as [key|] eqn:Hkey;
      [|reflexivity].
    apply embedding_key_prefix in Hkey as [Hkey _].
    unfold lookup_live. rewrite (Hdb key Hkey). now rewrite Hnow.
  - rewrite (proj1 (lookups_miss_when_down self text text None srv1 Hup1)).
    now rewrite (proj1 (lookups_miss_when_down self text text None srv2
                          (eq_sym Hup))).
Qed.

(** Caching an embedding changes the answer of no search lookup, and
    caching a result list changes the answer of no embedding lookup,
    whatever the texts, queries, filters and managers involved. *)
Theorem caches_do_not_interfere
    (writer reader : VectorCacheManager) (text query : pystr)
    (filters : option pydict) (v : ndarray) (res : results) (ttl : Z)
    (text' query' : pystr) (filters' : option pydict)
    (srv : redis_server) :
  (get_search_results' reader query' filters'
     (set_embedding' writer text v ttl srv).2).1
  = (get_search_results' reader query' filters' srv).1
  /\ (get_embedding' reader text'
        (set_search_results' writer query res filters ttl srv).2).1
     = (get_embedding' reader text' srv).1.
Proof.
  split.
  - destruct (set_embedding_effect writer text v ttl srv)
      as (srv' & Hset & Hup & Hnow & Hdb).
    rewrite Hset. cbn [snd].
    apply get_search_results_agree; auto.
    intros k Hk. apply Hdb. now apply search_prefix_not_embedding.
  - destruct (set_search_results_effect writer query res filters ttl srv)
      as (srv' & Hset & Hup & Hnow & Hdb).
    rewrite Hset. cbn [snd].
    apply get_embedding_agree; auto.
    intros k Hk. apply Hdb. now apply embedding_prefix_not_search.
Qed.

(** *** Corrupt entries *)

(** An entry that cannot be unpickled is a miss: the lookup answers
    absent, raises nothing and leaves the entry where it is. *)
Theorem corrupt_entry_is_a_miss
    (self : VectorCacheManager) (text key : pystr) (c : bytes) (e : exn)
    (srv : redis_server) :
  redis_client self = Some RedisClient -> redis_up srv = true ->
  _generate_cache_key text (lit "embedding") = Return key ->
  lookup_live srv key = Some c -> pickle_loads c = Raise e ->
  get_embedding' self text srv = (Return None, srv).
Proof.
  intros Hc Hup Hkey Hlive Hloads.
  rewrite (get_embedding_up pickle_loads py_print self text srv RedisClient Hc Hup).
  rewrite Hkey, Hlive, Hloads. now destruct (truthy c).
Qed.

(** *** Invalidation *)

(** Invalidating twice is invalidating once. *)
Theorem invalidate_is_idempotent
    (self : VectorCacheManager) (srv : redis_server) :
  invalidate_search_cache self (invalidate_search_cache self srv).2
  = (Return tt, (invalidate_search_cache self srv).2).
Proof.
  destruct (redis_client self) as [h|] eqn:Hc;
    [|unfold invalidate_search_cache; now rewrite Hc].
  destruct (redis_up srv) eqn:Hup.
  - destruct (invalidate_up self srv h Hc Hup)
      as (srv' & Hrun & Hup' & Hnow & Hdb).
    rewrite Hrun. cbn [snd].
    unfold invalidate_search_cache. rewrite Hc.
    destruct (redis_keys_search_up srv' Hup') as (ks & Hks & Hin).
    unfold try_except, bind at 1. rewrite Hks.
    destruct ks as [|k ks]; [reflexivity|]. exfalso.
    destruct (proj1 (Hin k)) as [[c Hlive] Hp]; [left|].
    unfold lookup_live in Hlive. rewrite Hdb, Hnow in Hlive.
    destruct (decide _) as [_|Hn]; [discriminate|].
    apply Hn. split; [|exact Hp].
    unfold lookup_live. destruct (redis_db srv !! k) as [x|]; [|discriminate].
    destruct (live (redis_now srv) x); [now eexists | discriminate].
  - assert (Hsame : invalidate_search_cache self srv = (Return tt, srv)).
    { unfold invalidate_search_cache. rewrite Hc.
      unfold try_except, bind, Redis.keys, bind, Redis.connected.
      now rewrite Hup. }
    rewrite Hsame. exact Hsame.
Qed.

End CacheExtras.

(** ** cache_manager.py: statistics *)

Lemma redis_keys_prefix_up pre srv :
  Forall (fun c => c <> 42 /\ c <> 63) pre -> ascii_str pre = true ->
  redis_up srv = true ->
  Redis.keys (pre ++ [42]) srv
  = (Return
       (map fst
          (filter (fun kv : list Z * (list Z * Z) =>
                     live (redis_now srv) kv.2 = true
                     /\ has_prefix pre kv.1 = true)
                  (map_to_list (redis_db srv)))), srv).
Proof.
  intros Hpre Hascii Hup. unfold Redis.keys, Redis.connected, bind, lift.
  rewrite Hup.
  rewrite (str_encode_ascii (pre ++ [42]))
    by (rewrite ascii_str_app, Hascii; reflexivity).
  do 3 f_equal. apply list_filter_iff. intros [k e]. cbn [fst snd].
  now rewrite glob_match_prefix.
Qed.

Lemma live_under_keys pre srv :
  Forall (fun c => c <> 42 /\ c <> 63) pre -> ascii_str pre = true ->
  redis_up srv = true ->
  Redis.keys (pre ++ [42]) srv
  = (Return
       (map fst
          (filter (fun kv : list Z * (list Z * Z) =>
                     live (redis_now srv) kv.2 = true
                     /\ has_prefix pre kv.1 = true)
                  (map_to_list (redis_db srv)))), srv)
  /\ len (map fst
            (filter (fun kv : list Z * (list Z * Z) =>
                       live (redis_now srv) kv.2 = true
                       /\ has_prefix pre kv.1 = true)
                    (map_to_list (redis_db srv))))
     = live_under pre srv.
Proof.
  intros Hpre Hascii Hup. split; [now apply redis_keys_prefix_up|].
  unfold len, live_under. now rewrite length_map.
Qed.

Lemma literal_prefix_embedding :
  Forall (fun c => c <> 42 /\ c <> 63) (lit "embedding:").
Proof.
  repeat (apply List.Forall_cons; [split; discriminate|]).
  apply List.Forall_nil.
Qed.

Lemma literal_prefix_search :
  Forall (fun c => c <> 42 /\ c <> 63) (lit "search:").
Proof.
  repeat (apply List.Forall_cons; [split; discriminate|]).
  apply List.Forall_nil.
Qed.

(** Counting the live keys under a prefix looks at those keys only. *)
Lemma live_under_agree pre (srv srv' : redis_server) :
  redis_now srv' = redis_now srv ->
  (forall k, has_prefix pre k = true ->
             redis_db srv' !! k = redis_db srv !! k) ->
  live_under pre srv' = live_under pre srv.
Proof.
  intros Hnow Hdb. unfold live_under. f_equal.
  apply Permutation_length, NoDup_Permutation.
  - apply NoDup_filter, NoDup_map_to_list.
  - apply NoDup_filter, NoDup_map_to_list.
  - intros [k e]. rewrite !list_elem_of_filter, !elem_of_map_to_list.
    cbn [fst snd]. rewrite Hnow. split; intros [[Hl Hp] Hin];
      (split; [now split|]); [rewrite <- Hdb | rewrite Hdb]; auto.
Qed.

Lemma live_under_none pre (srv : redis_server) :
  (forall k, has_prefix pre k = true -> lookup_live srv k = None) ->
  live_under pre srv = 0.
Proof.
  intros Hnone. unfold live_under.
  destruct (filter _ _) as [|[k e] l] eqn:Hf; [reflexivity|]. exfalso.
  assert (Hin : (k, e) ∈ (k, e) :: l) by left.
  rewrite <- Hf in Hin.
  apply list_elem_of_filter in Hin as [[Hl Hp] Hin].
  apply elem_of_map_to_list in Hin. cbn [fst snd] in *.
  specialize (Hnone k Hp). unfold lookup_live in Hnone.
  rewrite Hin, Hl in Hnone. discriminate.
Qed.

Lemma disjoint_filters_length {A} (P Q : A -> Prop)
    `{!forall x, Decision (P x)} `{!forall x, Decision (Q x)} (l : list A) :
  (forall x, P x -> Q x -> False) ->
  (length (filter P l) + length (filter Q l) <= length l)%nat.
Proof.
  intros Hdisj. induction l as [|x l IH]; [reflexivity|].
  rewrite !filter_cons.
  destruct (decide (P x)) as [HP|HP], (decide (Q x)) as [HQ|HQ];
    cbn [length]; try lia.
  exfalso. eauto.
Qed.

Lemma live_under_bounded (srv : redis_server) :
  0 <= live_under (lit "embedding:") srv
  /\ 0 <= live_under (lit "search:") srv
  /\ live_under (lit "embedding:") srv + live_under (lit "search:") srv
     <= Z.of_nat (size (redis_db srv)).
Proof.
  unfold live_under. split; [lia|]. split; [lia|].
  rewrite <- length_map_to_list.
  pose proof (disjoint_filters_length
                (fun kv : list Z * (list Z * Z) =>
                   live (redis_now srv) kv.2 = true
                   /\ has_prefix (lit "embedding:") kv.1 = true)
                (fun kv : list Z * (list Z * Z) =>
                   live (redis_now srv) kv.2 = true
                   /\ has_prefix (lit "search:") kv.1 = true)
                (map_to_list (redis_db srv))) as H.
  assert (Hd : forall x : list Z * (list Z * Z),
             live (redis_now srv) x.2 = true
             /\ has_prefix (lit "embedding:") x.1 = true ->
             live (redis_now srv) x.2 = true
             /\ has_prefix (lit "search:") x.1 = true -> False).
  { intros x [_ He] [_ Hs].
    rewrite (embedding_prefix_not_search _ He) in Hs. discriminate. }
  specialize (H Hd). lia.
Qed.

Section StatsExtras.

Variable used_memory_human : redis_server -> option pystr.

Local Notation get_cache_stats' := (get_cache_stats used_memory_human).

Lemma get_cache_stats_value
    (self : VectorCacheManager) (srv : redis_server) :
  get_cache_stats' self srv
  = (Return
       match redis_client self with
       | None => StatsDisconnected
       | Some _ =>
           if redis_up srv then
             StatsConnected
               (Z.of_nat (size (redis_db srv)))
               (live_under (lit "embedding:") srv)
               (live_under (lit "search:") srv)
               (get_default (used_memory_human srv) (lit "N/A"))
           else StatsError ConnectionError
       end, srv).
Proof.
  unfold get_cache_stats. destruct (redis_client self); [|reflexivity].
  unfold try_except, bind at 1.
  unfold redis_info_command, Redis.connected, bind at 1.
  destruct (redis_up srv) eqn:Hup; [|reflexivity].
  unfold bind at 1.
  destruct (live_under_keys (lit "embedding:") srv literal_prefix_embedding
              eq_refl Hup) as [Hk He].
  change (lit "embedding:" ++ [42]) with (lit "embedding:*") in Hk.
  rewrite Hk. unfold bind at 1.
  destruct (live_under_keys (lit "search:") srv literal_prefix_search
              eq_refl Hup) as [Hk' Hs].
  change (lit "search:" ++ [42]) with (lit "search:*") in Hk'.
  rewrite Hk'. unfold ret. rewrite He, Hs. cbn [info_db0_keys
    info_used_memory_human].
  do 3 f_equal.
  destruct (decide (size (redis_db srv) = 0%nat)) as [H0|H0];
    cbn [get_default]; [now rewrite H0 | reflexivity].
Qed.

(** [get_cache_stats] never raises and never writes.  Without client it
    reports "disconnected"; with a client and the store down it reports
    the connection error; otherwise it reports the number of keys the
    database holds, the numbers of live keys under ["embedding:"] and
    under ["search:"], and the memory the server reports (["N/A"] if it
    reports none). *)
Theorem get_cache_stats_reports
    (self : VectorCacheManager) (srv : redis_server) :
  get_cache_stats' self srv
  = (Return
       match redis_client self with
       | None => StatsDisconnected
       | Some _ =>
           if redis_up srv then
             StatsConnected
               (Z.of_nat (size (redis_db srv)))
               (live_under (lit "embedding:") srv)
               (live_under (lit "search:") srv)
               (get_default (used_memory_human srv) (lit "N/A"))
           else StatsError ConnectionError
       end, srv).
Proof. apply get_cache_stats_value. Qed.

(** The entries reported for the two namespaces never add up to more
    than the total number of keys reported. *)
Theorem stats_entries_within_total
    (self : VectorCacheManager) (srv srv' : redis_server)
    (total e s : Z) (m : pystr) :
  get_cache_stats' self srv = (Return (StatsConnected total e s m), srv') ->
  0 <= e /\ 0 <= s /\ e + s <= total.
Proof.
  rewrite get_cache_stats_value.
  destruct (redis_client self); [|discriminate].
  destruct (redis_up srv); [|discriminate].
  intros [= <- <- <- _ _]. apply live_under_bounded.
Qed.

(** After [invalidate_search_cache] on a reachable store the statistics
    report no search entry and as many embedding entries as before. *)
Theorem stats_after_invalidate
    (self : VectorCacheManager) (srv : redis_server) :
  redis_client self = Some RedisClient -> redis_up srv = true ->
  exists total memory,
    (get_cache_stats' self (invalidate_search_cache self srv).2).1
    = Return (StatsConnected total (live_under (lit "embedding:") srv) 0
                             memory).
Proof.
  intros Hc Hup.
  destruct (invalidate_up self srv RedisClient Hc Hup)
    as (srv' & Hrun & Hup' & Hnow & Hdb).
  rewrite Hrun. cbn [snd]. rewrite get_cache_stats_value, Hc, Hup'.
  cbn [fst]. eexists. eexists. f_equal. f_equal.
  - apply live_under_agree; [exact Hnow|].
    intros k Hk. rewrite Hdb. rewrite decide_False; [reflexivity|].
    intros [_ Hs]. rewrite (embedding_prefix_not_search k Hk) in Hs.
    discriminate.
  - apply live_under_none. intros k Hk.
    unfold lookup_live. rewrite Hdb, Hnow.
    destruct (decide _) as [_|Hn]; [reflexivity|].
    destruct (redis_db srv !! k) as [x|] eqn:Hx; [|reflexivity].
    destruct (live (redis_now srv) x) eqn:Hl; [|reflexivity].
    exfalso. apply Hn. split; [|exact Hk].
    unfold lookup_live. rewrite Hx, Hl. now eexists.
Qed.

End StatsExtras.

(** ** vector_search.py *)

Section SearchExtras.

Context {num : Type}.
Variable num_le : relation num.
Context `{!RelDecision num_le}.
Variable one_minus : num -> num.
Variable distance : list num -> list num -> num.
Variable model_encode : pystr -> outcome (list num).

Local Notation generate_embedding' := (generate_embedding model_encode).
Local Notation vector_search' :=
  (vector_search num_le one_minus distance model_encode).
Local Notation update_all_embeddings' := (update_all_embeddings model_encode).
Local Notation update_all_embeddings_try' :=
  (update_all_embeddings_try model_encode).
Local Notation update_task_embedding' := (update_task_embedding model_encode).
Local Notation backfill' := (backfill model_encode).
Local Notation result_of_row' := (result_of_row one_minus).
Local Notation by_distance' := (by_distance num_le).
Local Notation with_distance' := (with_distance distance).
Local Notation database' := (@database num).
Local Notation task' := (@task num).

(** *** vector_search *)

(** [vector_search] always returns, and never changes the committed
    table: it neither commits nor rolls back. *)
Theorem vector_search_returns_and_commits_nothing
    (query : option pystr) (limit : Z) (db : database') :
  exists results db',
    vector_search' query limit db = (Return results, db')
    /\ db_tasks db' = db_tasks db.
Proof.
  unfold vector_search.
  destruct (usable (generate_embedding' query)) as [qe|];
    [|exists [], db; split; reflexivity].
  unfold try_except, bind, ret.
  destruct (connection_cursor db) as [[[]|e] db1] eqn:Hcur;
    apply connection_call_frame in Hcur as [Ht _];
    [|exists [], db1; split; [reflexivity | exact Ht]].
  destruct (execute_select_nearest num_le distance qe limit db1)
    as [[rows|e] db2] eqn:Hsel; apply statement_frame in Hsel;
    eexists; exists db2; (split; [reflexivity | congruence]).
Qed.

Lemma candidates_length (qe : list num) (view : list task') :
  length (omap (with_distance' qe) view)
  = length (filter (fun t => has_embedding t = true) view).
Proof.
  induction view as [|t view IH]; [reflexivity|].
  cbn [omap list_omap]. rewrite filter_cons.
  destruct (task_embedding t) as [e|] eqn:He.
  - rewrite decide_True by (unfold has_embedding; now rewrite He).
    unfold with_distance at 1. rewrite He. cbn [length]. now rewrite <- IH.
  - rewrite decide_False
      by (unfold has_embedding; rewrite He; discriminate).
    unfold with_distance at 1. rewrite He. exact IH.
Qed.

Lemma vector_search_on_reliable
    (query : option pystr) (limit : Z) (db : database') (qe : list num) :
  reliable db -> usable (generate_embedding' query) = Some qe ->
  0 <= limit ->
  exists results db',
    vector_search' query limit db = (Return results, db')
    /\ results
       = map result_of_row'
           (take (Z.to_nat limit)
              (merge_sort by_distance'
                 (omap (with_distance' qe) (txn_view db))))
    /\ length results
       = Nat.min (Z.to_nat limit)
           (length (filter (fun t => has_embedding t = true) (txn_view db)))
    /\ reliable db' /\ db_tasks db' = db_tasks db
    /\ txn_view db' = txn_view db.
Proof.
  intros Hrel Hgen Hlimit. unfold vector_search. rewrite Hgen.
  unfold try_except, bind at 1. unfold connection_cursor.
  destruct (reliable_call db Hrel) as (d0 & -> & Ht0 & Hx0 & Hrel0).
  assert (Hview0 : txn_view d0 = txn_view db)
    by (unfold txn_view; now rewrite Ht0, Hx0).
  unfold bind, execute_select_nearest.
  edestruct (reliable_statement
               (fun view =>
                  if limit <? 0 then Raise DatabaseError
                  else Return
                         (take (Z.to_nat limit)
                            (merge_sort by_distance'
                               (omap (with_distance' qe) view)), view))
               d0) as (d1 & -> & Ht1 & Hx1 & Hrel1); [exact Hrel0 | |].
  { replace (limit <? 0) with false by (symmetry; apply Z.ltb_ge; lia).
    reflexivity. }
  unfold ret. eexists. exists d1. split; [reflexivity|].
  rewrite Hview0. split; [reflexivity|].
  split.
  - rewrite length_map, length_take.
    rewrite (Permutation_length (merge_sort_Permutation by_distance' _)).
    now rewrite candidates_length.
  - split; [exact Hrel1|]. split; [congruence|].
    unfold txn_view at 1. now rewrite Hx1.
Qed.

(** When every call succeeds and [limit] is not negative, the search
    returns exactly [min(limit, n)] records, [n] being the number of
    tasks with an embedding: [limit = 0] gives none, a [limit] of [n]
    or more gives them all. *)
Theorem vector_search_count
    (query : option pystr) (limit : Z) (db : database') (qe : list num) :
  reliable db -> usable (generate_embedding' query) = Some qe ->
  0 <= limit ->
  exists results db',
    vector_search' query limit db = (Return results, db')
    /\ length results
       = Nat.min (Z.to_nat limit)
           (length (filter (fun t => has_embedding t = true) (txn_view db))).
Proof.
  intros Hrel Hgen Hlimit.
  destruct (vector_search_on_reliable query limit db qe Hrel Hgen Hlimit)
    as (results & db' & Hrun & _ & Hlen & _).
  now exists results, db'.
Qed.

(** A failed transaction blinds the search: while the transaction of
    the connection is in the failed state, every search returns the
    empty list and leaves the transaction failed, for [vector_search]
    never rolls back. *)
Theorem failed_transaction_blinds_search
    (query : option pystr) (limit : Z) (db : database') :
  db_txn db = Aborted ->
  exists db',
    vector_search' query limit db = (Return [], db')
    /\ db_txn db' = Aborted.
Proof.
  intros Hab. unfold vector_search.
  destruct (usable (generate_embedding' query)) as [qe|];
    [|exists db; split; [reflexivity | exact Hab]].
  unfold try_except, bind, ret.
  destruct (connection_cursor db) as [[[]|e] db1] eqn:Hcur;
    apply connection_call_frame in Hcur as [Ht Hx];
    [|exists db1; split; [reflexivity | congruence]].
  unfold execute_select_nearest, statement.
  destruct (connection_call db1) as [[[]|e] db2] eqn:Hcall;
    apply connection_call_frame in Hcall as [Ht2 Hx2].
  - rewrite Hx2, Hx, Hab. exists db2. split; [reflexivity | congruence].
  - eexists. split; reflexivity.
Qed.

(** A search with a negative [limit] returns the empty list and leaves
    the transaction failed (the server refuses the statement and nothing
    rolls back), even on a connection whose calls all succeed. *)
Theorem negative_limit_fails_the_transaction
    (query : option pystr) (limit : Z) (db : database') (qe : list num) :
  reliable db -> usable (generate_embedding' query) = Some qe ->
  limit < 0 ->
  exists db',
    vector_search' query limit db = (Return [], db')
    /\ db_txn db' = Aborted.
Proof.
  intros Hrel Hgen Hlimit. unfold vector_search. rewrite Hgen.
  unfold try_except, bind at 1. unfold connection_cursor.
  destruct (reliable_call db Hrel) as (d0 & -> & Ht0 & Hx0 & [Hs0 Hna0]).
  unfold bind, execute_select_nearest, statement.
  destruct (reliable_call d0 (conj Hs0 Hna0))
    as (d1 & -> & Ht1 & Hx1 & [Hs1 Hna1]).
  replace (limit <? 0) with true by (symmetry; apply Z.ltb_lt; lia).
  destruct (db_txn d1); try congruence;
    (eexists; split; reflexivity).
Qed.

(** *** update_task_embedding *)

Lemma reliable_commit (db : database') :
  reliable db ->
  exists db', connection_commit db = (Return tt, db')
              /\ db_tasks db' = txn_view db /\ db_txn db' = Idle
              /\ reliable db'.
Proof.
  intros Hrel. unfold connection_commit, bind.
  destruct (reliable_call db Hrel) as (d & -> & Ht & Hx & [Hs Hna]).
  unfold txn_view. rewrite <- Hx, <- Ht.
  destruct (db_txn d) eqn:Hd; try congruence;
    (eexists; split; [reflexivity|]; cbn [db_tasks db_txn db_script];
     repeat split; auto; discriminate).
Qed.

Lemma commit_frame (db db' : database') r :
  connection_commit db = (r, db') ->
  (r = Return tt /\ db_tasks db' = txn_view db /\ db_txn db' = Idle)
  \/ ((exists e, r = Raise e) /\ db_tasks db' = db_tasks db
      /\ db_txn db' = db_txn db).
Proof.
  unfold connection_commit, bind.
  destruct (connection_call db) as [[[]|e] d] eqn:Hcall;
    apply connection_call_frame in Hcall as [Ht Hx].
  - unfold txn_view. rewrite <- Hx, <- Ht.
    destruct (db_txn d); intros [= <- <-]; left; auto.
  - intros [= <- <-]. right. split; [now eexists | auto].
Qed.

(** Without a description, or without an embedding for it, nothing is
    attempted: [False] is returned and the connection is not used. *)
Theorem update_task_embedding_needs_an_embedding
    (id : Z) (description : option pystr) (db : database') :
  usable (generate_embedding' description) = None ->
  update_task_embedding' id description db = (Return false, db).
Proof.
  intros Hgen. unfold update_task_embedding.
  destruct description as [[|c rest]|]; try reflexivity.
  now rewrite Hgen.
Qed.

(** [True] means committed, anything else means nothing changed: when
    [update_task_embedding] returns [True] the committed table is the
    one the connection saw with the new embedding on every row of that
    id and on no other row; when it returns [False] or raises, the
    committed table is as it was. *)
Theorem update_task_embedding_commits_or_changes_nothing
    (id : Z) (description : option pystr) (db db' : database')
    (r : outcome bool) :
  update_task_embedding' id description db = (r, db') ->
  (r = Return true
   /\ db_txn db' = Idle
   /\ exists e, usable (generate_embedding' description) = Some e
                /\ db_tasks db' = with_embedding e id (txn_view db))
  \/ ((r = Return false \/ exists e, r = Raise e)
      /\ db_tasks db' = db_tasks db).
Proof.
  unfold update_task_embedding.
  destruct description as [[|c rest]|];
    try (intros [= <- <-]; right; split; [now left | reflexivity]).
  destruct (usable (generate_embedding' (Some (c :: rest)))) as [e|] eqn:Hgen;
    [|intros [= <- <-]; right; split; [now left | reflexivity]].
  unfold try_except, bind, ret.
  assert (Hhandler : forall d0 : database',
            db_tasks d0 = db_tasks db ->
            forall r db',
              (let (o, s') := connection_rollback d0 in
               match o with
               | Return _ => (Return false, s')
               | Raise e0 => (Raise e0, s')
               end) = (r, db') ->
              (r = Return false \/ exists e, r = Raise e)
              /\ db_tasks db' = db_tasks db).
  { intros d0 Hd0 r0 db0.
    destruct (rollback_cases d0) as [(x & -> & Ht & _)|(x & -> & Ht & _)];
      intros [= <- <-]; (split; [|congruence]); [now left | right; now eexists]. }
  destruct (connection_cursor db) as [[[]|e0] d0] eqn:H0;
    apply connection_call_frame in H0 as [Ht0 Hx0];
    [|intros H; right; now apply (Hhandler d0 Ht0)].
  assert (Hview0 : txn_view d0 = txn_view db)
    by (unfold txn_view; now rewrite Ht0, Hx0).
  destruct (execute_update_embedding e id d0) as [[[]|e1] d1] eqn:H1.
  - pose proof (statement_frame _ _ _ _ H1) as Ht1.
    assert (Hx1 : db_txn d1 = InTxn (with_embedding e id (txn_view db))).
    { unfold execute_update_embedding, statement in H1.
      destruct (connection_call d0) as [[[]|e2] d] eqn:Hcall;
        [|discriminate].
      apply connection_call_frame in Hcall as [Htd Hxd].
      assert (Hviewd : txn_view d = txn_view d0)
        by (unfold txn_view; now rewrite Htd, Hxd).
      rewrite Hviewd, Hview0 in H1.
      destruct (db_txn d); try discriminate;
        injection H1 as Heq; rewrite <- Heq; reflexivity. }
    destruct (connection_commit d1) as [[[]|e2] d2] eqn:H2;
      apply commit_frame in H2
        as [(Hr & Ht2 & Hx2)|((e3 & Hr) & Ht2 & Hx2)];
      try discriminate Hr.
    + intros [= <- <-]. left. split; [reflexivity|]. split; [exact Hx2|].
      exists e. split; [reflexivity|].
      rewrite Ht2. unfold txn_view. now rewrite Hx1.
    + intros H. right. apply (Hhandler d2); [congruence | exact H].
  - apply statement_frame in H1.
    intros H. right. apply (Hhandler d1); [congruence | exact H].
Qed.

Lemma update_task_embedding_on_reliable
    (id : Z) (description : option pystr) (db : database') (e : list num) :
  reliable db ->
  description <> None -> description <> Some [] ->
  usable (generate_embedding' description) = Some e ->
  exists db',
    update_task_embedding' id description db = (Return true, db')
    /\ db_tasks db' = with_embedding e id (txn_view db)
    /\ db_txn db' = Idle /\ reliable db'.
Proof.
  intros Hrel Hsome Hne Hgen. unfold update_task_embedding.
  destruct description as [[|c rest]|]; try congruence.
  rewrite Hgen.
  unfold try_except, bind at 1. unfold connection_cursor.
  destruct (reliable_call db Hrel) as (d0 & -> & Ht0 & Hx0 & Hrel0).
  assert (Hview0 : txn_view d0 = txn_view db)
    by (unfold txn_view; now rewrite Ht0, Hx0).
  unfold bind at 1. unfold execute_update_embedding.
  edestruct (reliable_statement
               (fun view =>
                  Return (tt, map (fun t => if task_id t =? id
                                            then set_embedding_of e t
                                            else t) view))
               d0 tt) as (d1 & -> & Ht1 & Hx1 & Hrel1);
    [exact Hrel0 | reflexivity |].
  unfold bind.
  destruct (reliable_commit d1 Hrel1) as (d2 & -> & Ht2 & Hx2 & Hrel2).
  exists d2. split; [reflexivity|]. split; [|split; assumption].
  rewrite Ht2. unfold txn_view at 1. rewrite Hx1, Hview0. reflexivity.
Qed.

(** When every call succeeds and an embedding is generated for the
    description, the update is committed and [True] is returned: every
    row of that id carries the new embedding, every other row is as the
    connection saw it. *)
Theorem update_task_embedding_succeeds
    (id : Z) (description : option pystr) (db : database') (e : list num) :
  reliable db ->
  description <> None -> description <> Some [] ->
  usable (generate_embedding' description) = Some e ->
  exists db',
    update_task_embedding' id description db = (Return true, db')
    /\ db_tasks db' = with_embedding e id (txn_view db)
    /\ db_txn db' = Idle.
Proof.
  intros Hrel Hsome Hne Hgen.
  destruct (update_task_embedding_on_reliable id description db e
              Hrel Hsome Hne Hgen) as (db' & Hrun & Ht & Hx & _).
  now exists db'.
Qed.

(** *** Only the embedding column is written *)

Lemma columns_set_embedding_of (e : list num) (t : task') :
  columns (set_embedding_of e t) = columns t.
Proof. reflexivity. Qed.

Lemma same_rows_with_embedding (e : list num) id (view : list task') :
  same_rows (with_embedding e id view) view.
Proof.
  unfold same_rows, with_embedding. rewrite map_map. apply map_ext.
  intros t. now destruct (task_id t =? id).
Qed.

Lemma keeps_ret {A} (a : A) : keeps_rows (@ret database' A a).
Proof. intros db r db' Hc [= <- <-]. split; [exact Hc | reflexivity]. Qed.

Lemma keeps_bind {A B} (m : M database' A) (k : A -> M database' B) :
  keeps_rows m -> (forall a, keeps_rows (k a)) -> keeps_rows (bind m k).
Proof.
  intros Hm Hk db r db' Hc. unfold bind.
  destruct (m db) as [[a|e] db1] eqn:Hrun;
    destruct (Hm db _ db1 Hc Hrun) as [Hc1 Hs1].
  - intros Hrun2. destruct (Hk a db1 r db' Hc1 Hrun2) as [Hc2 Hs2].
    split; [exact Hc2|]. unfold same_rows in *. congruence.
  - intros [= <- <-]. now split.
Qed.

Lemma keeps_try {A} (m : M database' A) (h : exn -> M database' A) :
  keeps_rows m -> (forall e, keeps_rows (h e)) -> keeps_rows (try_except m h).
Proof.
  intros Hm Hh db r db' Hc. unfold try_except.
  destruct (m db) as [[a|e] db1] eqn:Hrun;
    destruct (Hm db _ db1 Hc Hrun) as [Hc1 Hs1].
  - intros [= <- <-]. now split.
  - intros Hrun2. destruct (Hh e db1 r db' Hc1 Hrun2) as [Hc2 Hs2].
    split; [exact Hc2|]. unfold same_rows in *. congruence.
Qed.

Lemma keeps_call : keeps_rows (@connection_call num).
Proof.
  intros db r db' Hc Hrun. apply connection_call_frame in Hrun as [Ht Hx].
  unfold consistent, same_rows, txn_view in *. rewrite Hx, Ht. now split.
Qed.

Lemma keeps_statement {A} (run : list task' -> outcome (A * list task')) :
  (forall view a view', run view = Return (a, view') -> same_rows view' view) ->
  keeps_rows (statement run).
Proof.
  intros Hrun db r db' Hc. unfold statement.
  destruct (connection_call db) as [[[]|e] db1] eqn:Hcall;
    destruct (keeps_call db _ db1 Hc Hcall) as [Hc1 Hs1].
  - destruct (db_txn db1) eqn:Hx1.
    + destruct (run (txn_view db1)) as [[a view']|e] eqn:Hr;
        intros [= <- <-]; (split; [|exact Hs1]).
      * apply Hrun in Hr. unfold consistent, same_rows in *.
        cbn [txn_view db_txn db_tasks]. congruence.
      * reflexivity.
    + destruct (run (txn_view db1)) as [[a view']|e] eqn:Hr;
        intros [= <- <-]; (split; [|exact Hs1]).
      * apply Hrun in Hr. unfold consistent, same_rows in *.
        cbn [txn_view db_txn db_tasks]. congruence.
      * reflexivity.
    + intros [= <- <-]. now split.
  - intros [= <- <-]. split; [reflexivity | exact Hs1].
Qed.

Lemma keeps_commit : keeps_rows (@connection_commit num).
Proof.
  intros db r db' Hc Hrun. unfold consistent in Hc.
  apply commit_frame in Hrun as [(_ & Ht & Hx)|(_ & Ht & Hx)].
  - unfold consistent, same_rows, txn_view in *. rewrite Hx, Ht.
    split; [reflexivity | exact Hc].
  - unfold consistent, same_rows, txn_view in *. rewrite Hx, Ht. now split.
Qed.

Lemma keeps_rollback : keeps_rows (@connection_rollback num).
Proof.
  unfold connection_rollback. apply keeps_bind; [apply keeps_call|].
  intros _ db r db' Hc [= <- <-]. split; reflexivity.
Qed.

Lemma keeps_update (e : list num) id :
  keeps_rows (execute_update_embedding e id).
Proof.
  apply keeps_statement. intros view [] view' [= <-].
  apply same_rows_with_embedding.
Qed.

Lemma keeps_backfill rows : forall n, keeps_rows (backfill' rows n).
Proof.
  induction rows as [|[[id title] description] rows IH]; intros n;
    cbn [backfill]; [apply keeps_ret|].
  destruct (usable _) as [e|]; [|apply IH].
  apply keeps_bind; [apply keeps_update | intros _; apply IH].
Qed.

(** No method writes anything but embeddings: from a connection whose
    open transaction, if any, holds the committed tasks, each of
    [vector_search], [update_task_embedding] and [update_all_embeddings]
    leaves a committed table with the same tasks in the same order, with
    the same ids, titles, descriptions and statuses, whether it returns
    or raises. *)
Theorem only_embeddings_are_written
    (query description : option pystr) (limit id : Z) (db : database') :
  consistent db ->
  same_rows (db_tasks (vector_search' query limit db).2) (db_tasks db)
  /\ same_rows (db_tasks (update_task_embedding' id description db).2)
               (db_tasks db)
  /\ same_rows (db_tasks (update_all_embeddings' db).2) (db_tasks db).
Proof.
  intros Hc.
  assert (Hsearch : keeps_rows (vector_search' query limit)).
  { unfold vector_search. destruct (usable _) as [qe|]; [|apply keeps_ret].
    apply keeps_try; [|intros _; apply keeps_ret].
    apply keeps_bind; [apply keeps_call|]. intros _.
    apply keeps_bind; [|intros rows; apply keeps_ret].
    apply keeps_statement. intros view a view' Hrun.
    destruct (limit <? 0); [discriminate|]. injection Hrun as _ <-.
    reflexivity. }
  assert (Hone : keeps_rows (update_task_embedding' id description)).
  { unfold update_task_embedding.
    destruct description as [[|c rest]|]; try apply keeps_ret.
    destruct (usable _) as [e|]; [|apply keeps_ret].
    apply keeps_try.
    - apply keeps_bind; [apply keeps_call|]. intros _.
      apply keeps_bind; [apply keeps_update|]. intros _.
      apply keeps_bind; [apply keeps_commit|]. intros _. apply keeps_ret.
    - intros _. apply keeps_bind; [apply keeps_rollback|]. intros _.
      apply keeps_ret. }
  assert (Hall : keeps_rows update_all_embeddings').
  { unfold update_all_embeddings. apply keeps_try.
    - unfold update_all_embeddings_try.
      apply keeps_bind; [apply keeps_call|]. intros _.
      apply keeps_bind.
      + apply keeps_statement. intros view a view' [= _ <-]. reflexivity.
      + intros rows. apply keeps_bind; [apply keeps_backfill|]. intros n.
        apply keeps_bind; [apply keeps_commit|]. intros _. apply keeps_ret.
    - intros _. apply keeps_bind; [apply keeps_rollback|]. intros _.
      apply keeps_ret. }
  split; [|split].
  - destruct (vector_search' query limit db) as [r db'] eqn:Hrun.
    exact (proj2 (Hsearch db r db' Hc Hrun)).
  - destruct (update_task_embedding' id description db) as [r db'] eqn:Hrun.
    exact (proj2 (Hone db r db' Hc Hrun)).
  - destruct (update_all_embeddings' db) as [r db'] eqn:Hrun.
    exact (proj2 (Hall db r db' Hc Hrun)).
Qed.

(** *** update_all_embeddings, run again *)

Local Notation row_embedding' := (row_embedding model_encode).
Local Notation apply_row' := (apply_row model_encode).
Local Notation counted' := (counted model_encode).
Local Notation backfilled' := (backfilled model_encode).

(** As [update_all_embeddings_reliable], with what is left of the
    connection. *)
Lemma update_all_embeddings_reliable_next (db : database') :
  reliable db ->
  exists db',
    update_all_embeddings' db
    = (Return (counted' (missing_rows (txn_view db))), db')
    /\ db_tasks db'
       = map (fun t => fold_left apply_row' (missing_rows (txn_view db)) t)
             (txn_view db)
    /\ db_txn db' = Idle /\ reliable db'.
Proof.
  intros Hrel.
  unfold update_all_embeddings, try_except, update_all_embeddings_try.
  unfold bind at 1. unfold connection_cursor.
  destruct (reliable_call db Hrel) as (d0 & -> & Ht0 & Hx0 & Hrel0).
  assert (Hview0 : txn_view d0 = txn_view db)
    by (unfold txn_view; now rewrite Ht0, Hx0).
  unfold bind at 1. unfold execute_select_missing.
  edestruct (reliable_statement
               (fun view =>
                  Return (map (fun t => (task_id t, task_title t,
                                         task_description t))
                              (filter (fun t => task_embedding t = None) view),
                          view))
               d0) as (d1 & -> & Ht1 & Hx1 & Hrel1);
    [exact Hrel0 | reflexivity |].
  fold (missing_rows (txn_view d0)). rewrite Hview0.
  assert (Hview1 : txn_view d1 = txn_view db)
    by (unfold txn_view at 1; now rewrite Hx1).
  unfold bind at 1.
  destruct (reliable_backfill model_encode (missing_rows (txn_view db)) 0 d1
              Hrel1) as (d2 & -> & Ht2 & Hv2 & Hrel2).
  rewrite Hview1 in Hv2.
  unfold bind.
  destruct (reliable_commit d2 Hrel2) as (d3 & -> & Ht3 & Hx3 & Hrel3).
  unfold ret. rewrite Z.add_0_l. exists d3.
  split; [reflexivity|]. split; [congruence|]. split; assumption.
Qed.

(** After a backfill the rows still without embedding are those for
    which none can be generated. *)
Lemma missing_after_backfill (view : list task')
    (r : Z * option pystr * option pystr) :
  r ∈ missing_rows (map backfilled' view) -> row_embedding' r = None.
Proof.
  unfold missing_rows. intros Hr.
  apply list_elem_of_fmap in Hr as (t' & -> & Ht').
  apply list_elem_of_filter in Ht' as [Hmiss Ht'].
  apply list_elem_of_fmap in Ht' as (t & -> & _).
  unfold row_embedding. cbn [fst snd]. unfold backfilled in *.
  destruct (task_embedding t) as [e|] eqn:He; [congruence|].
  destruct (usable (generate_embedding' (text_of (task_title t)
                                                  (task_description t))))
    as [e|] eqn:Hgen; [discriminate | exact Hgen].
Qed.

Lemma nothing_to_do rows :
  (forall r, r ∈ rows -> row_embedding' r = None) ->
  counted' rows = 0
  /\ forall t : task', fold_left apply_row' rows t = t.
Proof.
  induction rows as [|r rows IH]; intros Hnone; [now split|].
  destruct IH as [IHc IHf]; [intros r' Hr'; apply Hnone; now right|].
  assert (Hr : row_embedding' r = None) by (apply Hnone; left).
  split.
  - rewrite counted_cons, Hr. exact IHc.
  - intros t. cbn [fold_left]. unfold apply_row at 2. rewrite Hr. apply IHf.
Qed.

(** The backfill is idempotent: with every call succeeding and ids
    distinct, a second [update_all_embeddings] right after the first
    returns 0 and leaves the committed table as the first left it. *)
Theorem backfill_is_idempotent (db : database') :
  reliable db -> NoDup (map task_id (txn_view db)) ->
  exists n db1 db2,
    update_all_embeddings' db = (Return n, db1)
    /\ update_all_embeddings' db1 = (Return 0, db2)
    /\ db_tasks db2 = db_tasks db1.
Proof.
  intros Hrel Hnd.
  destruct (update_all_embeddings_reliable_next db Hrel)
    as (db1 & Hrun1 & Ht1 & Hx1 & Hrel1).
  assert (Htasks1 : db_tasks db1 = map backfilled' (txn_view db)).
  { rewrite Ht1. apply map_ext_in. intros t Hin.
    apply backfilled_row; [exact Hnd | now apply list_elem_of_In]. }
  assert (Hview1 : txn_view db1 = db_tasks db1)
    by (unfold txn_view; now rewrite Hx1).
  destruct (update_all_embeddings_reliable_next db1 Hrel1)
    as (db2 & Hrun2 & Ht2 & _ & _).
  rewrite Hview1, Htasks1 in Hrun2, Ht2.
  destruct (nothing_to_do (missing_rows (map backfilled' (txn_view db)))
              (missing_after_backfill (txn_view db))) as [Hcount Hfold].
  rewrite Hcount in Hrun2.
  eexists. exists db1, db2. split; [exact Hrun1|]. split; [exact Hrun2|].
  rewrite Ht2, Htasks1. rewrite <- (map_id (map backfilled' (txn_view db))) at 2.
  apply map_ext. exact Hfold.
Qed.

(** *** The whole batch or nothing *)

Lemma statement_returned {A} (run : list task' -> outcome (A * list task'))
    (db db' : database') a :
  statement run db = (Return a, db') ->
  exists view',
    run (txn_view db) = Return (a, view')
    /\ db_txn db' = InTxn view' /\ db_tasks db' = db_tasks db.
Proof.
  unfold statement.
  destruct (connection_call db) as [[[]|e] d] eqn:Hcall; [|discriminate].
  apply connection_call_frame in Hcall as [Ht Hx].
  assert (Hview : txn_view d = txn_view db)
    by (unfold txn_view; now rewrite Ht, Hx).
  rewrite Hview.
  destruct (db_txn d); try discriminate;
    (destruct (run (txn_view db)) as [[a' view']|e]; [|discriminate];
     intros [= <- <-]; exists view'; auto).
Qed.

Lemma backfill_returned rows : forall n (db db' : database') m,
  backfill' rows n db = (Return m, db') ->
  m = n + counted' rows
  /\ txn_view db' = map (fun t => fold_left apply_row' rows t) (txn_view db)
  /\ db_tasks db' = db_tasks db.
Proof.
  induction rows as [|[[id title] description] rows IH]; intros n db db' m;
    cbn [backfill].
  - intros [= <- <-]. unfold counted. cbn. rewrite Z.add_0_r, map_id. auto.
  - rewrite counted_cons. unfold row_embedding at 1. cbn [fst snd].
    assert (Hfold : forall t,
              fold_left apply_row' ((id, title, description) :: rows) t
              = fold_left apply_row' rows
                  (apply_row' t (id, title, description))) by reflexivity.
    unfold apply_row, row_embedding in Hfold. cbn [fst snd] in Hfold.
    destruct (usable (generate_embedding' (text_of title description)))
      as [e|] eqn:He.
    + unfold bind.
      destruct (execute_update_embedding e id db) as [[[]|e'] d1] eqn:Hup;
        [|discriminate].
      apply statement_returned in Hup as (view' & [= <-] & Hx1 & Ht1).
      intros Hrest. apply IH in Hrest as (-> & Hv & Ht).
      split; [lia|]. split; [|congruence].
      rewrite Hv. unfold txn_view at 1. rewrite Hx1, map_map.
      apply map_ext. intros t. now rewrite Hfold.
    + intros Hrest. apply IH in Hrest as (-> & Hv & Ht).
      split; [lia|]. split; [|exact Ht].
      rewrite Hv. apply map_ext. intros t. now rewrite Hfold.
Qed.

(** [update_all_embeddings] commits the whole batch or nothing.  Either
    it returns the number of rows that got an embedding and the
    committed table is the one the connection saw with every selected
    row handled, or it returns 0 or raises and the committed table is as
    it was. *)
Theorem backfill_commits_the_batch_or_nothing
    (db db' : database') (r : outcome Z) :
  update_all_embeddings' db = (r, db') ->
  (r = Return (counted' (missing_rows (txn_view db)))
   /\ db_txn db' = Idle
   /\ db_tasks db'
      = map (fun t => fold_left apply_row' (missing_rows (txn_view db)) t)
            (txn_view db))
  \/ ((r = Return 0 \/ exists e, r = Raise e)
      /\ db_tasks db' = db_tasks db).
Proof.
  unfold update_all_embeddings, try_except.
  destruct (update_all_embeddings_try' db) as [[n|e] d] eqn:Htry.
  - intros [= <- <-]. left.
    unfold update_all_embeddings_try, bind, ret in Htry.
    destruct (connection_cursor db) as [[[]|e0] d0] eqn:H0; [|discriminate].
    apply connection_call_frame in H0 as [Ht0 Hx0].
    assert (Hview0 : txn_view d0 = txn_view db)
      by (unfold txn_view; now rewrite Ht0, Hx0).
    destruct (execute_select_missing d0) as [[rows|e1] d1] eqn:H1;
      [|discriminate].
    apply statement_returned in H1 as (view' & [= <- <-] & Hx1 & Ht1).
    fold (missing_rows (txn_view d0)) in Htry. rewrite Hview0 in Htry, Hx1.
    destruct (backfill' (missing_rows (txn_view db)) 0 d1)
      as [[m|e2] d2] eqn:H2; [|discriminate].
    apply backfill_returned in H2 as (-> & Hv2 & Ht2).
    destruct (connection_commit d2) as [[[]|e3] d3] eqn:H3; [|discriminate].
    apply commit_frame in H3 as [(_ & Ht3 & Hx3)|((e4 & He4) & _)];
      [|discriminate].
    injection Htry as <- <-. rewrite Z.add_0_l.
    split; [reflexivity|]. split; [exact Hx3|].
    assert (Hview1 : txn_view d1 = txn_view db)
      by (unfold txn_view at 1; now rewrite Hx1).
    now rewrite Ht3, Hv2, Hview1.
  - apply try_block_raise_frame in Htry. unfold bind, ret.
    destruct (rollback_cases d) as [(x & -> & Ht & _)|(x & -> & Ht & _)];
      intros [= <- <-]; right; (split; [|congruence]);
      [now left | right; now eexists].
Qed.

(** *** A failed transaction and the backfill *)

Lemma try_block_raises_when_failed (db : database') :
  db_txn db = Aborted ->
  exists e db1, update_all_embeddings_try' db = (Raise e, db1).
Proof.
  intros Hab. unfold update_all_embeddings_try, bind.
  destruct (connection_cursor db) as [[[]|e0] d0] eqn:H0; [|eauto].
  apply connection_call_frame in H0 as [_ Hx0].
  unfold execute_select_missing, statement.
  destruct (connection_call d0) as [[[]|e1] d1] eqn:H1; [|eauto].
  apply connection_call_frame in H1 as [_ Hx1].
  rewrite Hx1, Hx0, Hab. eauto.
Qed.

(** On a connection whose transaction has failed, [update_all_embeddings]
    updates nothing; if its rollback goes through it returns 0 and the
    connection is usable again, otherwise it raises. *)
Theorem backfill_on_failed_transaction (db : database') :
  db_txn db = Aborted ->
  (exists db', update_all_embeddings' db = (Return 0, db')
               /\ db_tasks db' = db_tasks db /\ db_txn db' = Idle)
  \/ (exists db', update_all_embeddings' db = (Raise DatabaseError, db')
                  /\ db_tasks db' = db_tasks db).
Proof.
  intros Hab.
  destruct (try_block_raises_when_failed db Hab) as (e & db1 & Htry).
  destruct (update_all_embeddings_on_failure model_encode db db1 e Htry)
    as [H|(db' & Hrun & Ht & _)]; [now left | right; eauto].
Qed.

(** *** A stored embedding is found *)


End SearchExtras.

(** *** Distinct queries, distinct cache strings *)

Lemma sorted_cache_data (X Y : pystr) :
  merge_sort item_le [(lit "query", X); (lit "filters", Y)]
  = [(lit "filters", Y); (lit "query", X)].
Proof. vm_compute. reflexivity. Qed.

(** The canonical string is [{"filters": ..., "query": "..."}]: the
    query comes last, whatever the filters. *)
Lemma search_cache_str_shape (filters : option pydict) :
  exists pre, forall query,
    search_cache_str query filters
    = pre ++ encode_basestring_ascii query ++ lit "}".
Proof.
  exists (lit "{"
            ++ (encode_basestring_ascii (lit "filters") ++ lit ": "
                  ++ json_dumps true (JDict (filters_or_empty filters)))
            ++ lit ", " ++ encode_basestring_ascii (lit "query") ++ lit ": ").
  intros query. unfold search_cache_str.
  cbn [json_dumps map fst snd]. rewrite sorted_cache_data.
  cbn [map join fst snd].
  repeat rewrite <- List.app_assoc. reflexivity.
Qed.

Lemma is_scalar_range c :
  is_scalar c = true -> 0 <= c < 0xD800 \/ 0xE000 <= c < 0x110000.
Proof. unfold is_scalar. lia. Qed.

Lemma hex_digit_inj x y :
  0 <= x < 16 -> 0 <= y < 16 -> MD5.hex_digit x = MD5.hex_digit y -> x = y.
Proof.
  unfold MD5.hex_digit. intros Hx Hy.
  destruct (x <? 10) eqn:Ex, (y <? 10) eqn:Ey; lia.
Qed.

Lemma nibble_range n k : 0 <= Z.land (Z.shiftr n k) 0xF < 16.
Proof.
  change 0xF with (Z.ones 4). rewrite Z.land_ones by lia.
  apply Z.mod_pos_bound. lia.
Qed.

Lemma hex4_app_inj a b r1 r2 :
  0 <= a < 0x10000 -> 0 <= b < 0x10000 ->
  hex4 a ++ r1 = hex4 b ++ r2 -> a = b /\ r1 = r2.
Proof.
  intros Ha Hb. unfold hex4. cbn [app].
  intros [= H3 H2 H1 H0 Hr].
  apply hex_digit_inj in H3, H2, H1; try apply nibble_range.
  apply hex_digit_inj in H0; try apply (nibble_range _ 0).
  split; [|exact Hr].
  change 0xF with (Z.ones 4) in *.
  rewrite !Z.land_ones in * by lia.
  rewrite !Z.shiftr_div_pow2 in * by lia.
  change (2 ^ 12) with 4096 in *. change (2 ^ 8) with 256 in *.
  change (2 ^ 4) with 16 in *.
  Z.div_mod_to_equations. lia.
Qed.

Lemma lor_high_bits (h x : Z) :
  0 <= h -> 0 <= x < 1024 -> Z.lor (h * 1024) x = h * 1024 + x.
Proof.
  intros Hh Hx.
  assert (Hland : Z.land (h * 1024) x = 0).
  { apply Z.bits_inj'. intros n Hn. rewrite Z.land_spec, Z.bits_0.
    destruct (Z.lt_ge_cases n 10) as [Hlt|Hge].
    - change 1024 with (2 ^ 10). rewrite Z.mul_pow2_bits_low by lia.
      reflexivity.
    - destruct (Z.eq_dec x 0) as [->|Hx0];
        [now rewrite Z.bits_0, andb_false_r|].
      rewrite (Z.bits_above_log2 x n), andb_false_r; [reflexivity|lia|].
      assert (Z.log2 x < 10) by (apply Z.log2_lt_pow2; lia). lia. }
  rewrite <- Z.lxor_lor by exact Hland.
  symmetry. now apply Z.add_nocarry_lxor.
Qed.

(** The two escapes of a code point above the BMP. *)
Lemma surrogates_of c :
  0x10000 <= c < 0x110000 ->
  Z.lor 0xd800 (Z.land (Z.shiftr (c - 0x10000) 10) 0x3ff)
  = 0xD800 + (c - 0x10000) / 1024
  /\ Z.lor 0xdc00 (Z.land (c - 0x10000) 0x3ff)
     = 0xDC00 + (c - 0x10000) mod 1024.
Proof.
  intros Hc. change 0x3ff with (Z.ones 10).
  rewrite !Z.land_ones, Z.shiftr_div_pow2 by lia.
  change (2 ^ 10) with 1024.
  assert (0 <= (c - 0x10000) / 1024 < 1024)
    by (Z.div_mod_to_equations; lia).
  assert (0 <= (c - 0x10000) mod 1024 < 1024)
    by (apply Z.mod_pos_bound; lia).
  rewrite (Z.mod_small ((c - 0x10000) / 1024)) by lia.
  change 0xd800 with (54 * 1024). change 0xdc00 with (55 * 1024).
  rewrite !lor_high_bits by lia. split; reflexivity.
Qed.

(** What [escape_char] gives, by class of character. *)
Lemma escape_char_shape c :
  is_scalar c = true ->
  (exists x, escape_char c = [92; x] /\ x <> 117
             /\ ((x = 34 /\ c = 34) \/ (x = 92 /\ c = 92)
                 \/ (x = 110 /\ c = 10) \/ (x = 114 /\ c = 13)
                 \/ (x = 116 /\ c = 9) \/ (x = 102 /\ c = 12)
                 \/ (x = 98 /\ c = 8)))
  \/ (escape_char c = [c] /\ c <> 92)
  \/ (escape_char c = 92 :: 117 :: hex4 c
      /\ (0 <= c < 0xD800 \/ 0xE000 <= c < 0x10000))
  \/ (escape_char c
      = 92 :: 117 :: hex4 (0xD800 + (c - 0x10000) / 1024)
          ++ 92 :: 117 :: hex4 (0xDC00 + (c - 0x10000) mod 1024)
      /\ 0x10000 <= c < 0x110000).
Proof.
  intros Hs. apply is_scalar_range in Hs. unfold escape_char.
  destruct (c =? 34) eqn:E1;
    [left; exists 34; split; [reflexivity|]; split; lia|].
  destruct (c =? 92) eqn:E2;
    [left; exists 92; split; [reflexivity|]; split; lia|].
  destruct (c =? 10) eqn:E3;
    [left; exists 110; split; [reflexivity|]; split; lia|].
  destruct (c =? 13) eqn:E4;
    [left; exists 114; split; [reflexivity|]; split; lia|].
  destruct (c =? 9) eqn:E5;
    [left; exists 116; split; [reflexivity|]; split; lia|].
  destruct (c =? 12) eqn:E6;
    [left; exists 102; split; [reflexivity|]; split; lia|].
  destruct (c =? 8) eqn:E7;
    [left; exists 98; split; [reflexivity|]; split; lia|].
  destruct ((32 <=? c) && (c <=? 126)) eqn:E8;
    [right; left; split; [reflexivity | lia]|].
  destruct (c <? 0x10000) eqn:E9.
  - right; right; left. split; [reflexivity | lia].
  - right; right; right.
    assert (Hc : 0x10000 <= c < 0x110000) by lia.
    destruct (surrogates_of c Hc) as [-> ->].
    split; [reflexivity | exact Hc].
Qed.

Lemma cons2_inv {A} (a b : A) (l1 l2 : list A) :
  a :: b :: l1 = a :: b :: l2 -> l1 = l2.
Proof. congruence. Qed.

Lemma escape_char_prefix c1 c2 r1 r2 :
  is_scalar c1 = true -> is_scalar c2 = true ->
  escape_char c1 ++ r1 = escape_char c2 ++ r2 -> c1 = c2 /\ r1 = r2.
Proof.
  intros H1 H2 H.
  assert (Hpre : c1 = c2); [|subst c2; split;
                             [reflexivity | now apply app_inv_head in H]].
  destruct (escape_char_shape c1 H1)
    as [(x1 & E1 & Hx1 & K1)|[[E1 K1]|[[E1 K1]|[E1 K1]]]];
    destruct (escape_char_shape c2 H2)
      as [(x2 & E2 & Hx2 & K2)|[[E2 K2]|[[E2 K2]|[E2 K2]]]];
    rewrite E1, E2 in H; cbn [app] in H;
    repeat rewrite <- List.app_assoc in H; cbn [app] in H.
  - injection H as Hx _. lia.
  - injection H as Hx _. lia.
  - injection H as Hx _. lia.
  - injection H as Hx _. lia.
  - injection H as Hx _. lia.
  - injection H as Hx _. exact Hx.
  - injection H as Hx _. lia.
  - injection H as Hx _. lia.
  - injection H as Hx _. lia.
  - injection H as Hx _. lia.
  - apply cons2_inv in H. apply hex4_app_inj in H as [Hh _]; lia.
  - apply cons2_inv in H.
    apply hex4_app_inj in H as [Hh _];
      [|lia|Z.div_mod_to_equations; lia].
    Z.div_mod_to_equations; lia.
  - injection H as Hx _. lia.
  - injection H as Hx _. lia.
  - apply cons2_inv in H.
    apply hex4_app_inj in H as [Hh _];
      [|Z.div_mod_to_equations; lia|lia].
    Z.div_mod_to_equations; lia.
  - apply cons2_inv in H.
    apply hex4_app_inj in H as [Hh Hl];
      [| Z.div_mod_to_equations; lia | Z.div_mod_to_equations; lia].
    apply cons2_inv in Hl.
    apply hex4_app_inj in Hl as [Hl _];
      [| Z.div_mod_to_equations; lia | Z.div_mod_to_equations; lia].
    Z.div_mod_to_equations; lia.
Qed.

Lemma escape_char_nonempty c : is_scalar c = true -> escape_char c <> [].
Proof.
  intros H.
  destruct (escape_char_shape c H)
    as [(x & -> & _)|[[-> _]|[[-> _]|[-> _]]]]; discriminate.
Qed.

Lemma escaped_inj (s1 : pystr) : forall s2,
  encodable s1 = true -> encodable s2 = true ->
  concat (map escape_char s1) = concat (map escape_char s2) -> s1 = s2.
Proof.
  unfold encodable.
  induction s1 as [|c1 s1 IH]; intros [|c2 s2]; cbn [forallb map concat];
    intros H1 H2 H.
  - reflexivity.
  - apply andb_true_iff in H2 as [H2 _]. symmetry in H.
    apply app_eq_nil in H as [H _]. now apply escape_char_nonempty in H.
  - apply andb_true_iff in H1 as [H1 _].
    apply app_eq_nil in H as [H _]. now apply escape_char_nonempty in H.
  - apply andb_true_iff in H1 as [Hc1 H1].
    apply andb_true_iff in H2 as [Hc2 H2].
    apply escape_char_prefix in H as [-> H]; [|assumption..].
    f_equal. now apply IH.
Qed.

(** Two different queries, neither holding a surrogate, never have the
    same canonical string under the same filters: their search keys are
    hashes of different texts. *)
Theorem distinct_queries_distinct_cache_strings
    (query1 query2 : pystr) (filters : option pydict) :
  encodable query1 = true -> encodable query2 = true ->
  query1 <> query2 ->
  search_cache_str query1 filters <> search_cache_str query2 filters.
Proof.
  intros H1 H2 Hne Heq. apply Hne.
  destruct (search_cache_str_shape filters) as [pre Hshape].
  rewrite !Hshape in Heq.
  apply app_inv_head, app_inv_tail in Heq.
  unfold encode_basestring_ascii in Heq.
  apply app_inv_head, app_inv_tail in Heq.
  now apply escaped_inj.
Qed.

(** *** A query with a surrogate pair *)

Lemma escape_char_astral c :
  0x10000 <= c < 0x110000 ->
  escape_char c
  = 92 :: 117 :: hex4 (0xD800 + (c - 0x10000) / 1024)
      ++ 92 :: 117 :: hex4 (0xDC00 + (c - 0x10000) mod 1024).
Proof.
  intros Hc. unfold escape_char.
  repeat match goal with
         | |- context [if ?b then _ else _] => destruct b eqn:?; try lia
         end.
  now destruct (surrogates_of c Hc) as [-> ->].
Qed.

Lemma escape_char_surrogate x :
  0xD800 <= x < 0xE000 -> escape_char x = 92 :: 117 :: hex4 x.
Proof.
  intros Hx. unfold escape_char.
  repeat match goal with
         | |- context [if ?b then _ else _] => destruct b eqn:?; try lia
         end.
  reflexivity.
Qed.

(** Surrogates are another matter: a query with a character above the
    BMP and the query with the two surrogates of that character in its
    place are escaped alike, and so share one search key. *)
Theorem surrogate_pair_shares_the_search_key
    (before after : pystr) (c : Z) (filters : option pydict) :
  0x10000 <= c < 0x110000 ->
  search_cache_key (before ++ [c] ++ after) filters
  = search_cache_key
      (before ++ [0xD800 + (c - 0x10000) / 1024;
                  0xDC00 + (c - 0x10000) mod 1024] ++ after) filters.
Proof.
  intros Hc. unfold search_cache_key. f_equal.
  destruct (search_cache_str_shape filters) as [pre Hshape].
  rewrite !Hshape. f_equal. f_equal.
  unfold encode_basestring_ascii. f_equal. f_equal.
  rewrite !map_app, !concat_app. f_equal. f_equal.
  cbn [map concat].
  rewrite escape_char_astral by exact Hc.
  rewrite !escape_char_surrogate by (Z.div_mod_to_equations; lia).
  cbn [app]. now rewrite <- List.app_assoc.
Qed.

(** ** The further properties on the fixtures *)

Lemma fixture_db_reliable : reliable (Fixture.db []).
Proof. split; [apply List.Forall_nil | discriminate]. Qed.

Lemma fixture_ids_distinct : NoDup (map task_id (txn_view (Fixture.db []))).
Proof.
  cbn. repeat (apply NoDup_cons; split; [set_solver|]). apply NoDup_nil_2.
Qed.

Lemma nonpositive_ttl_stores_nothing_witness :
  0 <= 0
  /\ set_embedding Fixture.pickle_dumps Fixture.manager (lit "shopping")
       [1; 2; 3] 0 Fixture.server
     = (Return tt, Fixture.server)
  /\ set_search_results Fixture.results_dumps Fixture.manager (lit "x")
       (lit "[]") None 0 Fixture.server
     = (Return tt, Fixture.server).
Proof.
  split; [lia|].
  apply (nonpositive_ttl_stores_nothing Fixture.pickle_dumps
           Fixture.results_dumps Fixture.manager (lit "shopping") (lit "x")
           [1; 2; 3] (lit "[]") None 0 Fixture.server).
  lia.
Defined.

Lemma embedding_expires_witness :
  encodable (lit "shopping") = true
  /\ Fixture.pickle_dumps [1; 2; 3] = Return [128; 1; 2; 3]
  /\ (get_embedding Fixture.pickle_loads Fixture.py_print Fixture.manager
        (lit "shopping")
        (mk_redis true 3600
           (redis_db
              (set_embedding Fixture.pickle_dumps Fixture.manager
                 (lit "shopping") [1; 2; 3] default_embedding_ttl
                 Fixture.empty_server).2))).1
     = Return None.
Proof.
  split; [reflexivity|]. split; [reflexivity|].
  rewrite (embedding_expires Fixture.pickle_dumps Fixture.pickle_loads
             Fixture.py_print Fixture.manager (lit "shopping") [1; 2; 3]
             default_embedding_ttl [128; 1; 2; 3] Fixture.empty_server
             (mk_redis true 3600
                (redis_db
                   (set_embedding Fixture.pickle_dumps Fixture.manager
                      (lit "shopping") [1; 2; 3] default_embedding_ttl
                      Fixture.empty_server).2)));
    [reflexivity | reflexivity | reflexivity | reflexivity | reflexivity
     | reflexivity | discriminate | reflexivity].
Defined.

Lemma embedding_and_search_keys_differ_witness :
  _generate_cache_key (lit "shopping") (lit "embedding")
  = Return (lit "embedding:b2fe440cb7a0b127f1a90ffea296313b")
  /\ (exists k2,
        search_cache_key (lit "shopping") None = Return k2
        /\ lit "embedding:b2fe440cb7a0b127f1a90ffea296313b" <> k2).
Proof.
  split; [vm_compute; reflexivity|].
  eexists. split; [vm_compute; reflexivity|].
  apply (embedding_and_search_keys_differ (lit "shopping") (lit "shopping")
           None);
    vm_compute; reflexivity.
Defined.

Lemma search_results_round_trip_witness :
  search_cache_key (lit "x") None = search_cache_key (lit "x") (Some [])
  /\ Fixture.py_print (search_hit_message (lit "x")) = Return tt
  /\ str_encode (lit "[]") = Return [91; 93]
  /\ Fixture.bytes_decode [91; 93] = Return (lit "[]")
  /\ (get_search_results Fixture.results_loads Fixture.bytes_decode
        Fixture.py_print Fixture.manager (lit "x") (Some [])
        (mk_redis true 599
           (redis_db
              (set_search_results Fixture.results_dumps Fixture.manager
                 (lit "x") (lit "[]") None default_search_ttl
                 Fixture.empty_server).2))).1
     = Return (Some (lit "[]")).
Proof.
  split; [reflexivity|]. split; [reflexivity|]. split; [reflexivity|].
  split; [reflexivity|].
  rewrite (search_results_round_trip Fixture.results_dumps
             Fixture.results_loads Fixture.bytes_decode Fixture.py_print
             Fixture.manager (lit "x") None (Some []) (lit "[]")
             default_search_ttl (lit "[]") [91; 93] Fixture.empty_server
             (mk_redis true 599
                (redis_db
                   (set_search_results Fixture.results_dumps Fixture.manager
                      (lit "x") (lit "[]") None default_search_ttl
                      Fixture.empty_server).2)));
    [reflexivity | reflexivity | reflexivity | reflexivity | reflexivity
     | reflexivity | discriminate | reflexivity | reflexivity | reflexivity
     | reflexivity | reflexivity | reflexivity | reflexivity].
Defined.

(** An entry written without pickle's protocol octet. *)
Lemma corrupt_entry_is_a_miss_witness :
  _generate_cache_key (lit "shopping") (lit "embedding")
  = Return (lit "embedding:b2fe440cb7a0b127f1a90ffea296313b")
  /\ lookup_live
       (mk_redis true 0
          (<[lit "embedding:b2fe440cb7a0b127f1a90ffea296313b"
             := ([1; 2; 3], 3600)]> ∅))
       (lit "embedding:b2fe440cb7a0b127f1a90ffea296313b")
     = Some [1; 2; 3]
  /\ Fixture.pickle_loads [1; 2; 3] = Raise PickleError
  /\ get_embedding Fixture.pickle_loads Fixture.py_print Fixture.manager
       (lit "shopping")
       (mk_redis true 0
          (<[lit "embedding:b2fe440cb7a0b127f1a90ffea296313b"
             := ([1; 2; 3], 3600)]> ∅))
     = (Return None,
        mk_redis true 0
          (<[lit "embedding:b2fe440cb7a0b127f1a90ffea296313b"
             := ([1; 2; 3], 3600)]> ∅)).
Proof.
  split; [vm_compute; reflexivity|]. split; [vm_compute; reflexivity|].
  split; [reflexivity|].
  apply (corrupt_entry_is_a_miss Fixture.pickle_loads Fixture.py_print
           Fixture.manager
           (lit "shopping")
           (lit "embedding:b2fe440cb7a0b127f1a90ffea296313b") [1; 2; 3]
           PickleError);
    [reflexivity | reflexivity | vm_compute; reflexivity
     | vm_compute; reflexivity | reflexivity].
Defined.

Lemma stats_entries_within_total_witness :
  get_cache_stats (fun _ => Some (lit "1.00M")) Fixture.manager Fixture.server
  = (Return (StatsConnected 2 1 1 (lit "1.00M")), Fixture.server)
  /\ 0 <= 1 /\ 0 <= 1 /\ 1 + 1 <= 2.
Proof.
  split; [vm_compute; reflexivity|].
  apply (stats_entries_within_total (fun _ => Some (lit "1.00M"))
           Fixture.manager Fixture.server Fixture.server 2 1 1 (lit "1.00M")).
  vm_compute. reflexivity.
Defined.

Lemma stats_after_invalidate_witness :
  redis_client Fixture.manager = Some RedisClient
  /\ redis_up Fixture.server = true
  /\ live_under (lit "embedding:") Fixture.server = 1
  /\ exists total memory,
       (get_cache_stats (fun _ => None) Fixture.manager
          (invalidate_search_cache Fixture.manager Fixture.server).2).1
       = Return (StatsConnected total
                   (live_under (lit "embedding:") Fixture.server) 0 memory).
Proof.
  split; [reflexivity|]. split; [reflexivity|].
  split; [vm_compute; reflexivity|].
  apply (stats_after_invalidate (fun _ => None) Fixture.manager
           Fixture.server); reflexivity.
Defined.

Lemma vector_search_count_witness :
  reliable (Fixture.db [])
  /\ usable (generate_embedding Fixture.model_encode (Some (lit "shopping")))
     = Some [inject_Z 8]
  /\ exists results db',
       vector_search Qle Fixture.one_minus Fixture.distance
         Fixture.model_encode (Some (lit "shopping")) 3 (Fixture.db [])
       = (Return results, db')
       /\ length results = 3%nat.
Proof.
  split; [exact fixture_db_reliable|]. split; [reflexivity|].
  apply (vector_search_count Qle Fixture.one_minus Fixture.distance
           Fixture.model_encode (Some (lit "shopping")) 3 (Fixture.db [])
           [inject_Z 8]);
    [exact fixture_db_reliable | reflexivity | lia].
Defined.

Lemma failed_transaction_blinds_search_witness :
  db_txn (mk_db Fixture.tasks Aborted []) = Aborted
  /\ exists db',
       vector_search Qle Fixture.one_minus Fixture.distance
         Fixture.model_encode (Some (lit "shopping")) 3
         (mk_db Fixture.tasks Aborted [])
       = (Return [], db')
       /\ db_txn db' = Aborted.
Proof.
  split; [reflexivity|].
  apply (failed_transaction_blinds_search Qle Fixture.one_minus
           Fixture.distance Fixture.model_encode (Some (lit "shopping")) 3
           (mk_db Fixture.tasks Aborted [])).
  reflexivity.
Defined.

Lemma negative_limit_fails_the_transaction_witness :
  reliable (Fixture.db [])
  /\ -1 < 0
  /\ exists db',
       vector_search Qle Fixture.one_minus Fixture.distance
         Fixture.model_encode (Some (lit "shopping")) (-1) (Fixture.db [])
       = (Return [], db')
       /\ db_txn db' = Aborted.
Proof.
  split; [exact fixture_db_reliable|]. split; [lia|].
  apply (negative_limit_fails_the_transaction Qle Fixture.one_minus
           Fixture.distance Fixture.model_encode (Some (lit "shopping")) (-1)
           (Fixture.db []) [inject_Z 8]);
    [exact fixture_db_reliable | reflexivity | lia].
Defined.

Lemma update_task_embedding_commits_or_changes_nothing_witness :
  update_task_embedding Fixture.model_encode 6 (Some (lit "Write report"))
    (Fixture.db [])
  = (Return true,
     mk_db (with_embedding [inject_Z 12] 6 Fixture.tasks) Idle [])
  /\ ((Return true = Return true
       /\ db_txn (mk_db (with_embedding [inject_Z 12] 6 Fixture.tasks) Idle [])
          = Idle
       /\ exists e,
            usable (generate_embedding Fixture.model_encode
                      (Some (lit "Write report"))) = Some e
            /\ db_tasks
                 (mk_db (with_embedding [inject_Z 12] 6 Fixture.tasks) Idle [])
               = with_embedding e 6 (txn_view (Fixture.db [])))
      \/ ((Return true = Return false
           \/ exists e, Return true = Raise e)
          /\ db_tasks
               (mk_db (with_embedding [inject_Z 12] 6 Fixture.tasks) Idle [])
             = db_tasks (Fixture.db []))).
Proof.
  split; [vm_compute; reflexivity|].
  apply (update_task_embedding_commits_or_changes_nothing
           Fixture.model_encode 6 (Some (lit "Write report")) (Fixture.db [])
           (mk_db (with_embedding [inject_Z 12] 6 Fixture.tasks) Idle [])
           (Return true)).
  vm_compute. reflexivity.
Defined.

Lemma update_task_embedding_succeeds_witness :
  reliable (Fixture.db [])
  /\ usable (generate_embedding Fixture.model_encode
               (Some (lit "Write report"))) = Some [inject_Z 12]
  /\ exists db',
       update_task_embedding Fixture.model_encode 6
         (Some (lit "Write report")) (Fixture.db [])
       = (Return true, db')
       /\ db_tasks db'
          = with_embedding [inject_Z 12] 6 (txn_view (Fixture.db []))
       /\ db_txn db' = Idle.
Proof.
  split; [exact fixture_db_reliable|]. split; [reflexivity|].
  apply (update_task_embedding_succeeds Fixture.model_encode 6
           (Some (lit "Write report")) (Fixture.db []) [inject_Z 12]);
    [exact fixture_db_reliable | discriminate | discriminate | reflexivity].
Defined.

Lemma only_embeddings_are_written_witness :
  consistent (Fixture.db [false])
  /\ same_rows
       (db_tasks
          (vector_search Qle Fixture.one_minus Fixture.distance
             Fixture.model_encode (Some (lit "shopping")) 3
             (Fixture.db [false])).2)
       (db_tasks (Fixture.db [false]))
  /\ same_rows
       (db_tasks
          (update_task_embedding Fixture.model_encode 6
             (Some (lit "Write report")) (Fixture.db [false])).2)
       (db_tasks (Fixture.db [false]))
  /\ same_rows
       (db_tasks (update_all_embeddings Fixture.model_encode
                    (Fixture.db [false])).2)
       (db_tasks (Fixture.db [false])).
Proof.
  split; [reflexivity|].
  apply (only_embeddings_are_written Qle Fixture.one_minus Fixture.distance
           Fixture.model_encode (Some (lit "shopping"))
           (Some (lit "Write report")) 3 6 (Fixture.db [false])).
  reflexivity.
Defined.

Lemma fixture_with_unreadable_reliable : reliable Fixture.db_with_unreadable.
Proof. split; [apply List.Forall_nil | discriminate]. Qed.

Lemma fixture_with_unreadable_ids_distinct :
  NoDup (map task_id (txn_view Fixture.db_with_unreadable)).
Proof.
  cbn. repeat (apply NoDup_cons; split; [set_solver|]). apply NoDup_nil_2.
Qed.

(** Two tasks lack an embedding: that of id 6 gets one, that of id 7,
    whose title the model cannot read, is skipped and stays as it was;
    1 is returned. *)
Lemma update_all_embeddings_skips_failed_rows_witness :
  reliable Fixture.db_with_unreadable
  /\ NoDup (map task_id (txn_view Fixture.db_with_unreadable))
  /\ generate_embedding Fixture.model_encode
       (text_of (task_title Fixture.unreadable)
                (task_description Fixture.unreadable)) = None
  /\ exists db',
       update_all_embeddings Fixture.model_encode Fixture.db_with_unreadable
       = (Return 1, db')
       /\ map task_embedding (db_tasks db')
          = [Some [(89 # 10)%Q]; Some [(81 # 10)%Q]; Some [(86 # 10)%Q];
             Some [(82 # 10)%Q]; Some [(84 # 10)%Q]; Some [inject_Z 12];
             None]
       /\ Fixture.unreadable ∈ db_tasks db'
       /\ db_txn db' = Idle.
Proof.
  split; [exact fixture_with_unreadable_reliable|].
  split; [exact fixture_with_unreadable_ids_distinct|].
  split; [reflexivity|].
  destruct (update_all_embeddings_skips_failed_rows Fixture.model_encode
              Fixture.db_with_unreadable fixture_with_unreadable_reliable
              fixture_with_unreadable_ids_distinct)
    as (db' & Hrun & Htasks & Htxn).
  exists db'. split; [exact Hrun|]. rewrite Htasks.
  split; [reflexivity|]. split; [|exact Htxn].
  apply list_elem_of_In. cbn. tauto.
Defined.

Lemma backfill_is_idempotent_witness :
  reliable (Fixture.db [])
  /\ NoDup (map task_id (txn_view (Fixture.db [])))
  /\ exists n db1 db2,
       update_all_embeddings Fixture.model_encode (Fixture.db [])
       = (Return n, db1)
       /\ update_all_embeddings Fixture.model_encode db1 = (Return 0, db2)
       /\ db_tasks db2 = db_tasks db1.
Proof.
  split; [exact fixture_db_reliable|]. split; [exact fixture_ids_distinct|].
  apply (backfill_is_idempotent Fixture.model_encode (Fixture.db []));
    [exact fixture_db_reliable | exact fixture_ids_distinct].
Defined.

(** The batch of the fixture holds one task; with the update refused
    and the rollback going through, 0 is returned and the table is as it
    was. *)
Lemma backfill_commits_the_batch_or_nothing_witness :
  update_all_embeddings Fixture.model_encode
    (Fixture.db [true; true; false; true])
  = (Return 0, mk_db Fixture.tasks Idle [])
  /\ ((Return 0
       = Return (counted Fixture.model_encode
                   (missing_rows
                      (txn_view (Fixture.db [true; true; false; true]))))
       /\ db_txn (mk_db Fixture.tasks Idle []) = Idle
       /\ db_tasks (mk_db Fixture.tasks Idle [])
          = map (fun t =>
                   fold_left (apply_row Fixture.model_encode)
                     (missing_rows
                        (txn_view (Fixture.db [true; true; false; true]))) t)
                (txn_view (Fixture.db [true; true; false; true])))
      \/ ((Return 0 = Return 0 \/ exists e, Return 0 = Raise e)
          /\ db_tasks (mk_db Fixture.tasks Idle [])
             = db_tasks (Fixture.db [true; true; false; true]))).
Proof.
  split; [vm_compute; reflexivity|].
  apply (backfill_commits_the_batch_or_nothing Fixture.model_encode
           (Fixture.db [true; true; false; true])
           (mk_db Fixture.tasks Idle []) (Return 0)).
  vm_compute. reflexivity.
Defined.

Lemma backfill_on_failed_transaction_witness :
  db_txn (mk_db Fixture.tasks Aborted []) = Aborted
  /\ ((exists db',
         update_all_embeddings Fixture.model_encode
           (mk_db Fixture.tasks Aborted [])
         = (Return 0, db')
         /\ db_tasks db' = db_tasks (mk_db Fixture.tasks Aborted [])
         /\ db_txn db' = Idle)
      \/ (exists db',
            update_all_embeddings Fixture.model_encode
              (mk_db Fixture.tasks Aborted [])
            = (Raise DatabaseError, db')
            /\ db_tasks db' = db_tasks (mk_db Fixture.tasks Aborted []))).
Proof.
  split; [reflexivity|].
  apply (backfill_on_failed_transaction Fixture.model_encode
           (mk_db Fixture.tasks Aborted [])).
  reflexivity.
Defined.


Lemma surrogate_pair_shares_the_search_key_witness :
  0x10000 <= 0x1F600 < 0x110000
  /\ search_cache_key (lit "buy " ++ [0x1F600] ++ lit " now") None
     = search_cache_key (lit "buy " ++ [0xD83D; 0xDE00] ++ lit " now") None.
Proof.
  split; [lia|].
  apply (surrogate_pair_shares_the_search_key (lit "buy ") (lit " now")
           0x1F600 None).
  lia.
Defined.

Lemma distinct_queries_distinct_cache_strings_witness :
  encodable (lit "shopping") = true /\ encodable (lit "shipping") = true
  /\ lit "shopping" <> lit "shipping"
  /\ search_cache_str (lit "shopping") (Some Fixture.filters_ab)
     <> search_cache_str (lit "shipping") (Some Fixture.filters_ab).
Proof.
  split; [reflexivity|]. split; [reflexivity|]. split; [discriminate|].
  apply (distinct_queries_distinct_cache_strings (lit "shopping")
           (lit "shipping") (Some Fixture.filters_ab));
    [reflexivity | reflexivity | discriminate].
Defined.
